(** * Kanby: the mutation, activity-log and undo core, embedded in Rocq

    A shallow embedding of the server side of the Kanban board, and of
    the parts of the browser side that name the actor and offer the undo.

    - [Position]  : src/lib/position.ts
    - [Store]     : the rows, the activity events and the database the
                    routes run against (the Prisma client and its schema
                    are not part of the sources; see [Store])
    - [Routes]    : the route handlers under src/app/api, one definition
                    per handler, statement by statement
    - [Activity]  : the activity query (GET boards/[boardId]/activity)
    - [Undo]      : the undo route (POST activity/[eventId]/undo)
    - [Realtime]  : src/lib/realtime.ts
    - [Sse]       : the framing of GET boards/[boardId]/events
    - [Identity]  : src/lib/actor.ts and the client helpers
                    (getActorName, getClientId, apiFetch)
    - [Panel]     : the undo buttons of
                    src/components/board/ActivityPanel.tsx

    JavaScript numbers are IEEE-754 binary64 values; they are modelled by
    Rocq's primitive floats, whose operations are the same binary64
    operations, so the arithmetic of the source is evaluated bit for bit.
    A [Date] is its number of milliseconds since the epoch. *)

From Stdlib Require Import PrimFloat SpecFloat FloatAxioms.
From Stdlib Require Import ZArith Lia Ascii String.
From stdpp Require Import base option list strings gmap sorting pretty.

Set Default Proof Using "Type".
Set Warnings "-inexact-float".
Set Warnings "-abstract-large-number".

Local Open Scope Z_scope.

(** ** src/lib/position.ts *)

Module Position.

(** [number | null | undefined]: both [null] and [undefined] are [None]
    (the source tests them with [== null] and [??], which do not tell
    them apart). *)
Abbreviation num := (option float).

(** The fallback step of [positionBetween]. *)
Definition epsilon : float := 0.0001%float.

(** [(last ?? 0) + 1] *)
Definition positionAfter (last : num) : float :=
  (default 0 last + 1)%float.

(** [positionBetween(prev, next)], line by line.  [===] on numbers is
    IEEE equality, [PrimFloat.eqb]. *)
Definition positionBetween (prev next : num) : float :=
  match prev, next with
  | None, None => 0%float
  | None, Some n => (n - 1)%float
  | Some p, None => (p + 1)%float
  | Some p, Some n =>
      let mid := ((p + n) / 2)%float in
      if (mid =? p)%float || (mid =? n)%float
      then (p + epsilon)%float
      else mid
  end.

End Position.

(** ** Texts

    A JavaScript string is a sequence of code units.  A character of a
    text stands for one code unit below 256; code units from 256 on are
    outside the model. *)

Module Text.

(** The characters of a text. *)
Fixpoint chars (s : string) : list ascii :=
  match s with
  | EmptyString => []
  | String c rest => c :: chars rest
  end.

(** The code units below 256 that [String.prototype.trim] removes: the
    white space (9, 11, 12, 32, 160) and the line terminators (10, 13). *)
Definition isTrimmed (c : ascii) : bool :=
  let n := nat_of_ascii c in
  bool_decide (n = 32 \/ 9 <= n <= 13 \/ n = 160)%nat.

Fixpoint trimStart (s : string) : string :=
  match s with
  | String c rest => if isTrimmed c then trimStart rest else s
  | EmptyString => s
  end.

Definition trimEnd (s : string) : string :=
  String.rev (trimStart (String.rev s)).

Definition trim (s : string) : string := trimEnd (trimStart s).

End Text.

(** ** The rows, the events and the database *)

Module Store.

Abbreviation Id := string.
Abbreviation Date := Z.

(** *** Rows

    The columns are the ones the routes select and write. *)

Record BoardRow := mkBoard {
  board_id : Id;
  board_name : string;
  board_createdAt : Date;
  board_updatedAt : Date }.

Record ListRow := mkList {
  list_id : Id;
  list_boardId : Id;
  list_title : string;
  list_position : float;
  list_createdAt : Date;
  list_updatedAt : Date }.

Record CardRow := mkCard {
  card_id : Id;
  card_boardId : Id;
  card_listId : Id;
  card_title : string;
  card_description : string;
  card_dueAt : option Date;
  card_position : float;
  card_createdAt : Date;
  card_updatedAt : Date }.

Inductive EntityType := BOARD | LIST | CARD.

(** The values the routes give to [type]. *)
Inductive EventType :=
  | board_created | board_renamed | board_deleted
  | list_created | list_renamed | list_deleted
  | card_created | card_updated | card_moved | card_deleted
  | card_undone | activity_cleared.

#[global] Instance EntityType_eq_dec : EqDecision EntityType.
Proof. solve_decision. Defined.

#[global] Instance EventType_eq_dec : EqDecision EventType.
Proof. solve_decision. Defined.

(** *** The [data] payload

    [data] is a JSON object [{before, after}] (plus [revertedEventId] on
    [card.undone]).  [before] and [after] are [null] or an object holding a
    selection of the columns of a row.  A [Snapshot] is such an object: each
    key is absent ([None]) or present with a value of the type its column
    has; [dueAt] can be present with the value [null] ([Some None]).  A
    [Date] inside the JSON text is its ISO-8601 string, and [new Date] of
    that string is the same instant, so it is kept as the [Date]. *)
Record Snapshot := mkSnapshot {
  s_id : option Id;
  s_boardId : option Id;
  s_listId : option Id;
  s_name : option string;
  s_title : option string;
  s_description : option string;
  s_dueAt : option (option Date);
  s_position : option float;
  s_createdAt : option Date;
  s_updatedAt : option Date;
  s_cardCount : option nat }.

Record EventData := mkData {
  d_before : option Snapshot;
  d_after : option Snapshot;
  d_revertedEventId : option Id }.

Record ActivityEvent := mkEvent {
  ev_id : Id;
  ev_boardId : Id;
  ev_entityType : EntityType;
  ev_entityId : Id;
  ev_type : EventType;
  ev_actorUserId : option string;
  ev_actorName : string;
  ev_actorClientId : string;
  ev_data : EventData;
  ev_createdAt : Date }.

(** src/lib/actor.ts, [Actor] (without the response header echo). *)
Record Actor := mkActor {
  actorUserId : option string;
  actorName : string;
  actorClientId : string }.

(** *** Snapshots of rows, one per [select] the routes log *)

Definition emptySnapshot : Snapshot :=
  mkSnapshot None None None None None None None None None None None.

(** [{ id, name, createdAt, updatedAt }] *)
Definition snapBoard (b : BoardRow) : Snapshot :=
  mkSnapshot (Some (board_id b)) None None (Some (board_name b)) None None None
    None (Some (board_createdAt b)) (Some (board_updatedAt b)) None.

(** [{ id, title, position, createdAt, updatedAt }], the selection of the
    default lists in board creation. *)
Definition snapListNoBoard (l : ListRow) : Snapshot :=
  mkSnapshot (Some (list_id l)) None None None (Some (list_title l)) None None
    (Some (list_position l)) (Some (list_createdAt l))
    (Some (list_updatedAt l)) None.

(** [{ id, boardId, title, position, createdAt, updatedAt }] *)
Definition snapList (l : ListRow) : Snapshot :=
  mkSnapshot (Some (list_id l)) (Some (list_boardId l)) None None
    (Some (list_title l)) None None (Some (list_position l))
    (Some (list_createdAt l)) (Some (list_updatedAt l)) None.

(** [{ ...before, cardCount }] *)
Definition snapListCount (l : ListRow) (n : nat) : Snapshot :=
  mkSnapshot (Some (list_id l)) (Some (list_boardId l)) None None
    (Some (list_title l)) None None (Some (list_position l))
    (Some (list_createdAt l)) (Some (list_updatedAt l)) (Some n).

(** The full card selection, with [createdAt] and [updatedAt]. *)
Definition snapCard (c : CardRow) : Snapshot :=
  mkSnapshot (Some (card_id c)) (Some (card_boardId c)) (Some (card_listId c))
    None (Some (card_title c)) (Some (card_description c))
    (Some (card_dueAt c)) (Some (card_position c))
    (Some (card_createdAt c)) (Some (card_updatedAt c)) None.

(** [{ id, boardId, listId, title, description, dueAt, position }], the
    [before] selection of the card PATCH. *)
Definition snapCardNoStamps (c : CardRow) : Snapshot :=
  mkSnapshot (Some (card_id c)) (Some (card_boardId c)) (Some (card_listId c))
    None (Some (card_title c)) (Some (card_description c))
    (Some (card_dueAt c)) (Some (card_position c)) None None None.

(** [{ listId, position }], what a move logs. *)
Definition snapMove (listId : Id) (position : float) : Snapshot :=
  mkSnapshot None None (Some listId) None None None None (Some position)
    None None None.


(** The text of a [type], for the messages that quote it. *)
Definition typeName (t : EventType) : string :=
  match t with
  | board_created => "board.created"
  | board_renamed => "board.renamed"
  | board_deleted => "board.deleted"
  | list_created => "list.created"
  | list_renamed => "list.renamed"
  | list_deleted => "list.deleted"
  | card_created => "card.created"
  | card_updated => "card.updated"
  | card_moved => "card.moved"
  | card_deleted => "card.deleted"
  | card_undone => "card.undone"
  | activity_cleared => "activity.cleared"
  end.

(** *** Tables

    A table is the list of its rows, in the order of insertion.  Every row
    type has an [id] column, by which rows are found, replaced and
    removed. *)

Class HasId (R : Type) := rowId : R -> Id.

#[global] Instance BoardRow_id : HasId BoardRow := board_id.
#[global] Instance ListRow_id : HasId ListRow := list_id.
#[global] Instance CardRow_id : HasId CardRow := card_id.
#[global] Instance ActivityEvent_id : HasId ActivityEvent := ev_id.

(** [findUnique({ where: { id } })] *)
Definition findById {R} `{HasId R} (id : Id) (table : list R) : option R :=
  find (fun r => bool_decide (rowId r = id)) table.

(** The table after [update({ where: { id }, data })], where [f] applies
    [data] to a row. *)
Definition updateById {R} `{HasId R} (id : Id) (f : R -> R) (table : list R)
    : list R :=
  (fun r => if bool_decide (rowId r = id) then f r else r) <$> table.

(** The table after [delete({ where: { id } })]. *)
Definition deleteById {R} `{HasId R} (id : Id) (table : list R) : list R :=
  filter (fun r => rowId r <> id) table.

Record Db := mkDb {
  boards : list BoardRow;
  lists : list ListRow;
  cards : list CardRow;
  events : list ActivityEvent }.

Definition emptyDb : Db := mkDb [] [] [] [].

Definition set_boards (f : list BoardRow -> list BoardRow) (db : Db) : Db :=
  mkDb (f (boards db)) (lists db) (cards db) (events db).
Definition set_lists (f : list ListRow -> list ListRow) (db : Db) : Db :=
  mkDb (boards db) (f (lists db)) (cards db) (events db).
Definition set_cards (f : list CardRow -> list CardRow) (db : Db) : Db :=
  mkDb (boards db) (lists db) (f (cards db)) (events db).
Definition set_events (f : list ActivityEvent -> list ActivityEvent) (db : Db)
    : Db :=
  mkDb (boards db) (lists db) (cards db) (f (events db)).

(** *** Transactions

    A statement of a transaction body reads and writes the database and may
    throw; [None] is a thrown exception.  [transaction] is
    [prisma.$transaction]: when the body throws, nothing it wrote is kept. *)
Definition Tx (A : Type) : Type := Db -> option (A * Db).

Definition tx_ret {A} (a : A) : Tx A := fun db => Some (a, db).

Definition tx_bind {A B} (m : Tx A) (k : A -> Tx B) : Tx B :=
  fun db => match m db with
            | Some (a, db') => k a db'
            | None => None
            end.

Definition tx_read {A} (f : Db -> A) : Tx A := fun db => Some (f db, db).

Definition transaction {A} (body : Tx A) (db : Db) : option A * Db :=
  match body db with
  | Some (a, db') => (Some a, db')
  | None => (None, db)
  end.

Notation "'let*' x ':=' m 'in' k" := (tx_bind m (fun x => k))
  (at level 10, x pattern, m at level 100, k at level 200).
Notation "m ';;' k" := (tx_bind m (fun _ => k))
  (at level 100, k at level 200, right associativity).

(** *** The Prisma client

    prisma/schema.prisma and the generated client are not among the
    sources.  What the routes rely on is taken from the spec (section 3:
    ids, timestamps, ownership, cascade on destruction) and from the
    routes' own comments ("Cascades will remove lists/cards/labels/events",
    "Card rows will be deleted via onDelete: Cascade"):
    - [id] is the primary key of its table: a [create] whose id is taken
      throws.  The id and the clock are inputs of the statement;
    - a row refers to existing parents ([List.boardId], [Card.boardId],
      [Card.listId], [ActivityEvent.boardId]): a [create] or [update] that
      would leave a dangling reference throws;
    - [update] and [delete] of a row that does not exist throw;
    - [createdAt] is the time of creation; [updatedAt] is refreshed by every
      [update];
    - deleting a list deletes its cards; deleting a board deletes its
      lists, its cards, the cards of its lists and its events.
    Labels have no route that writes them and are left out. *)

Definition board_findUnique (id : Id) : Tx (option BoardRow) :=
  tx_read (fun db => findById id (boards db)).

Definition list_findUnique (id : Id) : Tx (option ListRow) :=
  tx_read (fun db => findById id (lists db)).

Definition card_findUnique (id : Id) : Tx (option CardRow) :=
  tx_read (fun db => findById id (cards db)).

Definition event_findUnique (id : Id) : Tx (option ActivityEvent) :=
  tx_read (fun db => findById id (events db)).

(** [list.findFirst({ where: { id, boardId } })] *)
Definition list_findFirst_onBoard (id boardId : Id) : Tx (option ListRow) :=
  tx_read (fun db =>
    match findById id (lists db) with
    | Some l => if decide (list_boardId l = boardId) then Some l else None
    | None => None
    end).

(** The greatest of a list of positions; what
    [findFirst({ orderBy: { position: "desc" }, select: { position: true } })]
    selects from the rows it is given. *)
Definition maxPosition (ps : list float) : option float :=
  foldr (fun p acc =>
           match acc with
           | None => Some p
           | Some m => Some (if (m <? p)%float then p else m)
           end) None ps.

Definition cardsOfList (listId : Id) (db : Db) : list CardRow :=
  filter (fun c => card_listId c = listId) (cards db).

Definition listsOfBoard (boardId : Id) (db : Db) : list ListRow :=
  filter (fun l => list_boardId l = boardId) (lists db).

(** [card.findFirst({ where: { listId }, orderBy: { position: "desc" },
    select: { position: true } })], as [last?.position]. *)
Definition card_lastPosition (listId : Id) : Tx (option float) :=
  tx_read (fun db => maxPosition (card_position <$> cardsOfList listId db)).

(** The same query on the lists of a board. *)
Definition list_lastPosition (boardId : Id) : Tx (option float) :=
  tx_read (fun db => maxPosition (list_position <$> listsOfBoard boardId db)).

(** [card.count({ where: { listId } })] *)
Definition card_count (listId : Id) : Tx nat :=
  tx_read (fun db => length (cardsOfList listId db)).

(** Modelled from the spec: the schema is missing; the id is the primary
    key and both timestamps start at the time of creation. *)
Definition board_create (id : Id) (name : string) (now : Date) : Tx BoardRow :=
  fun db =>
    match findById id (boards db) with
    | Some _ => None
    | None =>
        let b := mkBoard id name now now in
        Some (b, set_boards (fun t => t ++ [b]) db)
    end.

(** Modelled from the spec: the schema is missing; a list belongs to
    exactly one board, which has to exist. *)
Definition list_create (id boardId : Id) (title : string) (position : float)
    (now : Date) : Tx ListRow :=
  fun db =>
    match findById id (lists db), findById boardId (boards db) with
    | None, Some _ =>
        let l := mkList id boardId title position now now in
        Some (l, set_lists (fun t => t ++ [l]) db)
    | _, _ => None
    end.

(** Modelled from the spec: the schema is missing; a card belongs to
    exactly one list and carries the id of a board, both have to exist. *)
Definition card_create (id boardId listId : Id) (title description : string)
    (dueAt : option Date) (position : float) (now : Date) : Tx CardRow :=
  fun db =>
    match findById id (cards db), findById boardId (boards db),
          findById listId (lists db) with
    | None, Some _, Some _ =>
        let c := mkCard id boardId listId title description dueAt position
                   now now in
        Some (c, set_cards (fun t => t ++ [c]) db)
    | _, _, _ => None
    end.

(** Modelled from the spec: the schema is missing; an event belongs to a
    board, which has to exist, and the log is append-only. *)
Definition event_create (e : ActivityEvent) : Tx ActivityEvent :=
  fun db =>
    match findById (ev_id e) (events db), findById (ev_boardId e) (boards db)
    with
    | None, Some _ => Some (e, set_events (fun t => t ++ [e]) db)
    | _, _ => None
    end.

(** [activityEvent.createMany({ data })] *)
Fixpoint event_createMany (es : list ActivityEvent) : Tx unit :=
  match es with
  | [] => tx_ret tt
  | e :: es' => event_create e ;; event_createMany es'
  end.

(** The row after [board.update] with [data] either [{ name }] or
    [{ updatedAt: new Date() }]. *)
Definition updatedBoard (name : option string) (now : Date) (b : BoardRow)
    : BoardRow :=
  mkBoard (board_id b) (default (board_name b) name) (board_createdAt b) now.

(** Modelled from the spec: the schema is missing; updating a row that
    does not exist throws, and [updatedAt] is refreshed. *)
Definition board_update (id : Id) (name : option string) (now : Date)
    : Tx BoardRow :=
  fun db =>
    match findById id (boards db) with
    | None => None
    | Some b =>
        Some (updatedBoard name now b,
              set_boards (updateById id (updatedBoard name now)) db)
    end.

(** The row after [list.update({ data: { title? } })]. *)
Definition updatedList (title : option string) (now : Date) (l : ListRow)
    : ListRow :=
  mkList (list_id l) (list_boardId l) (default (list_title l) title)
    (list_position l) (list_createdAt l) now.

(** Modelled from the spec: the schema is missing; as for boards. *)
Definition list_update (id : Id) (title : option string) (now : Date)
    : Tx ListRow :=
  fun db =>
    match findById id (lists db) with
    | None => None
    | Some l =>
        Some (updatedList title now l,
              set_lists (updateById id (updatedList title now)) db)
    end.

(** The [data] of a card update: the keys that are set. *)
Record CardUpdate := mkCardUpdate {
  u_listId : option Id;
  u_position : option float;
  u_title : option string;
  u_description : option string;
  u_dueAt : option (option Date) }.

(** The row after [card.update({ data })]. *)
Definition applyCardUpdate (u : CardUpdate) (now : Date) (c : CardRow) : CardRow :=
  mkCard (card_id c) (card_boardId c)
    (default (card_listId c) (u_listId u))
    (default (card_title c) (u_title u))
    (default (card_description c) (u_description u))
    (default (card_dueAt c) (u_dueAt u))
    (default (card_position c) (u_position u))
    (card_createdAt c) now.

(** Modelled from the spec: the schema is missing; as for boards, and the
    list the card is put in has to exist. *)
Definition card_update (id : Id) (u : CardUpdate) (now : Date) : Tx CardRow :=
  fun db =>
    match findById id (cards db) with
    | None => None
    | Some c =>
        let c' := applyCardUpdate u now c in
        match findById (card_listId c') (lists db) with
        | None => None
        | Some _ => Some (c', set_cards (updateById id (applyCardUpdate u now)) db)
        end
    end.

(** Modelled from the spec: the schema is missing; deleting a row that
    does not exist throws. *)
Definition card_delete (id : Id) : Tx unit :=
  fun db =>
    match findById id (cards db) with
    | None => None
    | Some _ => Some (tt, set_cards (deleteById id) db)
    end.

(** Modelled from the spec: the schema is missing; the cards of the list
    are deleted with it. *)
Definition list_delete (id : Id) : Tx unit :=
  fun db =>
    match findById id (lists db) with
    | None => None
    | Some _ =>
        Some (tt, set_cards (filter (fun c => card_listId c <> id))
                    (set_lists (deleteById id) db))
    end.

(** Is [listId] a list of board [boardId]? *)
Definition listOnBoard (ls : list ListRow) (listId boardId : Id) : bool :=
  match findById listId ls with
  | Some l => bool_decide (list_boardId l = boardId)
  | None => false
  end.

(** The database after a board is deleted, with what the deletion
    cascades to. *)
Definition withoutBoard (id : Id) (db : Db) : Db :=
  mkDb (deleteById id (boards db))
    (filter (fun l => list_boardId l <> id) (lists db))
    (filter (fun c => card_boardId c <> id
                      /\ listOnBoard (lists db) (card_listId c) id = false)
       (cards db))
    (filter (fun e => ev_boardId e <> id) (events db)).

(** Modelled from the spec: the schema is missing; "Destroyed cascades to
    all Lists/Cards/Events". *)
Definition board_delete (id : Id) : Tx unit :=
  fun db =>
    match findById id (boards db) with
    | None => None
    | Some _ => Some (tt, withoutBoard id db)
    end.

End Store.
(** ** The route handlers

    A handler takes the environment of the request (the clock and the ids
    the database generates), the actor, the parameters of the URL, the
    values of the keys of the JSON body, and the database; it gives the
    response and the database after it.  A key of the body is given with
    the type the schema asks for ([None] is a key that is absent, or
    [null] where the schema admits it); a due date is given as the instant
    its text denotes.  The handler checks the values against its schema
    first and answers 400 without reading the database when the schema
    refuses them.  The parameters of the URL are segments of the path,
    which are not empty: the [min(1)] of the [ParamsSchema]s always
    passes.  The realtime publish that follows a commit does not touch the
    database; it is modelled on its own in [Realtime]. *)

Module Routes.
Import Store Position Text.

(** What a request gets from outside: the time, and the ids generated for
    the rows it creates, in the order of creation. *)
Record Env := mkEnv {
  now : Date;
  newId : nat -> Id }.

(** The JSON bodies of the success responses. *)
Inductive Body :=
  | BoardAndLists (board : BoardRow) (ls : list ListRow)
  | BoardBody (board : BoardRow)
  | BoardDeleted (boardId : Id)
  | ListBody (l : ListRow)
  | ListDeleted (listId boardId : Id) (cardCount : nat)
  | CardBody (card : CardRow)
  | CardDeleted (cardId boardId : Id)
  | Cleared (eventId : Id) (at_ : Date)
  | UndoneDeleted (cardId : Id)
  | UndoneReverted (card : CardRow)
  | UndoneRestored (card : CardRow)
  | UndoneNoop
  | EventsBody (evs : list ActivityEvent).

(** src/lib/http.ts: [jsonOk(data, { status })] and
    [jsonError(message, status)]. *)
Inductive Response :=
  | jsonOk (body : Body) (status : nat)
  | jsonError (message : string) (status : nat).

(** An exception that leaves the handler: the framework answers 500. *)
Definition uncaught : Response := jsonError "Internal Server Error" 500.

Definition mkActivity (env : Env) (k : nat) (actor : Actor) (boardId : Id)
    (entityType : EntityType) (entityId : Id) (type : EventType)
    (data : EventData) : ActivityEvent :=
  mkEvent (newId env k) boardId entityType entityId type
    (actorUserId actor) (actorName actor) (actorClientId actor) data (now env).

(** [tx.board.update({ where: { id }, data: { updatedAt: new Date() } })] *)
Definition touchBoard (env : Env) (boardId : Id) : Tx BoardRow :=
  board_update boardId None (now env).

(** *** The schemas of the bodies (zod) *)

(** [z.string().trim().min(1).max(max)]: the text is trimmed, then its
    length is checked; the parsed value is the trimmed text. *)
Definition trimmedText (max : nat) (s : string) : option string :=
  let s := trim s in
  if bool_decide (1 <= String.length s <= max)%nat then Some s else None.

(** [z.string().max(max)] *)
Definition textUpTo (max : nat) (s : string) : option string :=
  if bool_decide (String.length s <= max)%nat then Some s else None.

(** [z.string().min(1)] *)
Definition atLeastOne (s : string) : bool := bool_decide (s <> "").

(** [schema.optional()]: an absent key passes. *)
Definition optionalKey {A B} (schema : A -> option B) (value : option A)
    : option (option B) :=
  match value with
  | None => Some None
  | Some a =>
      match schema a with
      | Some b => Some (Some b)
      | None => None
      end
  end.

(** [CreateBoardSchema]: [{ name: z.string().trim().min(1).max(80)
    .optional() }], the object itself optional. *)
Definition CreateBoardSchema (name : option string) : option (option string) :=
  optionalKey (trimmedText 80) name.

(** [PatchBoardSchema]: [{ name: z.string().trim().min(1).max(80) }] *)
Definition PatchBoardSchema (name : string) : option string :=
  trimmedText 80 name.

(** [CreateListSchema]: [{ title: z.string().trim().min(1).max(80) }] *)
Definition CreateListSchema (title : string) : option string :=
  trimmedText 80 title.

(** [PatchListSchema]: [{ title: z.string().trim().min(1).max(80)
    .optional() }], refined by [Object.keys(obj).length > 0]. *)
Definition PatchListSchema (title : option string) : option (option string) :=
  match optionalKey (trimmedText 80) title with
  | Some (Some title) => Some (Some title)
  | _ => None
  end.

(** [CreateCardSchema]: [{ title: z.string().trim().min(1).max(120),
    description: z.string().max(10_000).optional(), dueAt:
    z.string().datetime().optional() }] *)
Definition CreateCardSchema (title : string) (description : option string)
    : option (string * option string) :=
  match trimmedText 120 title, optionalKey (textUpTo 10000) description with
  | Some title, Some description => Some (title, description)
  | _, _ => None
  end.

(** [PatchCardSchema]: [{ title: z.string().trim().min(1).max(120)
    .optional(), description: z.string().max(10_000).optional(), dueAt:
    z.union([z.string().datetime(), z.null()]).optional() }], refined by
    [Object.keys(obj).length > 0]. *)
Definition PatchCardSchema (title description : option string)
    (dueAt : option (option Date)) : option (option string * option string) :=
  match optionalKey (trimmedText 120) title,
        optionalKey (textUpTo 10000) description with
  | Some title, Some description =>
      if bool_decide (title = None) && bool_decide (description = None)
         && bool_decide (dueAt = None)
      then None
      else Some (title, description)
  | _, _ => None
  end.

(** [MoveCardSchema]: [{ toListId: z.string().min(1), beforeCardId:
    z.string().min(1).nullable().optional(), afterCardId: the same }].
    The parsed values are the given ones. *)
Definition MoveCardSchema (toListId : Id) (beforeCardId afterCardId : option Id)
    : bool :=
  atLeastOne toListId && from_option atLeastOne true beforeCardId
  && from_option atLeastOne true afterCardId.

(** [jsonError("Invalid request body", 400, parsed.error.flatten())] *)
Definition invalidBody : Response := jsonError "Invalid request body" 400.

(** *** src/app/api/boards/route.ts, POST *)

Definition defaultLists : list (string * float) :=
  [("Todo", 1%float); ("Doing", 2%float); ("Done", 3%float)].

(** [Promise.all(defaultLists.map((l) => tx.list.create(...)))]; the k-th
    list takes the k-th generated id after [k0]. *)
Fixpoint createDefaultLists (env : Env) (k0 : nat) (boardId : Id)
    (ls : list (string * float)) : Tx (list ListRow) :=
  match ls with
  | [] => tx_ret []
  | (title, position) :: ls' =>
      let* l := list_create (newId env k0) boardId title position (now env) in
      let* rest := createDefaultLists env (S k0) boardId ls' in
      tx_ret (l :: rest)
  end.

Definition listCreatedEvents (env : Env) (k0 : nat) (actor : Actor)
    (boardId : Id) (ls : list ListRow) : list ActivityEvent :=
  imap (fun i l =>
          mkActivity env (k0 + i) actor boardId LIST (list_id l) list_created
            (mkData None (Some (snapListNoBoard l)) None)) ls.

Definition createBoard_tx (env : Env) (actor : Actor) (name : string)
    : Tx (BoardRow * list ListRow) :=
  let* board := board_create (newId env 0) name (now env) in
  let* ls := createDefaultLists env 1 (board_id board) defaultLists in
  event_create
    (mkActivity env 4 actor (board_id board) BOARD (board_id board)
       board_created (mkData None (Some (snapBoard board)) None)) ;;
  event_createMany (listCreatedEvents env 5 actor (board_id board) ls) ;;
  tx_ret (board, ls).

Definition createBoard (env : Env) (actor : Actor) (name : option string)
    (db : Db) : Response * Db :=
  match CreateBoardSchema name with
  | None => (invalidBody, db)
  | Some name =>
      let name := default "My Board" name in
      match transaction (createBoard_tx env actor name) db with
      | (Some (board, ls), db') => (jsonOk (BoardAndLists board ls) 201, db')
      | (None, db') => (uncaught, db')
      end
  end.

(** *** src/app/api/boards/[boardId]/route.ts, PATCH and DELETE *)

Definition renameBoard_tx (env : Env) (actor : Actor) (boardId : Id)
    (name : string) : Tx (option BoardRow) :=
  let* before := board_findUnique boardId in
  match before with
  | None => tx_ret None
  | Some before =>
      let* after := board_update (board_id before) (Some name) (now env) in
      event_create
        (mkActivity env 0 actor (board_id before) BOARD (board_id before)
           board_renamed
           (mkData (Some (snapBoard before)) (Some (snapBoard after)) None)) ;;
      tx_ret (Some after)
  end.

Definition renameBoard (env : Env) (actor : Actor) (boardId : Id)
    (name : string) (db : Db) : Response * Db :=
  match PatchBoardSchema name with
  | None => (invalidBody, db)
  | Some name =>
      match transaction (renameBoard_tx env actor boardId name) db with
      | (Some None, db') => (jsonError "Board not found" 404, db')
      | (Some (Some board), db') => (jsonOk (BoardBody board) 200, db')
      | (None, db') => (uncaught, db')
      end
  end.

Definition deleteBoard_tx (boardId : Id) : Tx (option Id) :=
  let* before := board_findUnique boardId in
  match before with
  | None => tx_ret None
  | Some before =>
      (* Cascades will remove lists/cards/labels/events. *)
      board_delete (board_id before) ;;
      tx_ret (Some (board_id before))
  end.

Definition deleteBoard (env : Env) (actor : Actor) (boardId : Id) (db : Db)
    : Response * Db :=
  match transaction (deleteBoard_tx boardId) db with
  | (Some None, db') => (jsonError "Board not found" 404, db')
  | (Some (Some id), db') => (jsonOk (BoardDeleted id) 200, db')
  | (None, db') => (uncaught, db')
  end.

(** *** src/app/api/boards/[boardId]/lists/route.ts, POST *)

Definition createList_tx (env : Env) (actor : Actor) (boardId : Id)
    (title : string) : Tx ListRow :=
  let* last := list_lastPosition boardId in
  let* l := list_create (newId env 0) boardId title (positionAfter last)
              (now env) in
  event_create
    (mkActivity env 1 actor boardId LIST (list_id l) list_created
       (mkData None (Some (snapList l)) None)) ;;
  touchBoard env boardId ;;
  tx_ret l.

Definition createList (env : Env) (actor : Actor) (boardId : Id)
    (title : string) (db : Db) : Response * Db :=
  match CreateListSchema title with
  | None => (invalidBody, db)
  | Some title =>
      match transaction (createList_tx env actor boardId title) db with
      | (Some l, db') => (jsonOk (ListBody l) 201, db')
      | (None, db') => (uncaught, db')
      end
  end.

(** *** src/app/api/boards/[boardId]/lists/[listId]/route.ts, PATCH and
    DELETE *)

Definition renameList_tx (env : Env) (actor : Actor) (boardId listId : Id)
    (title : option string) : Tx (option ListRow) :=
  let* before := list_findFirst_onBoard listId boardId in
  match before with
  | None => tx_ret None
  | Some before =>
      let* after := list_update (list_id before) title (now env) in
      event_create
        (mkActivity env 0 actor boardId LIST (list_id before) list_renamed
           (mkData (Some (snapList before)) (Some (snapList after)) None)) ;;
      touchBoard env boardId ;;
      tx_ret (Some after)
  end.

Definition renameList (env : Env) (actor : Actor) (boardId listId : Id)
    (title : option string) (db : Db) : Response * Db :=
  match PatchListSchema title with
  | None => (invalidBody, db)
  | Some title =>
      match transaction (renameList_tx env actor boardId listId title) db with
      | (Some None, db') => (jsonError "List not found" 404, db')
      | (Some (Some l), db') => (jsonOk (ListBody l) 200, db')
      | (None, db') => (uncaught, db')
      end
  end.

Definition deleteList_tx (env : Env) (actor : Actor) (boardId listId : Id)
    : Tx (option (ListRow * nat)) :=
  let* before := list_findFirst_onBoard listId boardId in
  match before with
  | None => tx_ret None
  | Some before =>
      let* cardCount := card_count (list_id before) in
      (* Card rows will be deleted via onDelete: Cascade. *)
      list_delete (list_id before) ;;
      event_create
        (mkActivity env 0 actor boardId LIST (list_id before) list_deleted
           (mkData (Some (snapListCount before cardCount)) None None)) ;;
      touchBoard env boardId ;;
      tx_ret (Some (before, cardCount))
  end.

Definition deleteList (env : Env) (actor : Actor) (boardId listId : Id)
    (db : Db) : Response * Db :=
  match transaction (deleteList_tx env actor boardId listId) db with
  | (Some None, db') => (jsonError "List not found" 404, db')
  | (Some (Some (l, n)), db') =>
      (jsonOk (ListDeleted (list_id l) (list_boardId l) n) 200, db')
  | (None, db') => (uncaught, db')
  end.

(** *** The card creation route (POST boards/[boardId]/lists/[listId]/cards;
    src/unnamed/part_008) *)

Definition createCard_tx (env : Env) (actor : Actor) (boardId listId : Id)
    (title : string) (description : option string) (dueAt : option Date)
    : Tx CardRow :=
  let* last := card_lastPosition listId in
  let* card := card_create (newId env 0) boardId listId title
                 (default "" description) dueAt (positionAfter last)
                 (now env) in
  event_create
    (mkActivity env 1 actor boardId CARD (card_id card) card_created
       (mkData None (Some (snapCard card)) None)) ;;
  touchBoard env boardId ;;
  tx_ret card.

Definition createCard (env : Env) (actor : Actor) (boardId listId : Id)
    (title : string) (description : option string) (dueAt : option Date)
    (db : Db) : Response * Db :=
  match CreateCardSchema title description with
  | None => (invalidBody, db)
  | Some (title, description) =>
      match transaction
              (createCard_tx env actor boardId listId title description dueAt)
              db
      with
      | (Some card, db') => (jsonOk (CardBody card) 201, db')
      | (None, db') => (uncaught, db')
      end
  end.

(** *** src/app/api/cards/[cardId]/route.ts, PATCH and DELETE *)

Definition updateCard_tx (env : Env) (actor : Actor) (cardId : Id)
    (title description : option string) (dueAt : option (option Date))
    : Tx (option CardRow) :=
  let* before := card_findUnique cardId in
  match before with
  | None => tx_ret None
  | Some before =>
      let updateData := mkCardUpdate None None title description dueAt in
      let* after := card_update cardId updateData (now env) in
      event_create
        (mkActivity env 0 actor (card_boardId before) CARD (card_id before)
           card_updated
           (mkData (Some (snapCardNoStamps before)) (Some (snapCard after))
              None)) ;;
      touchBoard env (card_boardId before) ;;
      tx_ret (Some after)
  end.

Definition updateCard (env : Env) (actor : Actor) (cardId : Id)
    (title description : option string) (dueAt : option (option Date))
    (db : Db) : Response * Db :=
  match PatchCardSchema title description dueAt with
  | None => (invalidBody, db)
  | Some (title, description) =>
      match
        transaction (updateCard_tx env actor cardId title description dueAt) db
      with
      | (Some None, db') => (jsonError "Card not found" 404, db')
      | (Some (Some card), db') => (jsonOk (CardBody card) 200, db')
      | (None, db') => (uncaught, db')
      end
  end.

Definition deleteCard_tx (env : Env) (actor : Actor) (cardId : Id)
    : Tx (option CardRow) :=
  let* before := card_findUnique cardId in
  match before with
  | None => tx_ret None
  | Some before =>
      card_delete (card_id before) ;;
      event_create
        (mkActivity env 0 actor (card_boardId before) CARD (card_id before)
           card_deleted (mkData (Some (snapCard before)) None None)) ;;
      touchBoard env (card_boardId before) ;;
      tx_ret (Some before)
  end.

Definition deleteCard (env : Env) (actor : Actor) (cardId : Id) (db : Db)
    : Response * Db :=
  match transaction (deleteCard_tx env actor cardId) db with
  | (Some None, db') => (jsonError "Card not found" 404, db')
  | (Some (Some c), db') =>
      (jsonOk (CardDeleted (card_id c) (card_boardId c)) 200, db')
  | (None, db') => (uncaught, db')
  end.

(** *** src/app/api/cards/[cardId]/move/route.ts, POST *)

Inductive MoveResult :=
  | MoveNotFound
  | MoveInvalidNeighbors
  | Moved (card : CardRow).

(** [id ? await tx.card.findUnique({ where: { id } }) : null] *)
Definition findNeighbor (id : option Id) : Tx (option CardRow) :=
  match id with
  | Some id => if bool_decide (id = "") then tx_ret None else card_findUnique id
  | None => tx_ret None
  end.

(** [neighbor && neighbor.listId !== toListId] *)
Definition wrongList (neighbor : option CardRow) (toListId : Id) : bool :=
  match neighbor with
  | Some n => bool_decide (card_listId n <> toListId)
  | None => false
  end.

Definition moveCard_tx (env : Env) (actor : Actor) (cardId toListId : Id)
    (beforeCardId afterCardId : option Id) : Tx MoveResult :=
  let* card := card_findUnique cardId in
  match card with
  | None => tx_ret MoveNotFound
  | Some card =>
      let before := snapMove (card_listId card) (card_position card) in
      let* beforeNeighbor := findNeighbor beforeCardId in
      let* afterNeighbor := findNeighbor afterCardId in
      if wrongList beforeNeighbor toListId then tx_ret MoveInvalidNeighbors
      else if wrongList afterNeighbor toListId then tx_ret MoveInvalidNeighbors
      else
        (* If no neighbors were provided, append to end. *)
        let* nextPos :=
          match beforeNeighbor, afterNeighbor with
          | None, None =>
              let* last := card_lastPosition toListId in
              tx_ret (positionBetween last None)
          | _, _ =>
              tx_ret (positionBetween (card_position <$> beforeNeighbor)
                        (card_position <$> afterNeighbor))
          end in
        let* updated :=
          card_update (card_id card)
            (mkCardUpdate (Some toListId) (Some nextPos) None None None)
            (now env) in
        event_create
          (mkActivity env 0 actor (card_boardId card) CARD (card_id card)
             card_moved
             (mkData (Some before)
                (Some (snapMove (card_listId updated) (card_position updated)))
                None)) ;;
        touchBoard env (card_boardId card) ;;
        tx_ret (Moved updated)
  end.

Definition moveCard (env : Env) (actor : Actor) (cardId toListId : Id)
    (beforeCardId afterCardId : option Id) (db : Db) : Response * Db :=
  if negb (MoveCardSchema toListId beforeCardId afterCardId)
  then (invalidBody, db)
  else
    match transaction
            (moveCard_tx env actor cardId toListId beforeCardId afterCardId) db
    with
    | (Some MoveNotFound, db') => (jsonError "Card not found" 404, db')
    | (Some MoveInvalidNeighbors, db') =>
        (jsonError "beforeCardId/afterCardId must be in the destination list"
           409, db')
    | (Some (Moved card), db') => (jsonOk (CardBody card) 200, db')
    | (None, db') => (uncaught, db')
    end.

(** *** src/app/api/boards/[boardId]/activity/clear/route.ts, POST *)

Definition clearActivity_tx (env : Env) (actor : Actor) (boardId : Id)
    : Tx (option ActivityEvent) :=
  let* board := board_findUnique boardId in
  match board with
  | None => tx_ret None
  | Some _ =>
      let* evt := event_create
                    (mkActivity env 0 actor boardId BOARD boardId
                       activity_cleared (mkData None None None)) in
      touchBoard env boardId ;;
      tx_ret (Some evt)
  end.

Definition clearActivity (env : Env) (actor : Actor) (boardId : Id) (db : Db)
    : Response * Db :=
  match transaction (clearActivity_tx env actor boardId) db with
  | (Some None, db') => (jsonError "Board not found" 404, db')
  | (Some (Some evt), db') =>
      (jsonOk (Cleared (ev_id evt) (ev_createdAt evt)) 200, db')
  | (None, db') => (uncaught, db')
  end.

End Routes.
(** ** The activity query

    GET boards/[boardId]/activity, the revision that filters by the
    actor's clear marker (second document of
    src/app/api/boards/[boardId]/lists/route.ts).  The earlier revision in
    src/unnamed/part_009 is the same query without the marker filter. *)

Module Activity.
Import Store Routes.

(** *** [parseInt(text, 10)]

    The text is the value of the [limit] query parameter.  Leading white
    space is skipped, one sign is read, then the longest run of decimal
    digits; no digit gives [NaN], which is [None].  The integer is kept
    exact: the rounding of a JavaScript number only matters beyond 2^53,
    far outside the interval the result is clamped to.  The white space
    [parseInt] skips, among the code units below 256: the white space 9,
    11, 12, 32, 160 and the line terminators 10, 13. *)

Definition isWhiteSpace (c : ascii) : bool :=
  let n := nat_of_ascii c in
  bool_decide (n = 32 \/ 9 <= n <= 13 \/ n = 160)%nat.

Definition digitOf (c : ascii) : option Z :=
  let n := nat_of_ascii c in
  if bool_decide (48 <= n <= 57)%nat then Some (Z.of_nat n - 48) else None.

Fixpoint skipWhiteSpace (s : string) : string :=
  match s with
  | String c s' => if isWhiteSpace c then skipWhiteSpace s' else s
  | EmptyString => s
  end.

(** The digits read so far have value [acc]; [seen] tells whether there was
    one. *)
Fixpoint readDigits (s : string) (seen : bool) (acc : Z) : option Z :=
  match s with
  | String c s' =>
      match digitOf c with
      | Some d => readDigits s' true (10 * acc + d)
      | None => if seen then Some acc else None
      end
  | EmptyString => if seen then Some acc else None
  end.

Definition parseInt (text : string) : option Z :=
  match skipWhiteSpace text with
  | String "-"%char s' => Z.opp <$> readDigits s' false 0
  | String "+"%char s' => readDigits s' false 0
  | s => readDigits s false 0
  end.

(** [Math.min(Math.max(parseInt(limitRaw, 10) || 50, 1), 200)] with
    [limitRaw = url.searchParams.get("limit") ?? "50"].  [NaN] and [0] are
    the falsy numbers. *)
Definition limitOf (limit : option string) : Z :=
  let limitRaw := default "50" limit in
  let parsed :=
    match parseInt limitRaw with
    | Some n => if n =? 0 then 50 else n
    | None => 50
    end in
  Z.min (Z.max parsed 1) 200.

(** *** The two queries *)

(** [orderBy: { createdAt: "desc" }].  The database leaves the order of
    rows with equal [createdAt] open; here it is the one of the sort. *)
Definition newerOrEqual (e1 e2 : ActivityEvent) : Prop :=
  ev_createdAt e2 <= ev_createdAt e1.

#[global] Instance newerOrEqual_dec e1 e2 : Decision (newerOrEqual e1 e2).
Proof. unfold newerOrEqual. apply _. Defined.

Definition newestFirst (evs : list ActivityEvent) : list ActivityEvent :=
  merge_sort newerOrEqual evs.

(** [where: { boardId, type: "activity.cleared", actorClientId }] *)
Definition isClearMarker (boardId : Id) (clientId : string)
    (e : ActivityEvent) : Prop :=
  ev_boardId e = boardId /\ ev_type e = activity_cleared
  /\ ev_actorClientId e = clientId.

#[global] Instance isClearMarker_dec b c e : Decision (isClearMarker b c e).
Proof. unfold isClearMarker. apply _. Defined.

(** [activityEvent.findFirst({ where, orderBy: { createdAt: "desc" },
    select: { createdAt: true } })], as [clearedAt?.createdAt]. *)
Definition clearedAt (actor : Actor) (boardId : Id) (db : Db) : option Date :=
  ev_createdAt <$>
    head (newestFirst
            (filter (isClearMarker boardId (actorClientId actor)) (events db))).

(** [where: { boardId, ...(clearedAt ? { createdAt: { gt: ... } } : {}) }] *)
Definition visible (boardId : Id) (cutoff : option Date) (e : ActivityEvent)
    : Prop :=
  ev_boardId e = boardId
  /\ match cutoff with
     | Some t => t < ev_createdAt e
     | None => True
     end.

#[global] Instance visible_dec b c e : Decision (visible b c e).
Proof. unfold visible. destruct c; apply _. Defined.

(** [activityEvent.findMany({ where, orderBy: { createdAt: "desc" },
    take: limit })] *)
Definition activityEvents (actor : Actor) (boardId : Id)
    (limit : option string) (db : Db) : list ActivityEvent :=
  take (Z.to_nat (limitOf limit))
    (newestFirst (filter (visible boardId (clearedAt actor boardId db))
                    (events db))).

Definition getActivity (actor : Actor) (boardId : Id) (limit : option string)
    (db : Db) : Response :=
  jsonOk (EventsBody (activityEvents actor boardId limit db)) 200.

End Activity.

(** ** The undo route

    POST activity/[eventId]/undo, the revision with the idempotency check
    and the restore of deleted cards (first document of
    src/unnamed/part_007).  src/unnamed/part_006 is an earlier revision of
    the same handler, without either. *)

Module Undo.
Import Store Routes.

(** [type CardState] *)
Record CardState := mkCardState {
  cs_id : Id;
  cs_boardId : Id;
  cs_listId : Id;
  cs_title : option string;
  cs_description : option string;
  cs_dueAt : option (option Date);
  cs_position : option float }.

(** [type CardPatch] *)
Record CardPatch := mkCardPatch {
  cp_listId : option Id;
  cp_title : option string;
  cp_description : option string;
  cp_dueAt : option (option Date);
  cp_position : option float }.

(** [(v.dueAt as ...) ?? undefined]: [null] becomes [undefined]. *)
Definition coalesceDueAt (dueAt : option (option Date)) : option (option Date) :=
  match dueAt with
  | Some (Some d) => Some (Some d)
  | Some None => None
  | None => None
  end.

Definition asCardState (value : option Snapshot) : option CardState :=
  match value with
  | None => None
  | Some v =>
      match s_id v, s_boardId v, s_listId v with
      | Some id, Some boardId, Some listId =>
          Some (mkCardState id boardId listId (s_title v) (s_description v)
                  (coalesceDueAt (s_dueAt v)) (s_position v))
      | _, _, _ => None
      end
  end.

Definition asCardPatch (value : option Snapshot) : option CardPatch :=
  match value with
  | None => None
  | Some v =>
      let patch := mkCardPatch (s_listId v) (s_title v) (s_description v)
                     (coalesceDueAt (s_dueAt v)) (s_position v) in
      match cp_listId patch, cp_title patch, cp_description patch,
            cp_dueAt patch, cp_position patch with
      | None, None, None, None, None => None
      | _, _, _, _, _ => Some patch
      end
  end.

(** [beforeState satisfies CardPatch]: a card state read as a patch. *)
Definition patchOfState (st : CardState) : CardPatch :=
  mkCardPatch (Some (cs_listId st)) (cs_title st) (cs_description st)
    (cs_dueAt st) (cs_position st).

(** The [updateData] built from [beforePatch].  [if (beforePatch.listId)]
    is a truthiness test: the empty string does not pass. *)
Definition updateDataOf (beforePatch : CardPatch) : CardUpdate :=
  mkCardUpdate
    (match cp_listId beforePatch with
     | Some l => if bool_decide (l = "") then None else Some l
     | None => None
     end)
    (cp_position beforePatch)
    (cp_title beforePatch)
    (cp_description beforePatch)
    (cp_dueAt beforePatch).

(** The value of the transaction body. *)
Inductive UndoResult :=
  | notFound
  | alreadyUndone
  | unsupported (reason : string)
  | invalidData
  | undoneDeleted (cardId : Id)
  | undoneReverted (card : CardRow)
  | undoneRestored (card : CardRow).

(** [where: { boardId, type: "card.undone", data: { path:
    ["revertedEventId"], equals: event.id } }] *)
Definition revertsEvent (event : ActivityEvent) (u : ActivityEvent) : Prop :=
  ev_boardId u = ev_boardId event /\ ev_type u = card_undone
  /\ d_revertedEventId (ev_data u) = Some (ev_id event).

#[global] Instance revertsEvent_dec e u : Decision (revertsEvent e u).
Proof. unfold revertsEvent. apply _. Defined.

Definition findUndoOf (event : ActivityEvent) : Tx (option ActivityEvent) :=
  tx_read (fun db => find (fun u => bool_decide (revertsEvent event u)) (events db)).

Definition undoneEvent (env : Env) (actor : Actor) (event : ActivityEvent)
    (before after : option Snapshot) : ActivityEvent :=
  mkActivity env 0 actor (ev_boardId event) CARD (ev_entityId event)
    card_undone (mkData before after (Some (ev_id event))).

Definition undo_tx (env : Env) (actor : Actor) (eventId : Id) : Tx UndoResult :=
  let* event := event_findUnique eventId in
  match event with
  | None => tx_ret notFound
  | Some event =>
      (* Idempotency: if this event was already undone, treat as a no-op. *)
      let* already := findUndoOf event in
      if already is Some _ then tx_ret alreadyUndone
      else if bool_decide (ev_entityType event <> CARD) then
        tx_ret (unsupported "Only card events can be undone right now")
      else
        let record := ev_data event in
        let beforeState := asCardState (d_before record) in
        let beforePatch :=
          match beforeState with
          | Some st => Some (patchOfState st)
          | None => asCardPatch (d_before record)
          end in
        match ev_type event with
        | card_created =>
            (* Undo create = delete the card. *)
            let* existing := card_findUnique (ev_entityId event) in
            match existing with
            | None => tx_ret notFound
            | Some existing =>
                card_delete (ev_entityId event) ;;
                event_create
                  (undoneEvent env actor event (Some (snapCard existing)) None) ;;
                touchBoard env (ev_boardId event) ;;
                tx_ret (undoneDeleted (ev_entityId event))
            end
        | card_moved | card_updated =>
            match beforePatch with
            | None => tx_ret invalidData
            | Some beforePatch =>
                let* current := card_findUnique (ev_entityId event) in
                match current with
                | None => tx_ret notFound
                | Some current =>
                    let* updated :=
                      card_update (ev_entityId event) (updateDataOf beforePatch)
                        (now env) in
                    event_create
                      (undoneEvent env actor event (Some (snapCard current))
                         (Some (snapCard updated))) ;;
                    touchBoard env (ev_boardId event) ;;
                    tx_ret (undoneReverted updated)
                end
            end
        | card_deleted =>
            (* Undo delete = recreate the card from the logged before
               snapshot. *)
            match beforeState with
            | None => tx_ret invalidData
            | Some beforeState =>
                let* list := list_findUnique (cs_listId beforeState) in
                if (if list is Some l
                    then bool_decide (list_boardId l <> cs_boardId beforeState)
                    else true)
                then tx_ret (unsupported
                               "Cannot restore: original list no longer exists")
                else
                  let* existing := card_findUnique (cs_id beforeState) in
                  if existing is Some _ then tx_ret alreadyUndone
                  else
                    let* created :=
                      card_create (cs_id beforeState) (cs_boardId beforeState)
                        (cs_listId beforeState)
                        (default "Untitled" (cs_title beforeState))
                        (default "" (cs_description beforeState))
                        (match cs_dueAt beforeState with
                         | None => None
                         | Some None => None
                         | Some (Some d) => Some d
                         end)
                        (default 0%float (cs_position beforeState))
                        (now env) in
                    event_create
                      (undoneEvent env actor event None (Some (snapCard created))) ;;
                    touchBoard env (ev_boardId event) ;;
                    tx_ret (undoneRestored created)
            end
        | _ =>
            tx_ret (unsupported ("Undo not implemented for event type: "
                                 +:+ typeName (ev_type event)))
        end
  end.

Definition undo (env : Env) (actor : Actor) (eventId : Id) (db : Db)
    : Response * Db :=
  match transaction (undo_tx env actor eventId) db with
  | (Some notFound, db') => (jsonError "Event not found" 404, db')
  | (Some alreadyUndone, db') => (jsonOk UndoneNoop 200, db')
  | (Some invalidData, db') =>
      (jsonError "Event payload is missing before/after" 422, db')
  | (Some (unsupported reason), db') => (jsonError reason 409, db')
  | (Some (undoneDeleted cardId), db') => (jsonOk (UndoneDeleted cardId) 200, db')
  | (Some (undoneReverted card), db') => (jsonOk (UndoneReverted card) 200, db')
  | (Some (undoneRestored card), db') => (jsonOk (UndoneRestored card) 200, db')
  | (None, db') => (uncaught, db')
  end.

End Undo.
(** ** src/lib/realtime.ts

    (second document of src/unnamed/part_013) *)

Module Realtime.
Import Store.

Section Registry.

(** [payload?: unknown] *)
Context {Payload : Type}.

(** What the callbacks act on (the stream of a connection, say).  It does
    not contain the registry: a callback that subscribes or unsubscribes
    while an event is being delivered is outside this model. *)
Context {World : Type}.

Record BoardEvent := mkBoardEvent {
  be_boardId : string;
  be_type : string;
  be_at : Date;
  be_payload : option Payload }.

(** How a statement ends. *)
Inductive Completion := Returns | Throws.

(** A statement: it changes the world and returns or throws. *)
Definition Stmt : Type := World -> Completion * World.

(** [type Subscriber = (event: BoardEvent) => void].  A JavaScript function
    is compared by reference; [sub_ref] stands for the reference. *)
Record Subscriber := mkSubscriber {
  sub_ref : nat;
  sub_call : BoardEvent -> Stmt }.

(** [Set<Subscriber>]: no reference twice, iterated in insertion order. *)
Definition SubscriberSet : Type := list Subscriber.

Definition set_has (cb : Subscriber) (set : SubscriberSet) : bool :=
  bool_decide (sub_ref cb ∈ sub_ref <$> set).

Definition set_add (cb : Subscriber) (set : SubscriberSet) : SubscriberSet :=
  if set_has cb set then set else set ++ [cb].

Definition set_delete (cb : Subscriber) (set : SubscriberSet) : SubscriberSet :=
  filter (fun s => sub_ref s <> sub_ref cb) set.

(** [globalThis.__kanbyRealtime]: undefined, or the record holding
    [subscribersByBoard]. *)
Definition Global : Type := option (gmap string SubscriberSet).

(** [store()]: creates the record when it is missing. *)
Definition store (g : Global) : gmap string SubscriberSet * Global :=
  match g with
  | Some s => (s, Some s)
  | None => (∅, Some ∅)
  end.

(** The entries of the registry. *)
Definition subscribersByBoard (g : Global) : gmap string SubscriberSet :=
  default ∅ g.

Definition subscribeToBoard (boardId : string) (cb : Subscriber) (g : Global)
    : Global :=
  let '(s, _) := store g in
  let set := default [] (s !! boardId) in
  Some (<[boardId := set_add cb set]> s).

(** The function [subscribeToBoard] returns. *)
Definition unsubscribe (boardId : string) (cb : Subscriber) (g : Global)
    : Global :=
  let '(s, _) := store g in
  match s !! boardId with
  | None => Some s
  | Some current =>
      let current := set_delete cb current in
      if bool_decide (length current = 0%nat) then Some (delete boardId s)
      else Some (<[boardId := current]> s)
  end.

(** [try { body } catch { /* ignore subscriber errors */ }] *)
Definition tryCatchIgnore (body : Stmt) : Stmt :=
  fun w =>
    match body w with
    | (Returns, w') => (Returns, w')
    | (Throws, w') => (Returns, w')
    end.

(** [for (const x of xs) body(x)]: a throwing body ends the loop and the
    exception leaves it. *)
Fixpoint forOf {X} (xs : list X) (body : X -> Stmt) : Stmt :=
  fun w =>
    match xs with
    | [] => (Returns, w)
    | x :: xs' =>
        match body x w with
        | (Returns, w') => forOf xs' body w'
        | (Throws, w') => (Throws, w')
        end
    end.

Definition publishBoardEvent (boardId type : string)
    (payload : option Payload) (now : Date) (g : Global) (w : World)
    : Completion * Global * World :=
  let '(s, g') := store g in
  match s !! boardId with
  | None => (Returns, g', w)
  | Some subs =>
      if bool_decide (length subs = 0%nat) then (Returns, g', w)
      else
        let event := mkBoardEvent boardId type now payload in
        let '(c, w') :=
          forOf subs (fun cb => tryCatchIgnore (sub_call cb event)) w in
        (c, g', w')
  end.

(** The world after calling every callback of [subs] in turn, whatever
    each of them does. *)
Definition afterAllCalls (event : BoardEvent) (subs : SubscriberSet)
    (w : World) : World :=
  foldl (fun w cb => (sub_call cb event w).2) w subs.

End Registry.

Arguments BoardEvent : clear implicits.
Arguments Subscriber : clear implicits.
Arguments SubscriberSet : clear implicits.
Arguments Global : clear implicits.
Arguments Stmt : clear implicits.

End Realtime.

(** ** The requests that change the database, as one transition system *)

Module System.
Import Store Routes.

Inductive Request :=
  | CreateBoard (name : option string)
  | RenameBoard (boardId : Id) (name : string)
  | DeleteBoard (boardId : Id)
  | CreateList (boardId : Id) (title : string)
  | RenameList (boardId listId : Id) (title : option string)
  | DeleteList (boardId listId : Id)
  | CreateCard (boardId listId : Id) (title : string)
      (description : option string) (dueAt : option Date)
  | UpdateCard (cardId : Id) (title description : option string)
      (dueAt : option (option Date))
  | MoveCard (cardId toListId : Id) (beforeCardId afterCardId : option Id)
  | DeleteCard (cardId : Id)
  | ClearActivity (boardId : Id)
  | UndoEvent (eventId : Id).

Definition step (env : Env) (actor : Actor) (req : Request) (db : Db)
    : Response * Db :=
  match req with
  | CreateBoard name => createBoard env actor name db
  | RenameBoard boardId name => renameBoard env actor boardId name db
  | DeleteBoard boardId => deleteBoard env actor boardId db
  | CreateList boardId title => createList env actor boardId title db
  | RenameList boardId listId title => renameList env actor boardId listId title db
  | DeleteList boardId listId => deleteList env actor boardId listId db
  | CreateCard boardId listId title description dueAt =>
      createCard env actor boardId listId title description dueAt db
  | UpdateCard cardId title description dueAt =>
      updateCard env actor cardId title description dueAt db
  | MoveCard cardId toListId beforeCardId afterCardId =>
      moveCard env actor cardId toListId beforeCardId afterCardId db
  | DeleteCard cardId => deleteCard env actor cardId db
  | ClearActivity boardId => clearActivity env actor boardId db
  | UndoEvent eventId => Undo.undo env actor eventId db
  end.

(** The databases the routes can produce from the empty one. *)
Inductive reachable : Db -> Prop :=
  | reachable_empty : reachable emptyDb
  | reachable_step env actor req db :
      reachable db -> reachable (step env actor req db).2.

(** A success response. *)
Definition isOk (r : Response) : bool :=
  match r with
  | jsonOk _ _ => true
  | jsonError _ _ => false
  end.

End System.
(** ** The framing of the event stream

    [sse], the helper of GET boards/[boardId]/events (second document of
    src/unnamed/part_007). *)

Module Sse.

(** The line feed, the separator of [split] and [join]. *)
Definition LF : ascii := "010"%char.

(** [data.split(LF)]: the pieces between the line feeds; the empty text is
    one empty piece. *)
Fixpoint split (data : string) : list string :=
  match data with
  | EmptyString => [EmptyString]
  | String c rest =>
      if bool_decide (c = LF) then EmptyString :: split rest
      else
        match split rest with
        | line :: lines => String c line :: lines
        | [] => [String c EmptyString]
        end
  end.

(** [lines.join(LF)] *)
Fixpoint join (lines : list string) : string :=
  match lines with
  | [] => EmptyString
  | line :: rest =>
      match rest with
      | [] => line
      | _ :: _ => line +:+ String LF (join rest)
      end
  end.

(** [lines.push(line)] *)
Definition push (lines : list string) (line : string) : list string :=
  lines ++ [line].

(** [if (event)]: [undefined] and the empty text do not pass. *)
Definition sse (data : string) (event : option string) : string :=
  let lines := [] in
  let lines :=
    match event with
    | Some (String _ _ as event) => push lines ("event: " +:+ event)
    | _ => lines
    end in
  let lines :=
    foldl (fun lines line => push lines ("data: " +:+ line)) lines
      (split data) in
  let lines := push lines "" in
  join lines.

End Sse.

(** ** Who acts

    [getActor] of src/lib/actor.ts on the server, and the helpers of the
    browser that name the actor in every request (first document of
    src/unnamed/part_013).  The value of a header holds code units below
    256 only. *)

Module Identity.
Import Store Text.

(** The headers [getActor] reads; [None] is a header that was not sent. *)
Record ActorHeaders := mkActorHeaders {
  x_actor_name : option string;
  x_actor_user_id : option string;
  x_client_id : option string }.

(** [s.slice(0, n)] *)
Definition slice0 (n : nat) (s : string) : string := substring 0 n s.

(** A text in a condition: the empty text does not pass, nor does [null]. *)
Definition truthy (s : option string) : bool :=
  match s with
  | Some (String _ _) => true
  | _ => false
  end.

(** [getActor(req)].  [nanoid] is the id that [nanoid()] returns when it is
    called.  The second component is [setClientIdHeader]. *)
Definition getActor (req : ActorHeaders) (nanoid : Id)
    : Actor * option string :=
  let actorName := slice0 80 (default "Anonymous" (x_actor_name req)) in
  let actorUserId := x_actor_user_id req in
  let headerClientId := x_client_id req in
  match headerClientId with
  | Some id =>
      if truthy headerClientId && bool_decide (0 < String.length (trim id))%nat
      then (mkActor actorUserId actorName id, None)
      else (mkActor actorUserId actorName nanoid, Some nanoid)
  | None => (mkActor actorUserId actorName nanoid, Some nanoid)
  end.

(** *** The browser side *)

Definition CLIENT_ID_KEY : string := "kanby.clientId".
Definition ACTOR_NAME_KEY : string := "kanby.actorName".

(** [window]: undefined ([None]) when the code runs on the server, or the
    entries of its [localStorage]. *)
Definition Window : Type := option (gmap string string).

Definition getActorName (window : Window) : string :=
  match window with
  | None => "David"
  | Some localStorage =>
      slice0 80 (default "David" (localStorage !! ACTOR_NAME_KEY))
  end.

Definition setActorName (name : string) (window : Window) : Window :=
  match window with
  | None => None
  | Some localStorage => Some (<[ACTOR_NAME_KEY := slice0 80 name]> localStorage)
  end.

Definition getClientId (window : Window) : option string :=
  match window with
  | None => None
  | Some localStorage => localStorage !! CLIENT_ID_KEY
  end.

Definition setClientId (id : string) (window : Window) : Window :=
  match window with
  | None => None
  | Some localStorage => Some (<[CLIENT_ID_KEY := id]> localStorage)
  end.

(** What [apiFetch] uses of the response: whether it is [ok], the
    [x-client-id] header and the body. *)
Record FetchResponse (T : Type) := mkFetchResponse {
  res_ok : bool;
  res_x_client_id : option string;
  res_body : T }.

Arguments mkFetchResponse {T}.
Arguments res_ok {T}.
Arguments res_x_client_id {T}.
Arguments res_body {T}.

(** *** [Headers.prototype.set]

    The method of the platform, as the Fetch standard defines it.  The
    value is normalized: leading and trailing HTTP white space (tab, line
    feed, carriage return, space) is removed.  A normalized value that
    holds a NUL, a line feed or a carriage return is not a header value,
    and [set] throws a TypeError: [headerValue] is [None] then.  The texts
    here hold code units below 256 only, so the conversion of the value to
    a byte string, which throws for any other code unit, passes. *)

Definition isHttpWhitespace (c : ascii) : bool :=
  let n := nat_of_ascii c in
  bool_decide (n = 9 \/ n = 10 \/ n = 13 \/ n = 32)%nat.

Fixpoint stripStart (s : string) : string :=
  match s with
  | String c rest => if isHttpWhitespace c then stripStart rest else s
  | EmptyString => s
  end.

Definition normalize (value : string) : string :=
  String.rev (stripStart (String.rev (stripStart value))).

Definition isForbidden (c : ascii) : bool :=
  let n := nat_of_ascii c in
  bool_decide (n = 0 \/ n = 10 \/ n = 13)%nat.

Definition headerValue (value : string) : option string :=
  let value := normalize value in
  if existsb isForbidden (chars value) then None else Some value.

(** [apiFetch(input, init)], with [fetch] applied to the headers of the
    request; [init] stands for [new Headers(init?.headers)].  The result
    is the body ([inl]) or a thrown error ([inr], its message left out):
    the TypeError of a [headers.set], before anything is sent, or the
    error for a response that is not [ok].  The [content-type] header,
    which does not name the actor, is left out. *)
Definition apiFetch {T} (fetch : ActorHeaders -> FetchResponse T)
    (init : ActorHeaders) (window : Window) : (T + unit) * Window :=
  let headers := init in
  let clientId := getClientId window in
  let headers :=
    match clientId with
    | Some (String _ _ as id) =>
        match headerValue id with
        | Some value =>
            Some (mkActorHeaders (x_actor_name headers)
                    (x_actor_user_id headers) (Some value))
        | None => None
        end
    | _ => Some headers
    end in
  let headers :=
    match headers with
    | Some headers =>
        match headerValue (getActorName window) with
        | Some value =>
            Some (mkActorHeaders (Some value) (x_actor_user_id headers)
                    (x_client_id headers))
        | None => None
        end
    | None => None
    end in
  match headers with
  | None => (inr tt, window)
  | Some headers =>
      let res := fetch headers in
      let echoedClientId := res_x_client_id res in
      let window :=
        match echoedClientId with
        | Some echoed =>
            if truthy echoedClientId && negb (truthy clientId)
            then setClientId echoed window
            else window
        | None => window
        end in
      if negb (res_ok res) then (inr tt, window)
      else (inl (res_body res), window)
  end.

(** A route that went through, as [fetch] sees it: the end of POST boards
    (src/app/api/boards/route.ts), [const res = jsonOk(...); if
    (actor.setClientIdHeader) res.headers.set("x-client-id", ...)], which
    is the end of every route that logs.  The body stands for the actor
    the handler worked with.  When [set] throws, the exception leaves the
    handler and the response is not [ok]. *)
Definition served (nanoid : Id) (req : ActorHeaders) : FetchResponse Actor :=
  let '(actor, setClientIdHeader) := getActor req nanoid in
  match setClientIdHeader with
  | Some (String _ _ as id) =>
      match headerValue id with
      | Some value => mkFetchResponse true (Some value) actor
      | None => mkFetchResponse false None actor
      end
  | _ => mkFetchResponse true None actor
  end.

End Identity.

(** ** The undo buttons of the activity panel

    src/components/board/ActivityPanel.tsx.  The panel shows the events
    the activity route returned; the [type] of an event is the text
    [typeName] gives. *)

Module Panel.
Import Store.

Definition canUndo (type : string) : bool :=
  bool_decide (type = "card.created") || bool_decide (type = "card.updated")
  || bool_decide (type = "card.moved") || bool_decide (type = "card.deleted").

(** [data] is the object of the event; [revertedEventId] is a text where
    it is present. *)
Definition getRevertedEventId (data : EventData) : option string :=
  d_revertedEventId data.

(** [if (reverted) ids.add(reverted)]: the empty text is not added. *)
Definition undoneIds (events : list ActivityEvent) : gset string :=
  foldl
    (fun ids evt =>
       if bool_decide (typeName (ev_type evt) <> "card.undone") then ids
       else
         match getRevertedEventId (ev_data evt) with
         | Some (String _ _ as reverted) => {[reverted]} ∪ ids
         | _ => ids
         end)
    ∅ events.

(** What a row shows at its right: nothing, or a button. *)
Inductive UndoButton :=
  | noButton
  | button (disabled : bool) (label : string).

Definition undoButton (undoingId : option Id) (events : list ActivityEvent)
    (evt : ActivityEvent) : UndoButton :=
  let isUndone := bool_decide (ev_id evt ∈ undoneIds events) in
  if canUndo (typeName (ev_type evt)) then
    button (bool_decide (undoingId = Some (ev_id evt)) || isUndone)
      (if isUndone then "Undone" else "Undo")
  else noButton.

End Panel.
(** ** Predicates used by the statements *)

Module Spec.
Import Store Routes Undo System.

(** The card the undo of a deletion creates from the state [st] it read
    in the [before] snapshot, at time [now]. *)
Definition restoredCard (st : CardState) (now : Date) : CardRow :=
  mkCard (cs_id st) (cs_boardId st) (cs_listId st)
    (default "Untitled" (cs_title st)) (default "" (cs_description st))
    (mjoin (cs_dueAt st)) (default 0%float (cs_position st)) now now.

(** [beforePatch], as the undo route computes it from [record?.before]. *)
Definition beforePatchOf (before : option Snapshot) : option CardPatch :=
  match asCardState before with
  | Some st => Some (patchOfState st)
  | None => asCardPatch before
  end.

(** What holds after a statement, when it does not throw. *)
Definition tx_post {A} (m : Tx A) (db : Db) (Q : A -> Db -> Prop) : Prop :=
  forall a db', m db = Some (a, db') -> Q a db'.

(** A statement keeps [I], when it does not throw. *)
Definition tx_preserves {A} (I : Db -> Prop) (m : Tx A) : Prop :=
  forall db a db', I db -> m db = Some (a, db') -> I db'.

(** Every reference of a row names a row: the board of an event, the
    board of a list, the board and the list of a card. *)
Definition FkInv (db : Db) : Prop :=
  (forall e, e ∈ events db -> is_Some (findById (ev_boardId e) (boards db)))
  /\ (forall l, l ∈ lists db ->
        is_Some (findById (list_boardId l) (boards db)))
  /\ (forall c, c ∈ cards db ->
        is_Some (findById (card_boardId c) (boards db))
        /\ is_Some (findById (card_listId c) (lists db))).

(** No two events of the log share an id. *)
Definition idsUnique (evs : list ActivityEvent) : Prop :=
  NoDup (ev_id <$> evs).

(** A [card.undone] event names an event of the log, and that event is on
    the same board. *)
Definition undoLinked (evs : list ActivityEvent) : Prop :=
  forall u r,
    u ∈ evs -> ev_type u = card_undone ->
    d_revertedEventId (ev_data u) = Some r ->
    exists e, e ∈ evs /\ ev_id e = r /\ ev_boardId e = ev_boardId u.

Definition LogInv (db : Db) : Prop :=
  idsUnique (events db) /\ undoLinked (events db).

(** [e] is an event a request of [actor] in [env] may append to the log of
    [db]: its id is not in use, it is stamped with the time and the actor
    of the request, and when it is a [card.undone] it names an event of
    the log of [db] on its own board. *)
Definition Appended (env : Env) (actor : Actor) (db : Db) (e : ActivityEvent)
    : Prop :=
  findById (ev_id e) (events db) = None
  /\ ev_createdAt e = now env
  /\ ev_actorClientId e = actorClientId actor
  /\ (ev_type e = card_undone ->
      exists t, t ∈ events db
                /\ d_revertedEventId (ev_data e) = Some (ev_id t)
                /\ ev_boardId e = ev_boardId t).

(** A neighbor id of a move that is absent, or is an id (a text of at
    least one character, as the schema asks) that names no card. *)
Definition unresolvable (db : Db) (neighbor : option Id) : Prop :=
  forall id, neighbor = Some id -> id <> "" /\ findById id (cards db) = None.

(** The response of an undo that changed nothing because the event was
    already undone. *)
Definition isNoop (r : Response) : Prop := r = jsonOk UndoneNoop 200.

(** The effect of a request that logs at most one event: nothing at all
    (with an error or with the no-op of an undo), or a success that
    appends exactly one event. *)
Definition OneEvent (env : Env) (actor : Actor) (db : Db) (resp : Response)
    (db' : Db) : Prop :=
  (db' = db /\ (isOk resp = false \/ isNoop resp))
  \/ (isOk resp = true /\ ~ isNoop resp
      /\ exists e, events db' = events db ++ [e] /\ Appended env actor db e).

(** The effect of board creation: nothing with an error, or a success
    that appends four events, [board.created] and three [list.created],
    all on the new board and each with an id that is not in use. *)
Definition FourEvents (env : Env) (db : Db) (resp : Response) (db' : Db)
    : Prop :=
  (db' = db /\ isOk resp = false)
  \/ (isOk resp = true
      /\ exists e0 e1 e2 e3,
           events db' = events db ++ [e0; e1; e2; e3]
           /\ ev_type e0 = board_created /\ ev_type e1 = list_created
           /\ ev_type e2 = list_created /\ ev_type e3 = list_created
           /\ findById (ev_id e0) (events db) = None
           /\ findById (ev_id e1) (events db ++ [e0]) = None
           /\ findById (ev_id e2) (events db ++ [e0; e1]) = None
           /\ findById (ev_id e3) (events db ++ [e0; e1; e2]) = None
           /\ Forall (fun e => ev_createdAt e = now env
                               /\ ev_boardId e = newId env 0)
                [e0; e1; e2; e3]).

(** The effect of board deletion: nothing with an error, or a success
    that appends no event and removes the events of the board. *)
Definition NoEvent (boardId : Id) (db : Db) (resp : Response) (db' : Db)
    : Prop :=
  (db' = db /\ isOk resp = false)
  \/ (isOk resp = true /\ db' = withoutBoard boardId db).

End Spec.
(** ** A board to run the routes on

    The scenario of the specification: create the board "Sprint", create
    the card "Fix bug" in Todo, move it to Doing, delete it, undo the
    deletion. *)

Module Examples.
Import Store Routes Undo System.

(** A request at time [t]; the ids it generates are [prefix0],
    [prefix1], ... *)
Definition envAt (t : Date) (prefix : string) : Env :=
  mkEnv t (fun k => prefix +:+ pretty k).

Definition alice : Actor := mkActor None "Alice" "client-a".
Definition bob : Actor := mkActor None "Bob" "client-b".

(** Board [a0] with the lists [a1] (Todo), [a2] (Doing), [a3] (Done);
    events [a4] to [a7]. *)
Definition sprint : Db :=
  (step (envAt 10 "a") alice (CreateBoard (Some "Sprint")) emptyDb).2.

(** Card [b0] in Todo; event [b1]. *)
Definition withCard : Db :=
  (step (envAt 20 "b") alice (CreateCard "a0" "a1" "Fix bug" None None)
     sprint).2.

(** The card moved to Doing, with no neighbors; event [c0]. *)
Definition moved : Db :=
  (step (envAt 30 "c") alice (MoveCard "b0" "a2" None None) withCard).2.

(** The card deleted; event [d0]. *)
Definition deleted : Db :=
  (step (envAt 40 "d") alice (DeleteCard "b0") moved).2.

(** The deletion undone; event [e0]. *)
Definition restored : Db :=
  (step (envAt 50 "e") alice (UndoEvent "d0") deleted).2.

(** The card retitled after the move (event [f0]), then the move undone
    (event [g0]). *)
Definition retitled : Db :=
  (step (envAt 60 "f") bob (UpdateCard "b0" (Some "Fix the bug") None None)
     moved).2.

Definition moveUndone : Db :=
  (step (envAt 70 "g") alice (UndoEvent "c0") retitled).2.

(** Alice clears her activity on the restored board; event [h0]. *)
Definition cleared : Db :=
  (step (envAt 80 "h") alice (ClearActivity "a0") restored).2.

(** Three connections on board [a0]; the world is the list of the
    references of the callbacks that ran.  The second callback throws
    after it ran. *)
Definition recorder (ref : nat) (completion : Realtime.Completion)
    : Realtime.Subscriber unit (list nat) :=
  Realtime.mkSubscriber ref (fun _ calls => (completion, calls ++ [ref])).

Definition threeSubscribers : Realtime.Global unit (list nat) :=
  Realtime.subscribeToBoard "a0" (recorder 3 Realtime.Returns)
    (Realtime.subscribeToBoard "a0" (recorder 2 Realtime.Throws)
       (Realtime.subscribeToBoard "a0" (recorder 1 Realtime.Returns) None)).

End Examples.
(** ** More boards to run the routes on *)

Module Scenes.
Import Store Routes Undo System Examples.

(** Bob's board [p0] "Personal", with the lists [p1], [p2], [p3], beside
    the board [a0] with the card "Fix bug" in Todo. *)
Definition twoBoards : Db :=
  (step (envAt 25 "p") bob (CreateBoard (Some "Personal")) withCard).2.

(** A second card, "Write docs" ([q0]), in Todo behind "Fix bug". *)
Definition twoCards : Db :=
  (step (envAt 26 "q") bob (CreateCard "a0" "a1" "Write docs" None (Some 900))
     withCard).2.

(** Bob retitles "Fix bug" and gives it a due date while it is in Todo
    (event [u0]); then Alice moves it to Doing (event [v0]). *)
Definition dated : Db :=
  (step (envAt 30 "u") bob
     (UpdateCard "b0" (Some "Fix the bug") None (Some (Some 500))) withCard).2.

Definition datedMoved : Db :=
  (step (envAt 35 "v") alice (MoveCard "b0" "a2" None None) dated).2.

(** Alice moves "Fix bug" to the list [p1] of the board Personal. *)
Definition strayed : Db :=
  (step (envAt 40 "m") alice (MoveCard "b0" "p1" None None) twoBoards).2.

End Scenes.
(** ** The shape of the subscriber registry *)

Module Registry.
Import Store Realtime.

Section Shape.
Context {Payload World : Type}.

(** No board is kept with an empty set of subscribers, and no set holds
    the same callback twice. *)
Definition wellFormed (g : Global Payload World) : Prop :=
  forall boardId set,
    subscribersByBoard g !! boardId = Some set ->
    set <> [] /\ NoDup (sub_ref <$> set).

(** The subscribers of a board, in the order they are called. *)
Definition subscribersOf (boardId : string) (g : Global Payload World)
    : SubscriberSet Payload World :=
  default [] (subscribersByBoard g !! boardId).

(** The registries the program can be in: undefined at the start, then
    changed by subscriptions, by the functions they return and by
    publications. *)
Inductive registryOf : Global Payload World -> Prop :=
  | registry_undefined : registryOf None
  | registry_subscribe boardId cb g :
      registryOf g -> registryOf (subscribeToBoard boardId cb g)
  | registry_unsubscribe boardId cb g :
      registryOf g -> registryOf (unsubscribe boardId cb g)
  | registry_publish boardId type payload now g (w : World) :
      registryOf g ->
      registryOf (publishBoardEvent boardId type payload now g w).1.2.

End Shape.

End Registry.
(** * Theorems *)

Section PositionFacts.
Import Position.

(** Two floats that [PrimFloat.eqb] tells apart are different values. *)
Lemma float_neq_of_eqb (x y : float) :
  (y =? y)%float = true -> (x =? y)%float = false -> x <> y.
Proof. intros Hy Hxy ->. rewrite Hy in Hxy. discriminate. Qed.

(** C4 (counterexample).  [positionBetween(1, 1.00005)] is not [1.0001]:
    the midpoint [1.000025] differs from both arguments, so the fallback
    is not taken and the midpoint is returned. *)
Lemma positionBetween_1_100005_not_fallback :
  positionBetween (Some 1%float) (Some 1.00005%float) <> 1.0001%float.
Proof. apply float_neq_of_eqb; vm_compute; reflexivity. Qed.

(** C4 (amended).  [positionBetween] returns [0] when both arguments are
    null, [next - 1] when only [prev] is null, [prev + 1] when only
    [next] is null, and otherwise the midpoint [(prev + next) / 2] unless
    the midpoint equals an endpoint, in which case it returns
    [prev + 0.0001]; concretely [positionBetween(1, 2) = 1.5],
    [positionBetween(null, 5) = 4], [positionBetween(7, null) = 8],
    [positionBetween(1, 1.00005)] is the midpoint [1.000025], and
    [positionBetween(1, 1) = 1.0001] is an input that takes the
    fallback. *)
Theorem positionBetween_cases :
  positionBetween None None = 0%float
  /\ (forall n, positionBetween None (Some n) = (n - 1)%float)
  /\ (forall p, positionBetween (Some p) None = (p + 1)%float)
  /\ (forall p n,
        let mid := ((p + n) / 2)%float in
        ((mid =? p)%float = false -> (mid =? n)%float = false ->
         positionBetween (Some p) (Some n) = mid)
        /\ ((mid =? p)%float = true \/ (mid =? n)%float = true ->
            positionBetween (Some p) (Some n) = (p + 0.0001)%float))
  /\ positionBetween (Some 1%float) (Some 2%float) = 1.5%float
  /\ positionBetween None (Some 5%float) = 4%float
  /\ positionBetween (Some 7%float) None = 8%float
  /\ positionBetween (Some 1%float) (Some 1.00005%float) = 1.000025%float
  /\ positionBetween (Some 1%float) (Some 1%float) = 1.0001%float.
Proof.
  repeat split; try reflexivity.
  - intros Hp Hn. unfold positionBetween. now rewrite Hp, Hn.
  - intros H. unfold positionBetween.
    destruct H as [-> | ->]; [reflexivity | now rewrite orb_true_r].
Qed.

(** Between 1 and 3 the midpoint 2 is returned; between 1 and its
    successor the midpoint rounds to an endpoint and the fallback is
    taken. *)
Lemma positionBetween_cases_witness :
  positionBetween (Some 1%float) (Some 3%float) = 2%float
  /\ positionBetween (Some 1%float) (Some (next_up 1%float))
     = (1 + 0.0001)%float.
Proof.
  destruct positionBetween_cases as (_ & _ & _ & Hboth & _).
  split.
  - apply (Hboth 1%float 3%float); vm_compute; reflexivity.
  - apply (Hboth 1%float (next_up 1%float)). left. vm_compute. reflexivity.
Defined.

End PositionFacts.
(** ** Tables *)

Section Tables.
Import Store.
Context {R : Type} `{HasId R}.

Lemma findById_Some id (t : list R) r :
  findById id t = Some r -> r ∈ t /\ rowId r = id.
Proof.
  unfold findById. intros Hf. apply find_some in Hf as [Hin Hid].
  apply bool_decide_eq_true in Hid. by rewrite list_elem_of_In.
Qed.

Lemma findById_None id (t : list R) :
  findById id t = None <-> id ∉ rowId <$> t.
Proof.
  unfold findById. split.
  - intros Hf (r & -> & Hr)%list_elem_of_fmap.
    apply list_elem_of_In in Hr.
    pose proof (find_none _ _ Hf r Hr) as Hn.
    by apply bool_decide_eq_false in Hn.
  - intros Hn. destruct (find _ t) as [r|] eqn:E; [|done].
    apply find_some in E as [Hin Hid]. apply bool_decide_eq_true in Hid.
    destruct Hn. apply list_elem_of_fmap. exists r.
    by rewrite list_elem_of_In.
Qed.

Lemma findById_elem_of (t : list R) r :
  r ∈ t -> is_Some (findById (rowId r) t).
Proof.
  intros Hr. destruct (findById (rowId r) t) eqn:E; [eauto|].
  apply findById_None in E. destruct E. apply list_elem_of_fmap. eauto.
Qed.

Lemma findById_app id (t1 t2 : list R) :
  findById id (t1 ++ t2)
  = match findById id t1 with
    | Some r => Some r
    | None => findById id t2
    end.
Proof.
  unfold findById. induction t1 as [|r t1 IH]; [done|]. simpl.
  by destruct (bool_decide (rowId r = id)).
Qed.

(** A row found by its id is the only row with that id when ids are not
    repeated. *)
Lemma findById_unique id (t : list R) r1 r2 :
  NoDup (rowId <$> t) -> r1 ∈ t -> r2 ∈ t ->
  rowId r1 = id -> rowId r2 = id -> r1 = r2.
Proof.
  intros Hnd H1 H2 E1 E2.
  apply list_elem_of_lookup in H1 as [i Hi], H2 as [j Hj].
  assert (i = j) as ->; [|congruence].
  eapply NoDup_lookup;
    [ exact Hnd
    | rewrite list_lookup_fmap, Hi; reflexivity
    | rewrite list_lookup_fmap, Hj; simpl; congruence ].
Qed.

Lemma findById_update id id' (f : R -> R) (t : list R) :
  (forall r, rowId (f r) = rowId r) ->
  findById id (updateById id' f t)
  = if bool_decide (id = id') then f <$> findById id t else findById id t.
Proof.
  intros Hf. unfold findById, updateById.
  induction t as [|r t IH]; [by case_bool_decide|].
  rewrite fmap_cons. cbn [find]. rewrite IH. clear IH.
  destruct (bool_decide (rowId r = id')) eqn:E1.
  - rewrite Hf. apply bool_decide_eq_true in E1.
    destruct (bool_decide (rowId r = id)) eqn:E2; [|done].
    apply bool_decide_eq_true in E2.
    rewrite bool_decide_eq_true_2 by congruence. done.
  - apply bool_decide_eq_false in E1.
    destruct (bool_decide (rowId r = id)) eqn:E2; [|done].
    apply bool_decide_eq_true in E2.
    rewrite bool_decide_eq_false_2 by congruence. done.
Qed.

Lemma findById_delete id id' (t : list R) :
  findById id (deleteById id' t)
  = if bool_decide (id = id') then None else findById id t.
Proof.
  unfold findById, deleteById. induction t as [|r t IH].
  - by case_bool_decide.
  - rewrite filter_cons. cbn [find].
    destruct (decide (rowId r <> id')) as [E1|E1]; cbn [find]; rewrite IH.
    + destruct (bool_decide (rowId r = id)) eqn:E2; [|done].
      apply bool_decide_eq_true in E2.
      rewrite bool_decide_eq_false_2 by congruence. done.
    + apply dec_stable in E1.
      destruct (bool_decide (rowId r = id)) eqn:E2; [|done].
      apply bool_decide_eq_true in E2.
      rewrite bool_decide_eq_true_2 by congruence. done.
Qed.

Lemma findById_app_is_Some id (t1 t2 : list R) :
  is_Some (findById id t1) -> is_Some (findById id (t1 ++ t2)).
Proof. rewrite findById_app. by intros [r ->]. Qed.

Lemma findById_update_is_Some id id' (f : R -> R) (t : list R) :
  (forall r, rowId (f r) = rowId r) ->
  is_Some (findById id t) -> is_Some (findById id (updateById id' f t)).
Proof.
  intros Hf [r Hr]. rewrite findById_update, Hr by done.
  case_bool_decide; simpl; eauto.
Qed.

(** The row found under an id is still the one found after rows it is not
    among are filtered out. *)
Lemma findById_filter id (P : R -> Prop) `{forall r, Decision (P r)}
    (t : list R) r :
  findById id t = Some r -> P r -> findById id (filter P t) = Some r.
Proof.
  unfold findById. induction t as [|x t IH]; [done|]. cbn [find].
  rewrite filter_cons.
  destruct (bool_decide (rowId x = id)) eqn:E.
  - intros [= ->] HP. rewrite decide_True by done. cbn [find]. by rewrite E.
  - intros Hf HP.
    destruct (decide (P x)); [cbn [find]; rewrite E|]; by apply IH.
Qed.

End Tables.

(** ** Reasoning about transaction bodies

    One rule per statement form: what has to hold of the database a
    statement leaves for [Q] to hold after it. *)

Section TxLogic.
Import Store Routes Spec.

Lemma post_ret {A} (a : A) db Q : Q a db -> tx_post (tx_ret a) db Q.
Proof. intros HQ a' db' [= <- <-]. done. Qed.

Lemma post_read {A} (f : Db -> A) db Q :
  Q (f db) db -> tx_post (tx_read f) db Q.
Proof. intros HQ a' db' [= <- <-]. done. Qed.

Lemma post_bind {A B} (m : Tx A) (k : A -> Tx B) db Q :
  tx_post m db (fun a db1 => tx_post (k a) db1 Q) ->
  tx_post (tx_bind m k) db Q.
Proof.
  intros Hm b db' Hb. unfold tx_bind in Hb.
  destruct (m db) as [[a db1]|] eqn:E; [|done]. by eapply Hm.
Qed.

(** A transaction either throws and leaves the database as it was, or
    returns what its body returns and leaves what its body leaves. *)
Lemma post_transaction {A} (m : Tx A) db r db' (G : Prop) :
  transaction m db = (r, db') ->
  (r = None -> db' = db -> G) ->
  tx_post m db (fun a db1 => r = Some a -> db' = db1 -> G) -> G.
Proof.
  unfold transaction. intros Ht Hnone Hsome.
  destruct (m db) as [[a db1]|] eqn:E; simplify_eq;
    [by eapply Hsome|by apply Hnone].
Qed.

Lemma post_board_create id name t db Q :
  (findById id (boards db) = None ->
   Q (mkBoard id name t t)
     (set_boards (fun b => b ++ [mkBoard id name t t]) db)) ->
  tx_post (board_create id name t) db Q.
Proof.
  intros HQ a db'. unfold board_create.
  destruct (findById id (boards db)); naive_solver.
Qed.

Lemma post_list_create id b title p t db Q :
  (findById id (lists db) = None -> is_Some (findById b (boards db)) ->
   Q (mkList id b title p t t)
     (set_lists (fun l => l ++ [mkList id b title p t t]) db)) ->
  tx_post (list_create id b title p t) db Q.
Proof.
  intros HQ a db'. unfold list_create.
  destruct (findById id (lists db)), (findById b (boards db)) eqn:?;
    naive_solver.
Qed.

Lemma post_card_create id b l title d du p t db Q :
  (findById id (cards db) = None -> is_Some (findById b (boards db)) ->
   is_Some (findById l (lists db)) ->
   Q (mkCard id b l title d du p t t)
     (set_cards (fun c => c ++ [mkCard id b l title d du p t t]) db)) ->
  tx_post (card_create id b l title d du p t) db Q.
Proof.
  intros HQ a db'. unfold card_create.
  destruct (findById id (cards db)), (findById b (boards db)) eqn:?,
    (findById l (lists db)) eqn:?; naive_solver.
Qed.

Lemma post_event_create e db Q :
  (findById (ev_id e) (events db) = None ->
   is_Some (findById (ev_boardId e) (boards db)) ->
   Q e (set_events (fun evs => evs ++ [e]) db)) ->
  tx_post (event_create e) db Q.
Proof.
  intros HQ a db'. unfold event_create.
  destruct (findById _ (events db)), (findById _ (boards db)) eqn:?;
    naive_solver.
Qed.

Lemma post_board_update id name t db Q :
  (forall b, findById id (boards db) = Some b ->
     Q (updatedBoard name t b)
       (set_boards (updateById id (updatedBoard name t)) db)) ->
  tx_post (board_update id name t) db Q.
Proof.
  intros HQ a db'. unfold board_update.
  destruct (findById id (boards db)); naive_solver.
Qed.

Lemma post_list_update id title t db Q :
  (forall l, findById id (lists db) = Some l ->
     Q (updatedList title t l)
       (set_lists (updateById id (updatedList title t)) db)) ->
  tx_post (list_update id title t) db Q.
Proof.
  intros HQ a db'. unfold list_update.
  destruct (findById id (lists db)); naive_solver.
Qed.

Lemma post_card_update id u t db Q :
  (forall c, findById id (cards db) = Some c ->
     is_Some (findById (card_listId (applyCardUpdate u t c)) (lists db)) ->
     Q (applyCardUpdate u t c)
       (set_cards (updateById id (applyCardUpdate u t)) db)) ->
  tx_post (card_update id u t) db Q.
Proof.
  intros HQ a db'. unfold card_update.
  destruct (findById id (cards db)) as [c|]; [|done].
  destruct (findById _ (lists db)) eqn:?; naive_solver.
Qed.

Lemma post_card_delete id db Q :
  (is_Some (findById id (cards db)) -> Q tt (set_cards (deleteById id) db)) ->
  tx_post (card_delete id) db Q.
Proof.
  intros HQ a db'. unfold card_delete.
  destruct (findById id (cards db)) eqn:?; naive_solver.
Qed.

Lemma post_list_delete id db Q :
  (is_Some (findById id (lists db)) ->
   Q tt (set_cards (filter (fun c => card_listId c <> id))
           (set_lists (deleteById id) db))) ->
  tx_post (list_delete id) db Q.
Proof.
  intros HQ a db'. unfold list_delete.
  destruct (findById id (lists db)) eqn:?; naive_solver.
Qed.

Lemma post_board_delete id db Q :
  (is_Some (findById id (boards db)) -> Q tt (withoutBoard id db)) ->
  tx_post (board_delete id) db Q.
Proof.
  intros HQ a db'. unfold board_delete.
  destruct (findById id (boards db)) eqn:?; naive_solver.
Qed.

End TxLogic.

Ltac tx_simpl :=
  cbn [Store.boards Store.lists Store.cards Store.events Store.set_boards
       Store.set_lists Store.set_cards Store.set_events] in *.

(** One statement of a transaction body. *)
Ltac tx_step :=
  lazymatch goal with
  | |- Spec.tx_post (Store.tx_bind _ _) _ _ => apply post_bind
  | |- Spec.tx_post (Store.tx_ret _) _ _ => apply post_ret
  | |- Spec.tx_post (Store.tx_read _) _ _ => apply post_read
  | |- Spec.tx_post (Store.board_findUnique _) _ _ => apply post_read
  | |- Spec.tx_post (Store.list_findUnique _) _ _ => apply post_read
  | |- Spec.tx_post (Store.card_findUnique _) _ _ => apply post_read
  | |- Spec.tx_post (Store.event_findUnique _) _ _ => apply post_read
  | |- Spec.tx_post (Store.list_findFirst_onBoard _ _) _ _ => apply post_read
  | |- Spec.tx_post (Store.card_lastPosition _) _ _ => apply post_read
  | |- Spec.tx_post (Store.list_lastPosition _) _ _ => apply post_read
  | |- Spec.tx_post (Store.card_count _) _ _ => apply post_read
  | |- Spec.tx_post (Undo.findUndoOf _) _ _ => apply post_read
  | |- Spec.tx_post (Routes.findNeighbor _) _ _ => unfold Routes.findNeighbor
  | |- Spec.tx_post (Routes.touchBoard _ _) _ _ =>
      apply post_board_update; intros ? ?
  | |- Spec.tx_post (Store.board_create _ _ _) _ _ =>
      apply post_board_create; intros ?
  | |- Spec.tx_post (Store.list_create _ _ _ _ _) _ _ =>
      apply post_list_create; intros ? ?
  | |- Spec.tx_post (Store.card_create _ _ _ _ _ _ _ _) _ _ =>
      apply post_card_create; intros ? ? ?
  | |- Spec.tx_post (Store.event_create _) _ _ =>
      apply post_event_create; intros ? ?
  | |- Spec.tx_post (Store.event_createMany _) _ _ =>
      cbn [Store.event_createMany]
  | |- Spec.tx_post (Store.board_update _ _ _) _ _ =>
      apply post_board_update; intros ? ?
  | |- Spec.tx_post (Store.list_update _ _ _) _ _ =>
      apply post_list_update; intros ? ?
  | |- Spec.tx_post (Store.card_update _ _ _) _ _ =>
      apply post_card_update; intros ? ? ?
  | |- Spec.tx_post (Store.card_delete _) _ _ =>
      apply post_card_delete; intros ?
  | |- Spec.tx_post (Store.list_delete _) _ _ =>
      apply post_list_delete; intros ?
  | |- Spec.tx_post (Store.board_delete _) _ _ =>
      apply post_board_delete; intros ?
  | |- Spec.tx_post (match ?x with _ => _ end) _ _ => destruct x eqn:?
  end; tx_simpl.

Ltac tx_run := repeat tx_step.

(** Open the transaction of a handler: the goal is left once for the
    rollback and once per way the body returns. *)
Ltac tx_open Ht :=
  eapply post_transaction;
    [exact Ht | intros -> -> | tx_run; intros -> ->; tx_simpl].

(** Run a handler forward on a database described by hypotheses on its
    lookups. *)
Ltac tx_unfold :=
  unfold Routes.touchBoard, Store.board_findUnique, Store.list_findUnique,
    Store.card_findUnique, Store.event_findUnique, Undo.findUndoOf,
    Store.list_findFirst_onBoard, Store.card_lastPosition,
    Store.list_lastPosition, Store.card_count, Store.board_create,
    Store.list_create, Store.card_create, Store.event_create,
    Store.board_update, Store.list_update, Store.card_update,
    Store.card_delete, Store.list_delete, Store.board_delete;
  unfold Store.transaction, Store.tx_bind, Store.tx_ret, Store.tx_read.

Ltac tx_eval :=
  repeat first
    [ progress cbn -[Store.findById Store.maxPosition Position.positionBetween
                     Store.cardsOfList find]
    | match goal with
      | H : Store.findById _ _ = _ |- _ => rewrite H
      | H : find _ _ = _ |- _ => rewrite H
      | H : Store.card_id _ = _ |- _ => rewrite H
      | H : Store.ev_type _ = _ |- _ => rewrite H
      | H : Store.ev_entityType _ = _ |- _ => rewrite H
      end ].
(** ** What the schemas of the bodies admit *)

Section SchemaFacts.
Import Store Routes Text.

Lemma trimmedText_Some max s t :
  trimmedText max s = Some t
  <-> t = trim s /\ (1 <= String.length (trim s) <= max)%nat.
Proof.
  unfold trimmedText. case_bool_decide; split.
  - by intros [= <-].
  - by intros [-> _].
  - done.
  - by intros [_ ?].
Qed.

Lemma textUpTo_Some max s t :
  textUpTo max s = Some t <-> t = s /\ (String.length s <= max)%nat.
Proof.
  unfold textUpTo. case_bool_decide; split.
  - by intros [= <-].
  - by intros [-> _].
  - done.
  - by intros [_ ?].
Qed.

Lemma optionalKey_Some {A B} (schema : A -> option B) value parsed :
  optionalKey schema value = Some parsed
  <-> match value with
      | None => parsed = None
      | Some a => exists b, schema a = Some b /\ parsed = Some b
      end.
Proof.
  unfold optionalKey. destruct value as [a|].
  - destruct (schema a) as [b|]; split.
    + intros [= <-]. by exists b.
    + by intros (b' & [= <-] & ->).
    + done.
    + by intros (b' & ? & _).
  - split; [by intros [= <-]|by intros ->].
Qed.

Lemma CreateBoardSchema_Some name parsed :
  CreateBoardSchema name = Some parsed
  <-> parsed = trim <$> name
      /\ forall n, name = Some n -> (1 <= String.length (trim n) <= 80)%nat.
Proof.
  unfold CreateBoardSchema. rewrite optionalKey_Some.
  destruct name as [n|]; cbn.
  - split.
    + intros (b & [-> Hlen]%trimmedText_Some & ->). split; [done|].
      by intros ? [= <-].
    + intros [-> Hlen]. exists (trim n). split; [|done].
      apply trimmedText_Some. split; [done|]. by apply Hlen.
  - split; [by intros ->|by intros [-> _]].
Qed.

Lemma PatchListSchema_Some title parsed :
  PatchListSchema title = Some parsed
  <-> exists t, title = Some t /\ parsed = Some (trim t)
                /\ (1 <= String.length (trim t) <= 80)%nat.
Proof.
  unfold PatchListSchema.
  destruct (optionalKey (trimmedText 80) title) as [[t'|]|] eqn:E.
  - apply optionalKey_Some in E. destruct title as [t|]; [|done].
    destruct E as (b & [-> Hlen]%trimmedText_Some & [= ->]). split.
    + intros [= <-]. by exists t.
    + by intros (t0 & [= <-] & -> & _).
  - apply optionalKey_Some in E. destruct title as [t|].
    + by destruct E as (b & _ & ?).
    + split; [done|]. by intros (t0 & ? & _).
  - split; [done|]. intros (t & -> & _ & Hlen).
    assert (optionalKey (trimmedText 80) (Some t) = Some (Some (trim t)))
      as E'; [|by rewrite E' in E].
    apply optionalKey_Some. exists (trim t). split; [|done].
    by apply trimmedText_Some.
Qed.

Lemma CreateCardSchema_Some title description t d :
  CreateCardSchema title description = Some (t, d)
  <-> t = trim title /\ d = description
      /\ (1 <= String.length (trim title) <= 120)%nat
      /\ forall x, description = Some x -> (String.length x <= 10000)%nat.
Proof.
  unfold CreateCardSchema.
  destruct (trimmedText 120 title) as [t'|] eqn:Et.
  - apply trimmedText_Some in Et as [-> Hlen].
    destruct (optionalKey (textUpTo 10000) description) as [d'|] eqn:Ed.
    + apply optionalKey_Some in Ed. destruct description as [x|].
      * destruct Ed as (b & [-> Hx]%textUpTo_Some & ->). split.
        -- intros [= <- <-]. do 3 (split; [done|]). by intros ? [= <-].
        -- by intros (-> & -> & _).
      * subst d'. split; [by intros [= <- <-]|by intros (-> & -> & _)].
    + split; [done|]. intros (_ & _ & _ & Hd). destruct description as [x|].
      * assert (optionalKey (textUpTo 10000) (Some x) = Some (Some x)) as E';
          [|by rewrite E' in Ed].
        apply optionalKey_Some. exists x. split; [|done].
        apply textUpTo_Some. split; [done|]. by apply Hd.
      * done.
  - split; [done|]. intros (_ & _ & Hlen & _).
    assert (trimmedText 120 title = Some (trim title)) as E';
      [by apply trimmedText_Some|by rewrite E' in Et].
Qed.

Lemma PatchCardSchema_Some title description dueAt t d :
  PatchCardSchema title description dueAt = Some (t, d)
  <-> t = trim <$> title /\ d = description
      /\ (title <> None \/ description <> None \/ dueAt <> None)
      /\ (forall x, title = Some x -> (1 <= String.length (trim x) <= 120)%nat)
      /\ forall x, description = Some x -> (String.length x <= 10000)%nat.
Proof.
  unfold PatchCardSchema.
  destruct (optionalKey (trimmedText 120) title) as [t'|] eqn:Et.
  - apply optionalKey_Some in Et.
    assert (t' = trim <$> title
            /\ forall x, title = Some x ->
                         (1 <= String.length (trim x) <= 120)%nat)
      as [-> Htitle].
    { destruct title as [x|]; [|by subst].
      destruct Et as (b & [-> Hlen]%trimmedText_Some & ->).
      split; [done|]. by intros ? [= <-]. }
    destruct (optionalKey (textUpTo 10000) description) as [d'|] eqn:Ed.
    + apply optionalKey_Some in Ed.
      assert (d' = description
              /\ forall x, description = Some x ->
                           (String.length x <= 10000)%nat) as [-> Hdesc].
      { destruct description as [x|]; [|by subst].
        destruct Ed as (b & [-> Hlen]%textUpTo_Some & ->).
        split; [done|]. by intros ? [= <-]. }
      destruct (_ && _) eqn:Hall.
      * apply andb_true_iff in Hall as [[H1 H2]%andb_true_iff H3].
        apply bool_decide_eq_true in H1, H2, H3. split; [done|].
        intros (_ & _ & Hsome & _). destruct title; [done|].
        destruct Hsome as [?|[?|?]]; congruence.
      * split; [|by intros (-> & -> & _)].
        intros [= <- <-]. do 2 (split; [done|]). split; [|done].
        destruct title; [by left|]. destruct description; [by right; left|].
        destruct dueAt; [by right; right|]. by vm_compute in Hall.
    + split; [done|]. intros (_ & _ & _ & _ & Hd).
      destruct description as [x|]; [|done].
      assert (optionalKey (textUpTo 10000) (Some x) = Some (Some x)) as E';
        [|by rewrite E' in Ed].
      apply optionalKey_Some. exists x. split; [|done].
      apply textUpTo_Some. split; [done|]. by apply Hd.
  - split; [done|]. intros (_ & _ & _ & Ht & _).
    destruct title as [x|]; [|done].
    assert (optionalKey (trimmedText 120) (Some x) = Some (Some (trim x)))
      as E'; [|by rewrite E' in Et].
    apply optionalKey_Some. exists (trim x). split; [|done].
    apply trimmedText_Some. split; [done|]. by apply Ht.
Qed.

End SchemaFacts.
(** ** What each request does to the activity log *)

Ltac log_link :=
  intros ?;
  first
    [ discriminate
    | match goal with
      | H : Store.findById _ (Store.events _) = Some ?t |- _ =>
          exists t; split; [exact (proj1 (findById_Some _ _ _ H))|];
          split; reflexivity
      end ].

Ltac log_leaf :=
  simpl; intros [= <- <-];
  first
    [ left; split; [reflexivity|]; first [left; reflexivity | right; reflexivity]
    | right; split; [reflexivity|]; split; [unfold Spec.isNoop; discriminate|];
      eexists; split; [reflexivity|];
      split; [assumption|]; split; [reflexivity|]; split; [reflexivity|];
      log_link ].

Ltac log_route Ht := tx_open Ht; log_leaf.

Section LogEffect.
Import Store Routes Undo System Spec.

Lemma renameBoard_log env actor boardId name db resp db' :
  renameBoard env actor boardId name db = (resp, db') ->
  OneEvent env actor db resp db'.
Proof.
  unfold renameBoard. destruct (PatchBoardSchema _) as [name'|]; [|log_leaf].
  destruct (transaction _ _) as [r db1] eqn:Ht.
  unfold renameBoard_tx in Ht. log_route Ht.
Qed.

Lemma createList_log env actor boardId title db resp db' :
  createList env actor boardId title db = (resp, db') ->
  OneEvent env actor db resp db'.
Proof.
  unfold createList. destruct (CreateListSchema _) as [title'|]; [|log_leaf].
  destruct (transaction _ _) as [r db1] eqn:Ht.
  unfold createList_tx in Ht. log_route Ht.
Qed.

Lemma renameList_log env actor boardId listId title db resp db' :
  renameList env actor boardId listId title db = (resp, db') ->
  OneEvent env actor db resp db'.
Proof.
  unfold renameList. destruct (PatchListSchema _) as [title'|]; [|log_leaf].
  destruct (transaction _ _) as [r db1] eqn:Ht.
  unfold renameList_tx in Ht. log_route Ht.
Qed.

Lemma deleteList_log env actor boardId listId db resp db' :
  deleteList env actor boardId listId db = (resp, db') ->
  OneEvent env actor db resp db'.
Proof.
  unfold deleteList. destruct (transaction _ _) as [r db1] eqn:Ht.
  unfold deleteList_tx in Ht. log_route Ht.
Qed.

Lemma createCard_log env actor boardId listId title description dueAt db
    resp db' :
  createCard env actor boardId listId title description dueAt db = (resp, db') ->
  OneEvent env actor db resp db'.
Proof.
  unfold createCard.
  destruct (CreateCardSchema _ _) as [[title' description']|]; [|log_leaf].
  destruct (transaction _ _) as [r db1] eqn:Ht.
  unfold createCard_tx in Ht. log_route Ht.
Qed.

Lemma updateCard_log env actor cardId title description dueAt db resp db' :
  updateCard env actor cardId title description dueAt db = (resp, db') ->
  OneEvent env actor db resp db'.
Proof.
  unfold updateCard.
  destruct (PatchCardSchema _ _ _) as [[title' description']|]; [|log_leaf].
  destruct (transaction _ _) as [r db1] eqn:Ht.
  unfold updateCard_tx in Ht. log_route Ht.
Qed.

Lemma deleteCard_log env actor cardId db resp db' :
  deleteCard env actor cardId db = (resp, db') ->
  OneEvent env actor db resp db'.
Proof.
  unfold deleteCard. destruct (transaction _ _) as [r db1] eqn:Ht.
  unfold deleteCard_tx in Ht. log_route Ht.
Qed.

Lemma moveCard_log env actor cardId toListId beforeCardId afterCardId db
    resp db' :
  moveCard env actor cardId toListId beforeCardId afterCardId db = (resp, db') ->
  OneEvent env actor db resp db'.
Proof.
  unfold moveCard. destruct (negb _); [log_leaf|].
  destruct (transaction _ _) as [r db1] eqn:Ht.
  unfold moveCard_tx in Ht. log_route Ht.
Qed.

Lemma clearActivity_log env actor boardId db resp db' :
  clearActivity env actor boardId db = (resp, db') ->
  OneEvent env actor db resp db'.
Proof.
  unfold clearActivity. destruct (transaction _ _) as [r db1] eqn:Ht.
  unfold clearActivity_tx in Ht. log_route Ht.
Qed.

Lemma undo_log env actor eventId db resp db' :
  undo env actor eventId db = (resp, db') ->
  OneEvent env actor db resp db'.
Proof.
  unfold undo. destruct (transaction _ _) as [r db1] eqn:Ht.
  unfold undo_tx in Ht. log_route Ht.
Qed.

(** Board creation appends four events, one per row it creates. *)
Lemma createBoard_log env actor name db resp db' :
  createBoard env actor name db = (resp, db') ->
  FourEvents env db resp db'.
Proof.
  unfold createBoard.
  destruct (CreateBoardSchema _) as [name'|]; [|intros [= <- <-]; by left].
  destruct (transaction _ _) as [r db1] eqn:Ht.
  unfold createBoard_tx, defaultLists in Ht.
  cbn [createDefaultLists] in Ht.
  eapply post_transaction; [exact Ht|intros -> ->|].
  - intros [= <- <-]. by left.
  - tx_run. unfold listCreatedEvents. cbn [imap event_createMany]. tx_run.
    intros -> ->. tx_simpl.
    intros [= <- <-]. right. split; [done|].
    eexists _, _, _, _.
    split; [simpl; rewrite <- !app_assoc; simpl; reflexivity|].
    rewrite <- ?app_assoc in *. simpl in *.
    repeat split; try done.
    repeat constructor.
Qed.

(** Board deletion logs nothing: the events of the board go with it. *)
Lemma deleteBoard_log env actor boardId db resp db' :
  deleteBoard env actor boardId db = (resp, db') ->
  NoEvent boardId db resp db'.
Proof.
  unfold deleteBoard. destruct (transaction _ _) as [r db1] eqn:Ht.
  unfold deleteBoard_tx in Ht. tx_open Ht.
  - intros [= <- <-]. by left.
  - simpl. intros [= <- <-]. right.
    match goal with Hf : findById boardId (boards db) = Some _ |- _ =>
      apply findById_Some in Hf as [_ Hid]; unfold rowId, BoardRow_id in Hid;
      rewrite Hid end.
    done.
  - simpl. intros [= <- <-]. by left.
Qed.

End LogEffect.
(** ** The references between the tables

    Every statement of the client keeps [FkInv], so every route does, and
    it holds of every database the routes can produce. *)

Section Preserve.
Import Store Routes Undo System Spec.

Lemma preserves_ret {A} I (a : A) : tx_preserves I (tx_ret a).
Proof. by intros db a' db' HI [= <- <-]. Qed.

Lemma preserves_read {A} I (f : Db -> A) : tx_preserves I (tx_read f).
Proof. by intros db a' db' HI [= <- <-]. Qed.

Lemma preserves_bind {A B} I (m : Tx A) (k : A -> Tx B) :
  tx_preserves I m -> (forall a, tx_preserves I (k a)) ->
  tx_preserves I (tx_bind m k).
Proof.
  intros Hm Hk db b db' HI Hb. unfold tx_bind in Hb.
  destruct (m db) as [[a db1]|] eqn:E; [|done].
  eapply Hk; [|exact Hb]. by eapply Hm.
Qed.

Lemma preserves_transaction {A} I (m : Tx A) db :
  tx_preserves I m -> I db -> I (transaction m db).2.
Proof.
  intros Hm HI. unfold transaction.
  destruct (m db) as [[a db1]|] eqn:E; simpl; [by eapply Hm|done].
Qed.

Lemma FkInv_board_create id name t : tx_preserves FkInv (board_create id name t).
Proof.
  intros db a db' (He & Hl & Hc). unfold board_create.
  destruct (findById id (boards db)); intros [= <- <-].
  split; [|split]; simpl.
  - intros ev Hin. by apply findById_app_is_Some, He.
  - intros li Hin. by apply findById_app_is_Some, Hl.
  - intros ca Hin. destruct (Hc ca Hin). split; [by apply findById_app_is_Some|done].
Qed.

Lemma FkInv_list_create id b title p t : tx_preserves FkInv (list_create id b title p t).
Proof.
  intros db a db' (He & Hl & Hc). unfold list_create.
  destruct (findById id (lists db)), (findById b (boards db)) eqn:Eb;
    intros [= <- <-].
  split; [|split]; simpl; [done| |].
  - intros li [Hin| ->%list_elem_of_singleton]%elem_of_app; [by apply Hl|].
    simpl. by rewrite Eb.
  - intros ca Hin. destruct (Hc ca Hin).
    split; [done|by apply findById_app_is_Some].
Qed.

Lemma FkInv_card_create id b l title d du p t :
  tx_preserves FkInv (card_create id b l title d du p t).
Proof.
  intros db a db' (He & Hl & Hc). unfold card_create.
  destruct (findById id (cards db)), (findById b (boards db)) eqn:Eb,
    (findById l (lists db)) eqn:El; intros [= <- <-].
  split; [|split]; simpl; [done|done|].
  intros ca [Hin| ->%list_elem_of_singleton]%elem_of_app; [by apply Hc|].
  simpl. by rewrite Eb, El.
Qed.

Lemma FkInv_event_create e : tx_preserves FkInv (event_create e).
Proof.
  intros db a db' (He & Hl & Hc). unfold event_create.
  destruct (findById (ev_id e) (events db)),
    (findById (ev_boardId e) (boards db)) eqn:Eb; intros [= <- <-].
  split; [|split]; simpl; [|done|done].
  intros ev [Hin| ->%list_elem_of_singleton]%elem_of_app; [by apply He|].
  by rewrite Eb.
Qed.

Lemma FkInv_event_createMany es : tx_preserves FkInv (event_createMany es).
Proof.
  induction es as [|e es IH]; cbn [event_createMany].
  - apply preserves_ret.
  - apply preserves_bind; [apply FkInv_event_create|by intros _].
Qed.

Lemma FkInv_board_update id name t : tx_preserves FkInv (board_update id name t).
Proof.
  intros db a db' (He & Hl & Hc). unfold board_update.
  destruct (findById id (boards db)); intros [= <- <-].
  split; [|split]; simpl.
  - intros ev Hin. by apply findById_update_is_Some, He.
  - intros li Hin. by apply findById_update_is_Some, Hl.
  - intros ca Hin. destruct (Hc ca Hin).
    split; [by apply findById_update_is_Some|done].
Qed.

Lemma FkInv_list_update id title t : tx_preserves FkInv (list_update id title t).
Proof.
  intros db a db' (He & Hl & Hc). unfold list_update.
  destruct (findById id (lists db)); intros [= <- <-].
  split; [|split]; simpl; [done| |].
  - intros l1 (l0 & -> & Hin)%list_elem_of_fmap.
    case_bool_decide; simpl; by apply Hl.
  - intros ca Hin. destruct (Hc ca Hin).
    split; [done|by apply findById_update_is_Some].
Qed.

Lemma FkInv_card_update id u t : tx_preserves FkInv (card_update id u t).
Proof.
  intros db a db' (He & Hl & Hc). unfold card_update.
  destruct (findById id (cards db)) as [c0|] eqn:Ec; [|done].
  destruct (findById (card_listId (applyCardUpdate u t c0)) (lists db)) eqn:El;
    intros [= <- <-].
  split; [|split]; simpl; [done|done|].
  intros ca (c1 & -> & Hin)%list_elem_of_fmap.
  case_bool_decide as Hid; [|by apply Hc].
  split; [simpl; by apply Hc|]. simpl in *.
  destruct (u_listId u); simpl in *; [by rewrite El|by apply Hc].
Qed.

Lemma FkInv_card_delete id : tx_preserves FkInv (card_delete id).
Proof.
  intros db a db' (He & Hl & Hc). unfold card_delete.
  destruct (findById id (cards db)); intros [= <- <-].
  split; [|split]; simpl; [done|done|].
  intros ca [_ Hin]%list_elem_of_filter. by apply Hc.
Qed.

Lemma FkInv_list_delete id : tx_preserves FkInv (list_delete id).
Proof.
  intros db a db' (He & Hl & Hc). unfold list_delete.
  destruct (findById id (lists db)); intros [= <- <-].
  split; [|split]; tx_simpl; [done| |].
  - intros li [_ Hin]%list_elem_of_filter. by apply Hl.
  - intros ca [Hne Hin]%list_elem_of_filter. destruct (Hc ca Hin) as [Hb Hli].
    split; [done|]. destruct Hli as [l0 Hl0].
    rewrite findById_delete, Hl0. by rewrite bool_decide_eq_false_2.
Qed.

Lemma FkInv_board_delete id : tx_preserves FkInv (board_delete id).
Proof.
  intros db a db' (He & Hl & Hc). unfold board_delete.
  destruct (findById id (boards db)); intros [= <- <-].
  assert (forall k, k <> id -> is_Some (findById k (boards db)) ->
                    is_Some (findById k (deleteById id (boards db)))) as Hkeep.
  { intros k Hne Hk. rewrite findById_delete. by rewrite bool_decide_eq_false_2. }
  split; [|split]; cbn [withoutBoard boards lists cards events].
  - intros ev [Hne Hin]%list_elem_of_filter. by apply Hkeep, He.
  - intros li [Hne Hin]%list_elem_of_filter. by apply Hkeep, Hl.
  - intros ca [[Hne Hon] Hin]%list_elem_of_filter.
    destruct (Hc ca Hin) as [Hb [l0 Hl0]]. split; [by apply Hkeep|].
    exists l0. apply findById_filter; [done|].
    unfold listOnBoard in Hon. rewrite Hl0 in Hon.
    by apply bool_decide_eq_false in Hon.
Qed.

End Preserve.

Ltac preserves_step :=
  lazymatch goal with
  | |- Spec.tx_preserves _ (Store.tx_bind _ _) => apply preserves_bind; [|intros ?]
  | |- Spec.tx_preserves _ (Store.tx_ret _) => apply preserves_ret
  | |- Spec.tx_preserves _ (Store.tx_read _) => apply preserves_read
  | |- Spec.tx_preserves _ (Store.board_findUnique _) => apply preserves_read
  | |- Spec.tx_preserves _ (Store.list_findUnique _) => apply preserves_read
  | |- Spec.tx_preserves _ (Store.card_findUnique _) => apply preserves_read
  | |- Spec.tx_preserves _ (Store.event_findUnique _) => apply preserves_read
  | |- Spec.tx_preserves _ (Store.list_findFirst_onBoard _ _) => apply preserves_read
  | |- Spec.tx_preserves _ (Store.card_lastPosition _) => apply preserves_read
  | |- Spec.tx_preserves _ (Store.list_lastPosition _) => apply preserves_read
  | |- Spec.tx_preserves _ (Store.card_count _) => apply preserves_read
  | |- Spec.tx_preserves _ (Undo.findUndoOf _) => apply preserves_read
  | |- Spec.tx_preserves _ (Routes.findNeighbor _) => unfold Routes.findNeighbor
  | |- Spec.tx_preserves _ (Routes.touchBoard _ _) => apply FkInv_board_update
  | |- Spec.tx_preserves _ (Store.board_create _ _ _) => apply FkInv_board_create
  | |- Spec.tx_preserves _ (Store.list_create _ _ _ _ _) => apply FkInv_list_create
  | |- Spec.tx_preserves _ (Store.card_create _ _ _ _ _ _ _ _) => apply FkInv_card_create
  | |- Spec.tx_preserves _ (Store.event_create _) => apply FkInv_event_create
  | |- Spec.tx_preserves _ (Store.event_createMany _) =>
      apply FkInv_event_createMany
  | |- Spec.tx_preserves _ (Routes.createDefaultLists _ _ _ _) =>
      unfold Routes.defaultLists; cbn [Routes.createDefaultLists]
  | |- Spec.tx_preserves _ (Store.board_update _ _ _) => apply FkInv_board_update
  | |- Spec.tx_preserves _ (Store.list_update _ _ _) => apply FkInv_list_update
  | |- Spec.tx_preserves _ (Store.card_update _ _ _) => apply FkInv_card_update
  | |- Spec.tx_preserves _ (Store.card_delete _) => apply FkInv_card_delete
  | |- Spec.tx_preserves _ (Store.list_delete _) => apply FkInv_list_delete
  | |- Spec.tx_preserves _ (Store.board_delete _) => apply FkInv_board_delete
  | |- Spec.tx_preserves _ (match ?x with _ => _ end) => destruct x
  end.

Ltac preserves_run := repeat preserves_step.

Section RoutesPreserve.
Import Store Routes Undo System Spec.

Lemma step_FkInv env actor req db : FkInv db -> FkInv (step env actor req db).2.
Proof.
  intros HI.
  destruct req; simpl;
    unfold createBoard, renameBoard, deleteBoard, createList, renameList,
      deleteList, createCard, updateCard, moveCard, deleteCard, clearActivity,
      undo;
    repeat lazymatch goal with
      | |- FkInv (if ?b then _ else _).2 => destruct b; [exact HI|]
      | |- FkInv (match ?s with Some _ => _ | None => _ end).2 =>
          destruct s as [?|]; [|exact HI]
      | |- FkInv (let (_, _) := ?p in _).2 => is_var p; destruct p
      end;
    lazymatch goal with
    | |- FkInv (match transaction ?m db with _ => _ end).2 =>
        assert (FkInv (transaction m db).2) as HI'
          by (apply preserves_transaction; [|exact HI];
              unfold createBoard_tx, renameBoard_tx, deleteBoard_tx,
                createList_tx, renameList_tx, deleteList_tx, createCard_tx,
                updateCard_tx, moveCard_tx, deleteCard_tx, clearActivity_tx,
                undo_tx;
              preserves_run);
        destruct (transaction m db) as [[r|] db1]; [|exact HI']
    end.
  all: repeat lazymatch goal with
       | |- FkInv (match ?r with _ => _ end).2 => destruct r
       | |- FkInv (let (_, _) := ?r in _).2 => destruct r
       end; exact HI'.
Qed.

Lemma reachable_FkInv db : reachable db -> FkInv db.
Proof.
  induction 1 as [|env actor req db _ IH].
  - split; [|split]; intros x Hx; by apply elem_of_nil in Hx.
  - by apply step_FkInv.
Qed.

End RoutesPreserve.
(** ** The activity query *)

Section ActivityFacts.
Import Store Routes Activity System Spec Examples.

#[local] Instance newerOrEqual_total : Total newerOrEqual.
Proof. intros e1 e2. unfold newerOrEqual. lia. Qed.

#[local] Instance newerOrEqual_trans : Transitive newerOrEqual.
Proof. intros e1 e2 e3. unfold newerOrEqual. lia. Qed.

Lemma newestFirst_sorted evs : StronglySorted newerOrEqual (newestFirst evs).
Proof. apply StronglySorted_merge_sort; apply _. Qed.

Lemma elem_of_newestFirst e evs : e ∈ newestFirst evs <-> e ∈ evs.
Proof. unfold newestFirst. by rewrite merge_sort_Permutation. Qed.

(** The head of a list sorted newest-first is at least as new as each of
    its elements. *)
Lemma head_newestFirst evs h e :
  head (newestFirst evs) = Some h -> e ∈ evs ->
  ev_createdAt e <= ev_createdAt h.
Proof.
  intros Hh He. apply elem_of_newestFirst in He.
  pose proof (newestFirst_sorted evs) as Hs.
  destruct (newestFirst evs) as [|x l]; simplify_eq/=.
  apply elem_of_cons in He as [->|He]; [lia|].
  inversion_clear Hs as [|? ? _ Hall].
  rewrite Forall_forall in Hall. by apply Hall.
Qed.

(** An element of a strongly sorted list that is cut off by [take] is no
    newer than the elements that are kept. *)
Lemma take_sorted_newest n (l : list ActivityEvent) e r :
  StronglySorted newerOrEqual l ->
  e ∈ l -> e ∉ take n l -> r ∈ take n l ->
  ev_createdAt e <= ev_createdAt r.
Proof.
  intros Hs He Hne Hr.
  rewrite <- (take_drop n l) in Hs, He.
  apply elem_of_app in He as [He|He]; [done|].
  by apply (StronglySorted_app_1_elem_of _ _ _ _ _ Hs Hr He).
Qed.

Lemma limitOf_range limit : 1 <= limitOf limit <= 200.
Proof. unfold limitOf. lia. Qed.

Lemma limitOf_parsed raw n :
  parseInt raw = Some n -> n <> 0 ->
  limitOf (Some raw) = Z.min (Z.max n 1) 200.
Proof.
  intros Hp Hn. unfold limitOf. simpl. rewrite Hp.
  destruct (Z.eqb_spec n 0); [done|reflexivity].
Qed.

Lemma limitOf_falsy raw :
  parseInt raw = None \/ parseInt raw = Some 0 -> limitOf (Some raw) = 50.
Proof. intros [Hp|Hp]; unfold limitOf; simpl; rewrite Hp; reflexivity. Qed.

(** A no-break space (code unit 160) before the digits is skipped, as a
    space is. *)
Lemma limitOf_after_no_break_space :
  limitOf (Some (String "160"%char "7")) = 7
  /\ limitOf (Some (String "160"%char "300")) = 200.
Proof. by vm_compute. Qed.

(** The cut-off of an actor is the time of one of the actor's markers and no
    marker of the actor is newer. *)
Lemma clearedAt_marker actor boardId db m :
  m ∈ events db -> isClearMarker boardId (actorClientId actor) m ->
  exists t, clearedAt actor boardId db = Some t /\ ev_createdAt m <= t.
Proof.
  intros Hm Hmark. unfold clearedAt.
  assert (Hin : m ∈ filter (isClearMarker boardId (actorClientId actor)) (events db))
    by (by apply list_elem_of_filter).
  destruct (head _) as [h|] eqn:Hh.
  - exists (ev_createdAt h). split; [done|]. by eapply head_newestFirst.
  - apply head_None in Hh. apply elem_of_newestFirst in Hin.
    rewrite Hh in Hin. by apply elem_of_nil in Hin.
Qed.

Lemma activityEvents_visible actor boardId limit db e :
  e ∈ activityEvents actor boardId limit db ->
  e ∈ events db /\ visible boardId (clearedAt actor boardId db) e.
Proof.
  unfold activityEvents. intros He.
  apply elem_of_take in He as (i & He & _).
  apply list_elem_of_lookup_2 in He. rewrite elem_of_newestFirst in He.
  apply list_elem_of_filter in He. tauto.
Qed.

(** An event of the board that a query leaves out is no newer than the
    events it returns. *)
Lemma activityEvents_newest actor boardId limit db e r :
  e ∈ events db -> ev_boardId e = boardId ->
  e ∉ activityEvents actor boardId limit db ->
  r ∈ activityEvents actor boardId limit db ->
  ev_createdAt e <= ev_createdAt r.
Proof.
  intros He Hb Hne Hr.
  destruct (decide (visible boardId (clearedAt actor boardId db) e)) as [Hv|Hv].
  - unfold activityEvents in *.
    eapply take_sorted_newest;
      [apply newestFirst_sorted| |exact Hne|exact Hr].
    apply elem_of_newestFirst, list_elem_of_filter. done.
  - apply activityEvents_visible in Hr as [_ [_ Hr]].
    unfold visible in Hv.
    destruct (clearedAt actor boardId db) as [t|]; [|tauto].
    assert (~ t < ev_createdAt e) by tauto. lia.
Qed.

(** A marker of another client does not move the cut-off of an actor. *)
Lemma clearedAt_other_marker actor boardId db db' m :
  events db' = events db ++ [m] ->
  ev_actorClientId m <> actorClientId actor ->
  clearedAt actor boardId db' = clearedAt actor boardId db.
Proof.
  intros Hev Hne. unfold clearedAt. rewrite Hev, filter_app.
  rewrite (filter_cons_False _ m []); [|unfold isClearMarker; tauto].
  by rewrite filter_nil, app_nil_r.
Qed.

(** C8 (counterexample).  A caller who asks for 0 events gets the limit
    50, not 0 clamped to the interval from 1 to 200, which is 1. *)
Lemma limit_zero_is_not_clamped :
  parseInt "0" = Some 0
  /\ limitOf (Some "0") = 50
  /\ limitOf (Some "0") <> Z.min (Z.max 0 1) 200.
Proof. by vm_compute. Qed.

(** C8 (amended).  For every activity query the events returned are events
    of the board, ordered newest-first, no newer event of the board is
    left out, and their count is at most the effective limit.  The
    effective limit is between 1 and 200; it is the caller's limit clamped
    to that interval when the caller's text parses to an integer other
    than 0, and it is 50 when the caller gives no limit, a limit of 0, or
    a text that does not parse. *)
Theorem activity_newest_first_capped actor boardId limit db :
  let evs := activityEvents actor boardId limit db in
  (length evs <= Z.to_nat (limitOf limit))%nat
  /\ 1 <= limitOf limit <= 200
  /\ StronglySorted newerOrEqual evs
  /\ (forall e, e ∈ evs -> e ∈ events db /\ ev_boardId e = boardId)
  /\ (forall e r,
        e ∈ events db -> ev_boardId e = boardId -> e ∉ evs -> r ∈ evs ->
        ev_createdAt e <= ev_createdAt r)
  /\ limitOf None = 50
  /\ (forall raw n,
        parseInt raw = Some n -> n <> 0 ->
        limitOf (Some raw) = Z.min (Z.max n 1) 200)
  /\ (forall raw,
        parseInt raw = None \/ parseInt raw = Some 0 ->
        limitOf (Some raw) = 50).
Proof.
  intros evs. split; [|split; [|split; [|split; [|split; [|split; [|split]]]]]].
  - unfold evs, activityEvents. rewrite length_take. lia.
  - apply limitOf_range.
  - unfold evs, activityEvents.
    eapply StronglySorted_app_1_l. rewrite take_drop.
    apply newestFirst_sorted.
  - intros e [He [Hb _]]%activityEvents_visible. done.
  - intros e r He Hb Hne Hr. unfold evs, activityEvents in *.
    destruct (decide (visible boardId (clearedAt actor boardId db) e)) as [Hv|Hv].
    + eapply take_sorted_newest;
        [apply newestFirst_sorted| |exact Hne|exact Hr].
      apply elem_of_newestFirst, list_elem_of_filter. done.
    + apply activityEvents_visible in Hr as [_ [_ Hr]].
      unfold visible in Hv.
      destruct (clearedAt actor boardId db) as [t|]; [|tauto].
      assert (~ t < ev_createdAt e) by tauto. lia.
  - reflexivity.
  - apply limitOf_parsed.
  - apply limitOf_falsy.
Qed.

(** Bob asks for 2 events of the example board after Alice cleared her
    activity: he gets the two newest, the marker of Alice first. *)
Lemma activity_newest_first_capped_witness :
  let evs := activityEvents bob "a0" (Some "2") cleared in
  limitOf (Some "2") = 2
  /\ (length evs <= 2)%nat
  /\ StronglySorted newerOrEqual evs
  /\ ev_id <$> evs = ["h0"; "e0"].
Proof.
  destruct (activity_newest_first_capped bob "a0" (Some "2") cleared)
    as (Hlen & _ & Hsorted & _ & _ & _ & Hparsed & _).
  assert (limitOf (Some "2") = 2) as Hlimit.
  { apply (Hparsed "2" 2); [vm_compute; reflexivity|lia]. }
  split; [exact Hlimit|]. split; [|split].
  - rewrite Hlimit in Hlen. exact Hlen.
  - exact Hsorted.
  - vm_compute. reflexivity.
Defined.

(** The events a successful clear appends: one marker of the actor. *)
Lemma clearActivity_marker env actor boardId db eventId at_ db' :
  clearActivity env actor boardId db = (jsonOk (Cleared eventId at_) 200, db') ->
  exists marker,
    events db' = events db ++ [marker]
    /\ ev_id marker = eventId /\ ev_createdAt marker = at_
    /\ at_ = now env
    /\ isClearMarker boardId (actorClientId actor) marker.
Proof.
  unfold clearActivity. destruct (transaction _ _) as [r db1] eqn:Ht.
  unfold clearActivity_tx in Ht. tx_open Ht; simpl; intros [= <- <-]; subst.
  eexists. split; [reflexivity|]. by repeat split.
Qed.

(** Clearing the activity of a board that exists succeeds. *)
Lemma clearActivity_runs env actor boardId db :
  is_Some (findById boardId (boards db)) ->
  findById (newId env 0) (events db) = None ->
  exists db',
    clearActivity env actor boardId db
    = (jsonOk (Cleared (newId env 0) (now env)) 200, db').
Proof.
  intros [b Hb] Hfresh. unfold clearActivity, clearActivity_tx.
  tx_unfold. tx_eval. eexists. reflexivity.
Qed.

(** C7 (counterexample).  On the example board Bob asks for the newest
    event.  Before Alice clears her activity he gets the undo [e0]; after
    it he gets Alice's marker [h0] instead: the query of a client with
    another id is not unaffected by the marker. *)
Lemma clear_changes_the_page_of_another_client :
  cleared = (clearActivity (envAt 80 "h") alice "a0" restored).2
  /\ actorClientId bob <> actorClientId alice
  /\ ev_id <$> activityEvents bob "a0" (Some "1") restored = ["e0"]
  /\ ev_id <$> activityEvents bob "a0" (Some "1") cleared = ["h0"]
  /\ ev_type <$> activityEvents bob "a0" (Some "1") cleared
     = [activity_cleared].
Proof. by vm_compute. Qed.

(** C7 (amended).  Posting activity/clear for a board that exists
    succeeds, and after an actor posted it with success:
    - no event is deleted: the log is the log before with one
      [activity.cleared] marker of the actor appended;
    - on every database whose log still holds the marker, an activity
      query of that board by an actor with the same client id returns only
      events created strictly after the marker, and strictly after every
      other marker of that client, so events created at or before the
      most recent marker, the marker included, are left out;
    - for an actor with another client id the clear does not move the
      cut-off of the activity query, and each event of the log is let
      through the filter of that actor's query after the clear exactly
      when it was before; what that actor's query returns after the clear
      is the marker or events that passed the filter before; an event the
      query returned before and no longer returns is no newer than the
      events it returns now; and the marker is returned unless the events
      returned are all at least as new as the marker. *)
Theorem clear_hides_for_the_actor_only env actor boardId db :
  (is_Some (findById boardId (boards db)) ->
   findById (newId env 0) (events db) = None ->
   exists db',
     clearActivity env actor boardId db
     = (jsonOk (Cleared (newId env 0) (now env)) 200, db'))
  /\ forall eventId at_ db',
       clearActivity env actor boardId db
       = (jsonOk (Cleared eventId at_) 200, db') ->
       exists marker,
         events db' = events db ++ [marker]
         /\ ev_id marker = eventId /\ ev_createdAt marker = at_
         /\ isClearMarker boardId (actorClientId actor) marker
         /\ (forall db'' viewer limit e,
               marker ∈ events db'' ->
               actorClientId viewer = actorClientId actor ->
               e ∈ activityEvents viewer boardId limit db'' ->
               at_ < ev_createdAt e /\ e <> marker
               /\ forall m, m ∈ events db'' ->
                            isClearMarker boardId (actorClientId actor) m ->
                            ev_createdAt m < ev_createdAt e)
         /\ (forall other,
               actorClientId other <> actorClientId actor ->
               clearedAt other boardId db' = clearedAt other boardId db
               /\ (forall e,
                     visible boardId (clearedAt other boardId db') e
                     <-> visible boardId (clearedAt other boardId db) e)
               /\ (forall limit e,
                     e ∈ activityEvents other boardId limit db' ->
                     e = marker
                     \/ (e ∈ events db
                         /\ visible boardId (clearedAt other boardId db) e))
               /\ (forall limit e r,
                     e ∈ activityEvents other boardId limit db ->
                     e ∉ activityEvents other boardId limit db' ->
                     r ∈ activityEvents other boardId limit db' ->
                     ev_createdAt e <= ev_createdAt r)
               /\ (forall limit r,
                     marker ∉ activityEvents other boardId limit db' ->
                     r ∈ activityEvents other boardId limit db' ->
                     at_ <= ev_createdAt r)).
Proof.
  split; [apply clearActivity_runs|].
  intros eventId at_ db' Hclear.
  destruct (clearActivity_marker _ _ _ _ _ _ _ Hclear)
    as (marker & Hev & Hid & Hat & _ & Hmark).
  exists marker. do 4 (split; [done|]). split.
  - intros db'' viewer limit e Hin Hsame He.
    apply activityEvents_visible in He as [_ [_ Hvis]].
    assert (forall m, m ∈ events db'' ->
                      isClearMarker boardId (actorClientId actor) m ->
                      ev_createdAt m < ev_createdAt e) as Hall.
    { intros m Hm Hmm. rewrite <- Hsame in Hmm.
      destruct (clearedAt_marker viewer boardId db'' m Hm Hmm)
        as (t & Ht & Hle).
      rewrite Ht in Hvis. lia. }
    pose proof (Hall marker Hin Hmark) as Hlt. rewrite Hat in Hlt.
    split; [done|]. split; [|done]. intros ->. lia.
  - intros other Hother.
    assert (clearedAt other boardId db' = clearedAt other boardId db) as Hcut.
    { eapply clearedAt_other_marker; [exact Hev|].
      destruct Hmark as (_ & _ & ->). congruence. }
    split; [done|]. split; [intros e; by rewrite Hcut|].
    split; [|split].
    + intros limit e [He Hvis]%activityEvents_visible.
      rewrite Hev in He. rewrite Hcut in Hvis.
      apply elem_of_app in He as [He|He]; [by right|].
      apply list_elem_of_singleton in He. by left.
    + intros limit e r [He [Hb _]]%activityEvents_visible Hne Hr.
      apply (activityEvents_newest other boardId limit db'); try done.
      rewrite Hev. apply elem_of_app. by left.
    + intros limit r Hne Hr. rewrite <- Hat.
      apply (activityEvents_newest other boardId limit db'); try done.
      * rewrite Hev. apply elem_of_app. right. by left.
      * by destruct Hmark.
Qed.

(** Alice clears her activity on the example board at time 80: her next
    query returns nothing, Bob's returns the newest events, the marker
    first. *)
Lemma clear_hides_for_the_actor_only_witness :
  exists marker,
    events cleared = events restored ++ [marker]
    /\ ev_id marker = "h0" /\ ev_createdAt marker = 80
    /\ isClearMarker "a0" "client-a" marker
    /\ activityEvents alice "a0" None cleared = []
    /\ ev_id <$> activityEvents bob "a0" (Some "3") cleared = ["h0"; "e0"; "d0"].
Proof.
  destruct (proj2 (clear_hides_for_the_actor_only (envAt 80 "h") alice "a0"
                     restored)
              "h0" 80 cleared ltac:(vm_compute; reflexivity))
    as (marker & Hev & Hid & Hat & Hmark & _ & _).
  exists marker. do 4 (split; [done|]). split; vm_compute; reflexivity.
Defined.

End ActivityFacts.
(** ** One event per mutation, and the invariant of the log *)

Section LogInvariant.
Import Store Routes Undo System Spec.

Lemma step_log env actor req db resp db' :
  step env actor req db = (resp, db') ->
  match req with
  | CreateBoard _ => FourEvents env db resp db'
  | DeleteBoard boardId => NoEvent boardId db resp db'
  | _ => OneEvent env actor db resp db'
  end.
Proof.
  destruct req; simpl; intros Hstep;
    eauto using createBoard_log, renameBoard_log, deleteBoard_log,
      createList_log, renameList_log, deleteList_log, createCard_log,
      updateCard_log, moveCard_log, deleteCard_log, clearActivity_log,
      undo_log.
Qed.

Lemma idsUnique_snoc evs e :
  idsUnique evs -> findById (ev_id e) evs = None -> idsUnique (evs ++ [e]).
Proof.
  unfold idsUnique. intros Hnd Hfresh. rewrite fmap_app. simpl.
  apply NoDup_app. split; [done|]. split; [|apply NoDup_singleton].
  intros id Hid ->%list_elem_of_singleton.
  by apply findById_None in Hfresh.
Qed.

Lemma undoLinked_snoc evs e :
  undoLinked evs ->
  (ev_type e = card_undone ->
   exists t, t ∈ evs /\ d_revertedEventId (ev_data e) = Some (ev_id t)
             /\ ev_boardId e = ev_boardId t) ->
  undoLinked (evs ++ [e]).
Proof.
  intros Hl He u r Hu Hty Hr.
  apply elem_of_app in Hu as [Hu|Hu%list_elem_of_singleton].
  - destruct (Hl u r Hu Hty Hr) as (t & Ht & Hid & Hb).
    exists t. rewrite elem_of_app. eauto.
  - subst u. destruct (He Hty) as (t & Ht & Hrev & Hb).
    exists t. rewrite elem_of_app. split; [eauto|]. split; congruence.
Qed.

Lemma LogInv_snoc evs e :
  idsUnique evs /\ undoLinked evs ->
  findById (ev_id e) evs = None ->
  (ev_type e = card_undone ->
   exists t, t ∈ evs /\ d_revertedEventId (ev_data e) = Some (ev_id t)
             /\ ev_boardId e = ev_boardId t) ->
  idsUnique (evs ++ [e]) /\ undoLinked (evs ++ [e]).
Proof.
  intros [Hu Hl] Hfresh He. split.
  - by apply idsUnique_snoc.
  - by apply undoLinked_snoc.
Qed.

(** The cascade of a board deletion keeps the invariant: an undo marker
    and the event it names are on the same board, so they stay or go
    together. *)
Lemma LogInv_withoutBoard boardId db :
  LogInv db -> LogInv (withoutBoard boardId db).
Proof.
  intros [Hu Hl]. split; simpl.
  - unfold idsUnique in *. apply (NoDup_fmap_2_strong ev_id).
    + intros e1 e2 [_ H1]%list_elem_of_filter [_ H2]%list_elem_of_filter Hid.
      by eapply (findById_unique (ev_id e1) (events db)).
    + apply NoDup_filter. by eapply NoDup_fmap_1.
  - intros u r [Hb Hu']%list_elem_of_filter Hty Hr.
    destruct (Hl u r Hu' Hty Hr) as (t & Ht & Hid & Hbt).
    exists t. rewrite list_elem_of_filter. repeat split; try done.
    congruence.
Qed.

Lemma LogInv_same_events db db' :
  events db' = events db -> LogInv db -> LogInv db'.
Proof. unfold LogInv. by intros ->. Qed.

Lemma step_LogInv env actor req db :
  LogInv db -> LogInv (step env actor req db).2.
Proof.
  intros Hinv. destruct (step env actor req db) as [resp db'] eqn:Hstep.
  apply step_log in Hstep. simpl.
  assert (OneEvent env actor db resp db' -> LogInv db') as Hone.
  { intros [[-> _]|(_ & _ & e & Hev & Hfresh & _ & _ & Hlink)]; [done|].
    unfold LogInv. rewrite Hev. by apply LogInv_snoc. }
  destruct req; auto.
  - destruct Hstep as [[-> _]|(_ & e0 & e1 & e2 & e3 & Hev & T0 & T1 & T2 & T3
                               & F0 & F1 & F2 & F3 & _)]; [done|].
    unfold LogInv. rewrite Hev.
    change (events db ++ [e0; e1; e2; e3])
      with (events db ++ [e0] ++ [e1] ++ [e2] ++ [e3]).
    rewrite !app_assoc.
    repeat (apply LogInv_snoc;
            [ | by rewrite <- ?app_assoc | congruence ]).
    exact Hinv.
  - destruct Hstep as [[-> _]|[_ ->]]; [done|]. by apply LogInv_withoutBoard.
Qed.

Lemma reachable_LogInv db : reachable db -> LogInv db.
Proof.
  induction 1 as [|env actor req db _ IH].
  - split; [apply NoDup_nil_2|]. intros u r Hu. by apply elem_of_nil in Hu.
  - by apply step_LogInv.
Qed.

End LogInvariant.
(** ** How many events a request logs *)

Section OneEventPerMutation.
Import Store Routes Undo System Spec Examples.

(** C2 (counterexample).  Creating the board "Sprint" on the empty
    database commits and logs four events, and deleting that board commits,
    changes the database, and logs none: the log ends up empty. *)
Lemma board_creation_logs_four_and_deletion_none :
  let created := step (envAt 10 "a") alice (CreateBoard (Some "Sprint")) emptyDb in
  let removed := step (envAt 20 "b") alice (DeleteBoard "a0") created.2 in
  isOk created.1 = true
  /\ length (events emptyDb) = 0%nat
  /\ length (events created.2) = 4%nat
  /\ isOk removed.1 = true
  /\ boards removed.2 <> boards created.2
  /\ events removed.2 = [].
Proof. vm_compute. repeat split; try done. Qed.

(** C2 (amended).  Every request that changes a Board, List or Card logs
    in the same transaction: whatever the request, either nothing of the
    database changes (the response is an error, or the no-op of an undo),
    or the response is a success and
    - for every request but board creation and board deletion, exactly
      one ActivityEvent is appended to the log, stamped with the time and
      the actor of the request;
    - for board creation, four events are appended: [board.created] and
      one [list.created] for each of the three default lists;
    - for board deletion, no event is appended: the database is the one
      without the board, its lists, its cards and its events. *)
Theorem mutation_logs_events env actor req db resp db' :
  step env actor req db = (resp, db') ->
  match req with
  | CreateBoard _ =>
      (db' = db /\ isOk resp = false)
      \/ (isOk resp = true
          /\ exists e0 e1 e2 e3,
               events db' = events db ++ [e0; e1; e2; e3]
               /\ ev_type e0 = board_created /\ ev_type e1 = list_created
               /\ ev_type e2 = list_created /\ ev_type e3 = list_created)
  | DeleteBoard boardId =>
      (db' = db /\ isOk resp = false)
      \/ (isOk resp = true /\ db' = withoutBoard boardId db
          /\ forall e, e ∈ events db' -> e ∈ events db)
  | _ =>
      (db' = db /\ (isOk resp = false \/ resp = jsonOk UndoneNoop 200))
      \/ (isOk resp = true /\ resp <> jsonOk UndoneNoop 200
          /\ exists e,
               events db' = events db ++ [e]
               /\ ev_createdAt e = now env
               /\ ev_actorClientId e = actorClientId actor)
  end.
Proof.
  intros Hstep.
  assert (OneEvent env actor db resp db' ->
          (db' = db /\ (isOk resp = false \/ resp = jsonOk UndoneNoop 200))
          \/ (isOk resp = true /\ resp <> jsonOk UndoneNoop 200
              /\ exists e,
                   events db' = events db ++ [e]
                   /\ ev_createdAt e = now env
                   /\ ev_actorClientId e = actorClientId actor)) as Hone.
  { intros [?|(? & ? & e & ? & _ & ? & ? & _)]; [by left|right].
    repeat split; try done. by exists e. }
  destruct req; simpl in Hstep;
    eauto using renameBoard_log, createList_log, renameList_log,
      deleteList_log, createCard_log, updateCard_log, moveCard_log,
      deleteCard_log, clearActivity_log, undo_log.
  - apply createBoard_log in Hstep
      as [?|(? & e0 & e1 & e2 & e3 & ? & ? & ? & ? & ? & _)]; [by left|right].
    split; [done|]. by exists e0, e1, e2, e3.
  - apply deleteBoard_log in Hstep as [?|[? ->]]; [by left|right].
    repeat split; try done. simpl. by intros e [_ ?]%list_elem_of_filter.
Qed.

(** The creation of the card "Fix bug" on the example board: exactly one
    event is appended. *)
Lemma mutation_logs_events_witness :
  (withCard = sprint
   /\ (isOk (step (envAt 20 "b") alice
               (CreateCard "a0" "a1" "Fix bug" None None) sprint).1 = false
       \/ (step (envAt 20 "b") alice
             (CreateCard "a0" "a1" "Fix bug" None None) sprint).1
          = jsonOk UndoneNoop 200))
  \/ (isOk (step (envAt 20 "b") alice
              (CreateCard "a0" "a1" "Fix bug" None None) sprint).1 = true
      /\ (step (envAt 20 "b") alice
            (CreateCard "a0" "a1" "Fix bug" None None) sprint).1
         <> jsonOk UndoneNoop 200
      /\ exists e,
           events withCard = events sprint ++ [e]
           /\ ev_createdAt e = now (envAt 20 "b")
           /\ ev_actorClientId e = actorClientId alice).
Proof.
  apply (mutation_logs_events (envAt 20 "b") alice
           (CreateCard "a0" "a1" "Fix bug" None None) sprint).
  apply surjective_pairing.
Defined.

End OneEventPerMutation.
(** ** Undo *)

Section UndoIdempotent.
Import Store Routes Undo System Spec Examples.

Lemma reachable_sprint : reachable sprint.
Proof. apply reachable_step, reachable_empty. Qed.

Lemma reachable_withCard : reachable withCard.
Proof. apply reachable_step, reachable_sprint. Qed.

Lemma reachable_moved : reachable moved.
Proof. apply reachable_step, reachable_withCard. Qed.

Lemma reachable_deleted : reachable deleted.
Proof. apply reachable_step, reachable_moved. Qed.

Lemma reachable_restored : reachable restored.
Proof. apply reachable_step, reachable_deleted. Qed.

Lemma reachable_retitled : reachable retitled.
Proof. apply reachable_step, reachable_moved. Qed.

(** On a database where an undo marker for the event is found, the undo
    route answers the no-op and returns the database it was given. *)
Lemma undo_marker_found env actor eventId db event u :
  findById eventId (events db) = Some event ->
  find (fun u => bool_decide (revertsEvent event u)) (events db) = Some u ->
  undo env actor eventId db = (jsonOk UndoneNoop 200, db).
Proof.
  intros He Hu. unfold undo, transaction, undo_tx, tx_bind, event_findUnique,
    findUndoOf, tx_read, tx_ret.
  by rewrite He, Hu.
Qed.

(** An undo that succeeds and is not the no-op appends the marker of the
    event it undid. *)
Lemma undo_leaves_marker env actor eventId db resp db' :
  undo env actor eventId db = (resp, db') ->
  isOk resp = true -> resp <> jsonOk UndoneNoop 200 ->
  exists event u,
    findById eventId (events db) = Some event
    /\ events db' = events db ++ [u]
    /\ revertsEvent event u.
Proof.
  unfold undo. destruct (transaction _ _) as [r db1] eqn:Ht.
  unfold undo_tx in Ht. tx_open Ht;
    simpl; intros [= <- <-] Hok Hnoop; try done.
  all: eexists _, _; split; [reflexivity|]; split; [reflexivity|];
    by repeat split.
Qed.

(** Under the invariant of the log, a [card.undone] event that names the
    event is one the idempotency query finds: it is on the board of the
    event. *)
Lemma marker_found db eventId event u :
  LogInv db ->
  findById eventId (events db) = Some event ->
  u ∈ events db -> ev_type u = card_undone ->
  d_revertedEventId (ev_data u) = Some eventId ->
  is_Some (find (fun u => bool_decide (revertsEvent event u)) (events db)).
Proof.
  intros [Hnd Hl] He Hu Hty Hr.
  apply findById_Some in He as [Hin Hid].
  destruct (Hl u eventId Hu Hty Hr) as (t & Ht & Htid & Hb).
  assert (t = event) as -> by (by eapply (findById_unique eventId (events db))).
  destruct (find _ _) eqn:E; [eauto|].
  apply list_elem_of_In in Hu.
  pose proof (find_none _ _ E u Hu) as Hn.
  apply bool_decide_eq_false in Hn. destruct Hn.
  unfold revertsEvent. repeat split; [congruence|done|].
  rewrite Hr. f_equal. symmetry. exact Hid.
Qed.

(** C1.  Undo is idempotent per event id.  On a database the routes can
    produce, for an event that is in the log:
    - when the log holds a [card.undone] event whose [revertedEventId] is
      the id of the event, an undo request for that id answers the
      [alreadyUndone] no-op and leaves the database (boards, lists, cards
      and log) as it was;
    - an undo request that succeeds with a mutation appends such a
      [card.undone] event, and any undo request for the same id that
      follows it answers the no-op and changes nothing. *)
Theorem undo_idempotent db eventId event :
  reachable db ->
  findById eventId (events db) = Some event ->
  (forall u env actor,
     u ∈ events db -> ev_type u = card_undone ->
     d_revertedEventId (ev_data u) = Some eventId ->
     undo env actor eventId db = (jsonOk UndoneNoop 200, db))
  /\ (forall env actor resp db',
        undo env actor eventId db = (resp, db') ->
        isOk resp = true -> resp <> jsonOk UndoneNoop 200 ->
        (exists u, events db' = events db ++ [u]
                   /\ ev_type u = card_undone
                   /\ d_revertedEventId (ev_data u) = Some eventId)
        /\ forall env' actor',
             undo env' actor' eventId db' = (jsonOk UndoneNoop 200, db')).
Proof.
  intros Hreach He. split.
  - intros u env actor Hu Hty Hr.
    destruct (marker_found db eventId event u) as [m Hm];
      auto using reachable_LogInv.
    by eapply undo_marker_found.
  - intros env actor resp db' Hundo Hok Hnoop.
    destruct (undo_leaves_marker _ _ _ _ _ _ Hundo Hok Hnoop)
      as (event' & u & He' & Hev & Hb & Hty & Hr).
    assert (event' = event) as -> by congruence.
    pose proof (findById_Some _ _ _ He) as [_ Hid]. split.
    + exists u. repeat split; [done..|]. rewrite Hr. f_equal. exact Hid.
    + intros env' actor'.
      assert (findById eventId (events db') = Some event) as He2
        by (by rewrite Hev, findById_app, He).
      destruct (find (fun u => bool_decide (revertsEvent event u)) (events db'))
        as [m|] eqn:E; [by eapply undo_marker_found|].
      assert (In u (events db')) as Hin
        by (rewrite Hev; apply in_or_app; right; by left).
      pose proof (find_none _ _ E u Hin) as Hn.
      apply bool_decide_eq_false in Hn. by destruct Hn.
Qed.

(** The deletion event [d0] of the example board was undone by [e0]:
    another undo of [d0], by anyone, is the no-op. *)
Lemma undo_idempotent_witness :
  undo (envAt 90 "z") bob "d0" restored = (jsonOk UndoneNoop 200, restored).
Proof.
  eapply (proj1 (undo_idempotent restored "d0" _ reachable_restored
                   ltac:(vm_compute; reflexivity))).
  - apply (list_elem_of_lookup_2 _ 7). vm_compute. reflexivity.
  - reflexivity.
  - reflexivity.
Defined.

End UndoIdempotent.
(** ** Moving a card *)

Section MoveFacts.
Import Store Routes Position System Spec Examples.

Lemma maxPosition_None ps : maxPosition ps = None <-> ps = [].
Proof.
  split; [|by intros ->]. destruct ps as [|p ps]; [done|]. simpl.
  by destruct (maxPosition ps).
Qed.

(** The position the query selects is the position of one of the rows. *)
Lemma maxPosition_elem_of ps m : maxPosition ps = Some m -> m ∈ ps.
Proof.
  revert m. induction ps as [|p ps IH]; [done|]. simpl. intros m.
  destruct (maxPosition ps) as [m'|]; intros [= <-].
  - destruct (m' <? p)%float; [left|right; by apply IH].
  - left.
Qed.

(** [<?] on floats is a strict order, also in the presence of NaN. *)
Lemma SFltb_trans x y z :
  SFltb x y = true -> SFltb y z = true -> SFltb x z = true.
Proof.
  unfold SFltb, SFcompare.
  destruct x as [sx|sx| |sx mx ex], y as [sy|sy| |sy my ey],
    z as [sz|sz| |sz mz ez]; try done;
    repeat match goal with s : bool |- _ => destruct s end; try done.
  all: change (PosDef.Pos.compare_cont Eq) with Pos.compare;
    destruct (Z.compare_spec ex ey), (Z.compare_spec ey ez),
      (Z.compare_spec ex ez); try done; try lia;
    destruct (Pos.compare_spec mx my), (Pos.compare_spec my mz),
      (Pos.compare_spec mx mz); try done; try lia.
Qed.

Lemma SFltb_irrefl x : SFltb x x = false.
Proof.
  unfold SFltb, SFcompare. destruct x as [s|s| |s m e]; try done;
    destruct s; try done; rewrite Z.compare_refl;
    change (PosDef.Pos.compare_cont Eq) with Pos.compare;
    by rewrite Pos.compare_refl.
Qed.

(** No row has a position greater than the one the query selects. *)
Lemma maxPosition_greatest ps m :
  maxPosition ps = Some m -> forall p, p ∈ ps -> (m <? p)%float = false.
Proof.
  assert (forall x : float, (x <? x)%float = false) as Hirr.
  { intros x. rewrite ltb_spec. apply SFltb_irrefl. }
  revert m. induction ps as [|q ps IH]; [done|]. simpl. intros m.
  destruct (maxPosition ps) as [m'|] eqn:E.
  - intros [= <-] p [->|Hin]%elem_of_cons.
    + by destruct (m' <? q)%float eqn:Hlt.
    + specialize (IH _ eq_refl p Hin).
      destruct (m' <? q)%float eqn:Hlt; [|done].
      destruct (q <? p)%float eqn:Hqp; [|done].
      rewrite ltb_spec in *.
      by rewrite (SFltb_trans _ _ _ Hlt Hqp) in IH.
  - apply maxPosition_None in E as ->.
    intros [= <-] p [->|Hin]%elem_of_cons; [done|].
    by apply elem_of_nil in Hin.
Qed.

(** The last card of a list, as the move route selects it: a card of the
    list such that no card of the list has a greater position. *)
Lemma card_lastPosition_last listId db m :
  maxPosition (card_position <$> cardsOfList listId db) = Some m ->
  (exists c, c ∈ cardsOfList listId db /\ card_position c = m)
  /\ (forall c, c ∈ cardsOfList listId db ->
                (m <? card_position c)%float = false).
Proof.
  intros Hm. split.
  - apply maxPosition_elem_of, list_elem_of_fmap in Hm as (c & -> & Hin).
    eauto.
  - intros c Hin. apply (maxPosition_greatest _ _ Hm).
    apply list_elem_of_fmap. eauto.
Qed.

(** On a database the routes can produce, the board of a card exists. *)
Lemma card_board_exists db cardId card :
  reachable db -> findById cardId (cards db) = Some card ->
  is_Some (findById (card_boardId card) (boards db)).
Proof.
  intros (_ & _ & Hc)%reachable_FkInv [Hin _]%findById_Some.
  by apply Hc.
Qed.

(** The bodies [MoveCardSchema] admits: no id is the empty text. *)
Lemma MoveCardSchema_true toListId beforeCardId afterCardId :
  MoveCardSchema toListId beforeCardId afterCardId = true
  <-> toListId <> ""
      /\ (forall id, beforeCardId = Some id -> id <> "")
      /\ (forall id, afterCardId = Some id -> id <> "").
Proof.
  unfold MoveCardSchema, atLeastOne. rewrite !andb_true_iff.
  rewrite bool_decide_eq_true. split.
  - intros [[Hto Hb] Ha]. split; [done|].
    split; intros id ->; cbn in *.
    + by apply bool_decide_eq_true in Hb.
    + by apply bool_decide_eq_true in Ha.
  - intros (Hto & Hb & Ha). split; [split; [done|]|].
    + destruct beforeCardId as [id|]; [|done]. cbn.
      apply bool_decide_eq_true. by apply Hb.
    + destruct afterCardId as [id|]; [|done]. cbn.
      apply bool_decide_eq_true. by apply Ha.
Qed.

(** A move without neighbors of a card that exists, to a list that
    exists: it succeeds, and the card gets the position
    [positionBetween(last?.position ?? null, null)]. *)
Lemma moveCard_append env actor cardId toListId db card l b :
  toListId <> "" ->
  findById cardId (cards db) = Some card ->
  findById toListId (lists db) = Some l ->
  findById (card_boardId card) (boards db) = Some b ->
  findById (newId env 0) (events db) = None ->
  let last := maxPosition (card_position <$> cardsOfList toListId db) in
  let card' :=
    applyCardUpdate
      (mkCardUpdate (Some toListId) (Some (positionBetween last None))
         None None None) (now env) card in
  exists db',
    moveCard env actor cardId toListId None None db
    = (jsonOk (CardBody card') 200, db')
    /\ findById cardId (cards db') = Some card'.
Proof.
  intros Hto Hc Hl Hb He last card'.
  pose proof (findById_Some _ _ _ Hc) as [_ Hid].
  unfold rowId, CardRow_id in Hid.
  unfold moveCard, MoveCardSchema, atLeastOne.
  rewrite bool_decide_eq_true_2 by done. cbn [from_option andb negb].
  unfold moveCard_tx, findNeighbor. tx_unfold. tx_eval.
  eexists. split; [reflexivity|]. cbn -[findById].
  rewrite findById_update by done. rewrite bool_decide_eq_true_2 by done.
  by rewrite Hc.
Qed.

(** A [beforeCardId] that names no card is read as no neighbor. *)
Lemma moveCard_missing_before env actor cardId toListId beforeCardId
    afterCardId db :
  beforeCardId <> "" ->
  findById beforeCardId (cards db) = None ->
  moveCard env actor cardId toListId (Some beforeCardId) afterCardId db
  = moveCard env actor cardId toListId None afterCardId db.
Proof.
  intros Hne Hb. unfold moveCard, MoveCardSchema.
  cbn [from_option]. unfold atLeastOne at 2.
  rewrite (bool_decide_eq_true_2 (beforeCardId <> "")) by done.
  rewrite andb_true_r. destruct (negb _); [done|].
  unfold moveCard_tx. f_equal. tx_unfold. cbv beta.
  destruct (findById cardId (cards db)); [|done].
  unfold findNeighbor at 1. case_bool_decide; [done|].
  unfold card_findUnique, tx_read. by rewrite Hb.
Qed.

(** An [afterCardId] that names no card is read as no neighbor. *)
Lemma moveCard_missing_after env actor cardId toListId beforeCardId
    afterCardId db :
  afterCardId <> "" ->
  findById afterCardId (cards db) = None ->
  moveCard env actor cardId toListId beforeCardId (Some afterCardId) db
  = moveCard env actor cardId toListId beforeCardId None db.
Proof.
  intros Hne Ha. unfold moveCard, MoveCardSchema.
  cbn [from_option]. unfold atLeastOne at 3.
  rewrite (bool_decide_eq_true_2 (afterCardId <> "")) by done.
  rewrite andb_true_r. destruct (negb _); [done|].
  unfold moveCard_tx. f_equal. tx_unfold. cbv beta.
  destruct (findById cardId (cards db)); [|done].
  destruct (findNeighbor beforeCardId db) as [[n db1]|] eqn:En; [|done].
  assert (db1 = db) as ->.
  { unfold findNeighbor, card_findUnique, tx_ret, tx_read in En.
    destruct beforeCardId; [case_bool_decide|]; by simplify_eq. }
  unfold findNeighbor at 1. case_bool_decide; [done|].
  unfold card_findUnique, tx_read. by rewrite Ha.
Qed.

(** C3 (counterexample).  On the example board the card "Fix bug" is moved,
    with no neighbor, to the list Doing, which holds no card: its position
    becomes 0, not 1. *)
Lemma move_to_empty_list_gives_position_0 :
  cardsOfList "a2" withCard = []
  /\ exists card',
       (moveCard (envAt 30 "c") alice "b0" "a2" None None withCard).1
       = jsonOk (CardBody card') 200
       /\ card_position card' = 0%float
       /\ card_position card' <> 1%float.
Proof.
  split; [by vm_compute|]. eexists. split; [vm_compute; reflexivity|].
  split; [reflexivity|]. by apply float_neq_of_eqb.
Qed.

(** C3 (amended).  Moving a card with neither [beforeCardId] nor
    [afterCardId] appends it to the end of the destination list: the card
    is put in that list at the position of the list's last card plus 1,
    the last card being a card of the list such that no card of the list
    has a greater position; when the destination list holds no card, the
    position is 0.  ([toListId] is an id of at least one character, as the
    schema of the body asks.) *)
Theorem moveCard_without_neighbors env actor cardId toListId db card l :
  reachable db ->
  toListId <> "" ->
  findById cardId (cards db) = Some card ->
  findById toListId (lists db) = Some l ->
  findById (newId env 0) (events db) = None ->
  exists card' db',
    moveCard env actor cardId toListId None None db
    = (jsonOk (CardBody card') 200, db')
    /\ findById cardId (cards db') = Some card'
    /\ card_listId card' = toListId
    /\ (forall m,
          maxPosition (card_position <$> cardsOfList toListId db) = Some m ->
          card_position card' = (m + 1)%float
          /\ (exists c, c ∈ cardsOfList toListId db /\ card_position c = m)
          /\ (forall c, c ∈ cardsOfList toListId db ->
                        (m <? card_position c)%float = false))
    /\ (cardsOfList toListId db = [] -> card_position card' = 0%float).
Proof.
  intros Hreach Hto Hc Hl He.
  destruct (card_board_exists db cardId card Hreach Hc) as [b Hb].
  destruct (moveCard_append env actor cardId toListId db card l b)
    as (db' & Hmove & Hfind); try done.
  eexists _, db'. split; [exact Hmove|]. split; [exact Hfind|].
  split; [done|]. simpl. split.
  - intros m Hm. rewrite Hm. split; [done|].
    by apply card_lastPosition_last.
  - by intros ->.
Qed.

(** The move of the example: "Fix bug" from Todo to the empty Doing. *)
Lemma moveCard_without_neighbors_witness :
  exists card' db',
    moveCard (envAt 30 "c") alice "b0" "a2" None None withCard
    = (jsonOk (CardBody card') 200, db')
    /\ findById "b0" (cards db') = Some card'
    /\ card_listId card' = "a2"
    /\ (forall m,
          maxPosition (card_position <$> cardsOfList "a2" withCard) = Some m ->
          card_position card' = (m + 1)%float
          /\ (exists c, c ∈ cardsOfList "a2" withCard /\ card_position c = m)
          /\ (forall c, c ∈ cardsOfList "a2" withCard ->
                        (m <? card_position c)%float = false))
    /\ (cardsOfList "a2" withCard = [] -> card_position card' = 0%float).
Proof.
  eapply (moveCard_without_neighbors (envAt 30 "c") alice "b0" "a2" withCard);
    [apply reachable_withCard|discriminate|vm_compute; reflexivity..].
Defined.

(** C10 (counterexample).  On the example board after the move, the empty
    text is an id that matches no card; a move that supplies it as
    [beforeCardId] is refused with 400 and changes nothing, where the same
    move without it succeeds. *)
Lemma moveCard_empty_neighbor_is_refused :
  findById "" (cards moved) = None
  /\ moveCard (envAt 35 "m") bob "b0" "a2" (Some "") None moved
     = (jsonError "Invalid request body" 400, moved)
  /\ exists card' db',
       moveCard (envAt 35 "m") bob "b0" "a2" None None moved
       = (jsonOk (CardBody card') 200, db').
Proof.
  split; [by vm_compute|]. split; [by vm_compute|].
  eexists _, _. vm_compute. reflexivity.
Qed.

(** C10 (amended).  In MoveCard a [beforeCardId] or [afterCardId] of at
    least one character that matches no card is treated as an absent
    neighbor: the request behaves as the one without that id (so no
    NotFound and no Conflict comes from it), and when both neighbors are
    absent or are such ids, the move of a card that exists to a list that
    exists succeeds and places the card after the destination list's last
    card (a card of the list such that no card of the list has a greater
    position), at that card's position plus 1.  A [beforeCardId] or
    [afterCardId] given as the empty text is refused by the schema of the
    body: the answer is 400 and nothing changes. *)
Theorem moveCard_missing_neighbor_is_absent env actor cardId toListId db :
  (forall beforeCardId afterCardId,
     beforeCardId <> "" ->
     findById beforeCardId (cards db) = None ->
     moveCard env actor cardId toListId (Some beforeCardId) afterCardId db
     = moveCard env actor cardId toListId None afterCardId db)
  /\ (forall beforeCardId afterCardId,
        afterCardId <> "" ->
        findById afterCardId (cards db) = None ->
        moveCard env actor cardId toListId beforeCardId (Some afterCardId) db
        = moveCard env actor cardId toListId beforeCardId None db)
  /\ (forall beforeCardId afterCardId card l,
        reachable db ->
        toListId <> "" ->
        unresolvable db beforeCardId -> unresolvable db afterCardId ->
        findById cardId (cards db) = Some card ->
        findById toListId (lists db) = Some l ->
        findById (newId env 0) (events db) = None ->
        exists card' db',
          moveCard env actor cardId toListId beforeCardId afterCardId db
          = (jsonOk (CardBody card') 200, db')
          /\ findById cardId (cards db') = Some card'
          /\ card_listId card' = toListId
          /\ forall m,
               maxPosition (card_position <$> cardsOfList toListId db) = Some m ->
               card_position card' = (m + 1)%float
               /\ (exists c, c ∈ cardsOfList toListId db
                              /\ card_position c = m)
               /\ (forall c, c ∈ cardsOfList toListId db ->
                             (m <? card_position c)%float = false))
  /\ (forall neighbor,
        moveCard env actor cardId toListId (Some "") neighbor db
        = (jsonError "Invalid request body" 400, db)
        /\ moveCard env actor cardId toListId neighbor (Some "") db
           = (jsonError "Invalid request body" 400, db)).
Proof.
  split; [|split; [|split]].
  - intros. by apply moveCard_missing_before.
  - intros. by apply moveCard_missing_after.
  - intros beforeCardId afterCardId card l Hreach Hto Hbefore Hafter Hc Hl He.
    destruct (card_board_exists db cardId card Hreach Hc) as [b Hb].
    assert (moveCard env actor cardId toListId beforeCardId afterCardId db
            = moveCard env actor cardId toListId None None db) as ->.
    { destruct beforeCardId as [bid|], afterCardId as [aid|].
      - destruct (Hbefore bid eq_refl), (Hafter aid eq_refl).
        rewrite moveCard_missing_before by done.
        by rewrite moveCard_missing_after by done.
      - destruct (Hbefore bid eq_refl).
        by rewrite moveCard_missing_before by done.
      - destruct (Hafter aid eq_refl).
        by rewrite moveCard_missing_after by done.
      - done. }
    destruct (moveCard_append env actor cardId toListId db card l b)
      as (db' & Hmove & Hfind); try done.
    eexists _, db'. split; [exact Hmove|]. split; [exact Hfind|].
    split; [done|]. simpl. intros m Hm. rewrite Hm. split; [done|].
    by apply card_lastPosition_last.
  - intros neighbor. unfold moveCard, MoveCardSchema. cbn [from_option].
    assert (atLeastOne "" = false) as -> by done.
    by rewrite !andb_false_r, andb_false_l.
Qed.

(** On the example board after the move, the card [b0] is alone in Doing
    at position 0.  Moving it to Doing again with two ids that name no
    card succeeds and puts it at position 1, after itself. *)
Lemma moveCard_missing_neighbor_is_absent_witness :
  exists card' db',
    moveCard (envAt 35 "m") bob "b0" "a2" (Some "gone1") (Some "gone2") moved
    = (jsonOk (CardBody card') 200, db')
    /\ findById "b0" (cards db') = Some card'
    /\ card_listId card' = "a2"
    /\ card_position card' = 1%float.
Proof.
  destruct (proj1 (proj2 (proj2 (moveCard_missing_neighbor_is_absent
                                   (envAt 35 "m") bob "b0" "a2" moved)))
              (Some "gone1") (Some "gone2")
              (mkCard "b0" "a0" "a2" "Fix bug" "" None 0%float 20 30)
              (mkList "a2" "a0" "Doing" 2%float 10 10))
    as (card' & db' & Hmove & Hfind & Hlist & Hpos).
  - apply reachable_moved.
  - discriminate.
  - intros id [= <-]. split; [discriminate|]. vm_compute. reflexivity.
  - intros id [= <-]. split; [discriminate|]. vm_compute. reflexivity.
  - vm_compute. reflexivity.
  - vm_compute. reflexivity.
  - vm_compute. reflexivity.
  - exists card', db'. split; [exact Hmove|]. split; [exact Hfind|].
    split; [exact Hlist|]. apply (Hpos 0%float). vm_compute. reflexivity.
Defined.

End MoveFacts.
(** ** Undo of a deletion, of a move and of an update *)

Section UndoDeleted.
Import Store Routes Position Undo System Spec Examples.

Lemma undo_deleted_unsupported env actor eventId db event st :
  findById eventId (events db) = Some event ->
  ev_entityType event = CARD -> ev_type event = card_deleted ->
  find (fun u => bool_decide (revertsEvent event u)) (events db) = None ->
  asCardState (d_before (ev_data event)) = Some st ->
  (forall l, findById (cs_listId st) (lists db) = Some l ->
             list_boardId l <> cs_boardId st) ->
  undo env actor eventId db
  = (jsonError "Cannot restore: original list no longer exists" 409, db).
Proof.
  intros He Hty Het Hnot Hst Hlist.
  unfold undo, undo_tx. tx_unfold. tx_eval.
  rewrite bool_decide_eq_false_2 by (by intros []).
  rewrite Hst. tx_eval.
  destruct (findById (cs_listId st) (lists db)) as [l|] eqn:El; [|done].
  rewrite bool_decide_eq_true_2 by (by apply Hlist). done.
Qed.

Lemma undo_deleted_exists env actor eventId db event st l c :
  findById eventId (events db) = Some event ->
  ev_entityType event = CARD -> ev_type event = card_deleted ->
  find (fun u => bool_decide (revertsEvent event u)) (events db) = None ->
  asCardState (d_before (ev_data event)) = Some st ->
  findById (cs_listId st) (lists db) = Some l ->
  list_boardId l = cs_boardId st ->
  findById (cs_id st) (cards db) = Some c ->
  undo env actor eventId db = (jsonOk UndoneNoop 200, db).
Proof.
  intros He Hty Het Hnot Hst Hl Hlb Hc.
  unfold undo, undo_tx. tx_unfold. tx_eval.
  rewrite bool_decide_eq_false_2 by (by intros []).
  rewrite Hst. tx_eval.
  rewrite bool_decide_eq_false_2 by (by intros []). tx_eval. done.
Qed.

Lemma undo_deleted_restores env actor eventId db event st l b1 b2 :
  findById eventId (events db) = Some event ->
  ev_entityType event = CARD -> ev_type event = card_deleted ->
  find (fun u => bool_decide (revertsEvent event u)) (events db) = None ->
  asCardState (d_before (ev_data event)) = Some st ->
  findById (cs_listId st) (lists db) = Some l ->
  list_boardId l = cs_boardId st ->
  findById (cs_id st) (cards db) = None ->
  findById (cs_boardId st) (boards db) = Some b1 ->
  findById (ev_boardId event) (boards db) = Some b2 ->
  findById (newId env 0) (events db) = None ->
  let card := restoredCard st (now env) in
  undo env actor eventId db
  = (jsonOk (UndoneRestored card) 200,
     mkDb (updateById (ev_boardId event) (updatedBoard None (now env))
             (boards db))
       (lists db) (cards db ++ [card])
       (events db
        ++ [undoneEvent env actor event None (Some (snapCard card))])).
Proof.
  intros He Hty Het Hnot Hst Hl Hlb Hc Hb1 Hb2 Hfresh card.
  unfold undo, undo_tx. tx_unfold. tx_eval.
  rewrite bool_decide_eq_false_2 by (by intros []).
  rewrite Hst. tx_eval.
  rewrite bool_decide_eq_false_2 by (by intros []). tx_eval.
  unfold card, restoredCard. by destruct (cs_dueAt st) as [[d|]|].
Qed.

(** The state read from the snapshot the card DELETE route logs holds the
    columns of the deleted card. *)
Lemma asCardState_snapCard c :
  asCardState (Some (snapCard c))
  = Some (mkCardState (card_id c) (card_boardId c) (card_listId c)
            (Some (card_title c)) (Some (card_description c))
            (coalesceDueAt (Some (card_dueAt c))) (Some (card_position c))).
Proof. reflexivity. Qed.

(** C5 (counterexample).  On the example board the deletion [d0] logged
    the card with [createdAt] 20 and [updatedAt] 30 in its [before]
    snapshot; the card its undo recreates at time 50 has 50 for both: two
    of the field values recorded in the snapshot are not restored. *)
Lemma undo_deleted_card_stamps_are_new :
  exists event snapshot card db',
    findById "d0" (events deleted) = Some event
    /\ ev_type event = card_deleted
    /\ d_before (ev_data event) = Some snapshot
    /\ s_createdAt snapshot = Some 20 /\ s_updatedAt snapshot = Some 30
    /\ undo (envAt 50 "e") alice "d0" deleted
       = (jsonOk (UndoneRestored card) 200, db')
    /\ card_createdAt card = 50 /\ card_updatedAt card = 50
    /\ Some (card_createdAt card) <> s_createdAt snapshot
    /\ Some (card_updatedAt card) <> s_updatedAt snapshot.
Proof.
  eexists _, _, _, _. split; [vm_compute; reflexivity|].
  split; [reflexivity|]. split; [reflexivity|].
  split; [reflexivity|]. split; [reflexivity|].
  split; [vm_compute; reflexivity|]. by repeat split.
Qed.

(** C5 (amended).  Undoing a [card.deleted] event that was not undone
    before, whose [before] snapshot is a card state [st] (it holds [id],
    [boardId] and [listId]):
    - when the list of the snapshot is gone or belongs to another board,
      the undo fails as unsupported (409) and nothing changes;
    - when the list exists on the board of the snapshot and a card with
      the id of the snapshot exists, the undo answers [alreadyUndone] and
      nothing changes;
    - when the list exists on the board of the snapshot and no card has
      the id of the snapshot, the undo recreates the card: the new row has
      the id, board, list, title, description, due date and position of
      the snapshot (the defaults "Untitled", "", null and 0 stand in for
      what the snapshot lacks), it is the row found under that id
      afterwards, and one [card.undone] event is appended.  For the
      snapshot the card DELETE route logs, these are the values the card
      had when it was deleted.  [createdAt] and [updatedAt] are not read
      from the snapshot: they are the time of the undo. *)
Theorem undo_deleted_card env actor eventId db event st :
  reachable db ->
  findById eventId (events db) = Some event ->
  ev_entityType event = CARD -> ev_type event = card_deleted ->
  find (fun u => bool_decide (revertsEvent event u)) (events db) = None ->
  asCardState (d_before (ev_data event)) = Some st ->
  ((forall l, findById (cs_listId st) (lists db) = Some l ->
              list_boardId l <> cs_boardId st) ->
   undo env actor eventId db
   = (jsonError "Cannot restore: original list no longer exists" 409, db))
  /\ (forall l,
        findById (cs_listId st) (lists db) = Some l ->
        list_boardId l = cs_boardId st ->
        (is_Some (findById (cs_id st) (cards db)) ->
         undo env actor eventId db = (jsonOk UndoneNoop 200, db))
        /\ (findById (cs_id st) (cards db) = None ->
            findById (newId env 0) (events db) = None ->
            exists card db',
              undo env actor eventId db = (jsonOk (UndoneRestored card) 200, db')
              /\ findById (cs_id st) (cards db') = Some card
              /\ cards db' = cards db ++ [card]
              /\ lists db' = lists db
              /\ (exists u, events db' = events db ++ [u]
                            /\ revertsEvent event u)
              /\ card_id card = cs_id st
              /\ card_boardId card = cs_boardId st
              /\ card_listId card = cs_listId st
              /\ card_title card = default "Untitled" (cs_title st)
              /\ card_description card = default "" (cs_description st)
              /\ card_dueAt card = mjoin (cs_dueAt st)
              /\ card_position card = default 0%float (cs_position st)
              /\ card_createdAt card = now env
              /\ card_updatedAt card = now env
              /\ forall c,
                   d_before (ev_data event) = Some (snapCard c) ->
                   card = mkCard (card_id c) (card_boardId c) (card_listId c)
                            (card_title c) (card_description c) (card_dueAt c)
                            (card_position c) (now env) (now env))).
Proof.
  intros (Hfe & Hfl & _)%reachable_FkInv He Hty Het Hnot Hst. split.
  - intros Hlist. by eapply undo_deleted_unsupported.
  - intros l Hl Hlb. split.
    + intros [c Hc]. by eapply undo_deleted_exists.
    + intros Hc Hfresh.
      destruct (Hfl l (proj1 (findById_Some _ _ _ Hl))) as [b1 Hb1].
      rewrite Hlb in Hb1.
      destruct (Hfe event (proj1 (findById_Some _ _ _ He))) as [b2 Hb2].
      eexists _, _. split; [by eapply undo_deleted_restores|].
      cbn [cards lists events].
      split.
      { rewrite findById_app, Hc. unfold findById. simpl.
        by rewrite bool_decide_eq_true_2. }
      do 2 (split; [reflexivity|]).
      split; [eexists; split; [reflexivity|by repeat split]|].
      do 9 (split; [reflexivity|]).
      intros c Hsnap. rewrite Hsnap, asCardState_snapCard in Hst.
      injection Hst as <-. unfold restoredCard. simpl.
      by destruct (card_dueAt c).
Qed.

(** The undo of the deletion of "Fix bug" on the example board: the card
    comes back in Doing at position 0 with its id and title. *)
Lemma undo_deleted_card_witness :
  exists db',
    undo (envAt 50 "e") alice "d0" deleted
    = (jsonOk (UndoneRestored
                 (mkCard "b0" "a0" "a2" "Fix bug" "" None 0%float 50 50)) 200,
       db')
    /\ findById "b0" (cards db')
       = Some (mkCard "b0" "a0" "a2" "Fix bug" "" None 0%float 50 50).
Proof.
  destruct (proj2 (proj2 (undo_deleted_card (envAt 50 "e") alice "d0" deleted
                            _ _ reachable_deleted
                            ltac:(vm_compute; reflexivity)
                            ltac:(vm_compute; reflexivity)
                            ltac:(vm_compute; reflexivity)
                            ltac:(vm_compute; reflexivity)
                            ltac:(vm_compute; reflexivity))
                     (mkList "a2" "a0" "Doing" 2%float 10 10)
                     ltac:(vm_compute; reflexivity)
                     ltac:(vm_compute; reflexivity)))
    as (card & db' & Hundo & Hfind & _ & _ & _ & _ & _ & _ & _ & _ & _ & _
        & _ & _ & Hcard).
  - vm_compute. reflexivity.
  - vm_compute. reflexivity.
  - rewrite (Hcard (mkCard "b0" "a0" "a2" "Fix bug" "" None 0%float 20 30))
      in Hundo, Hfind by (vm_compute; reflexivity).
    exists db'. split; [exact Hundo|exact Hfind].
Defined.

End UndoDeleted.

Section UndoReverted.
Import Store Routes Position Undo System Spec Examples.

(** The patch the undo route computes holds the keys of the snapshot it
    reads, a [dueAt] that is [null] excepted. *)
Lemma beforePatchOf_fields s patch :
  beforePatchOf (Some s) = Some patch ->
  cp_listId patch = s_listId s
  /\ cp_title patch = s_title s
  /\ cp_description patch = s_description s
  /\ cp_dueAt patch = coalesceDueAt (s_dueAt s)
  /\ cp_position patch = s_position s.
Proof.
  unfold beforePatchOf, asCardState, asCardPatch.
  destruct (s_id s), (s_boardId s), (s_listId s) eqn:El; simpl;
    repeat case_match; intros [= <-]; simpl; by rewrite ?El.
Qed.

Lemma undo_revert_runs env actor eventId db event patch current l b :
  findById eventId (events db) = Some event ->
  ev_entityType event = CARD ->
  ev_type event = card_moved \/ ev_type event = card_updated ->
  find (fun u => bool_decide (revertsEvent event u)) (events db) = None ->
  beforePatchOf (d_before (ev_data event)) = Some patch ->
  findById (ev_entityId event) (cards db) = Some current ->
  let updated := applyCardUpdate (updateDataOf patch) (now env) current in
  findById (card_listId updated) (lists db) = Some l ->
  findById (ev_boardId event) (boards db) = Some b ->
  findById (newId env 0) (events db) = None ->
  undo env actor eventId db
  = (jsonOk (UndoneReverted updated) 200,
     mkDb (updateById (ev_boardId event) (updatedBoard None (now env))
             (boards db))
       (lists db)
       (updateById (ev_entityId event)
          (applyCardUpdate (updateDataOf patch) (now env)) (cards db))
       (events db
        ++ [undoneEvent env actor event (Some (snapCard current))
              (Some (snapCard updated))])).
Proof.
  intros He Hty Het Hnot Hp Hc updated Hl Hb Hfresh.
  unfold beforePatchOf in Hp. subst updated.
  cbn -[findById] in Hl.
  unfold undo, undo_tx. tx_unfold. tx_eval.
  rewrite bool_decide_eq_false_2 by (by intros []).
  destruct Het as [Het|Het]; rewrite Het, Hp; tx_eval; done.
Qed.

(** What an undo of a move or an update that succeeds did. *)
Lemma undo_revert_inv env actor eventId db event resp db' :
  findById eventId (events db) = Some event ->
  ev_type event = card_moved \/ ev_type event = card_updated ->
  undo env actor eventId db = (resp, db') ->
  isOk resp = true -> resp <> jsonOk UndoneNoop 200 ->
  exists patch current,
    beforePatchOf (d_before (ev_data event)) = Some patch
    /\ findById (ev_entityId event) (cards db) = Some current
    /\ resp = jsonOk (UndoneReverted
                        (applyCardUpdate (updateDataOf patch) (now env) current))
                200
    /\ cards db'
       = updateById (ev_entityId event)
           (applyCardUpdate (updateDataOf patch) (now env)) (cards db)
    /\ lists db' = lists db.
Proof.
  intros He Het. unfold undo. destruct (transaction _ _) as [r db1] eqn:Ht.
  unfold undo_tx in Ht. revert He Het.
  tx_open Ht; simpl; intros He Het [= <- <-] Hok Hnoop; try done;
    simplify_eq; try (destruct Het; congruence).
  all: eexists _, _; unfold beforePatchOf.
  all: split; [eassumption|]; split; [eassumption|]; done.
Qed.

(** On a database the routes can produce, the undo of a move or an update
    that was not undone before succeeds when the snapshot gives a patch,
    the card exists and the list the snapshot names exists. *)
Lemma undo_revert_succeeds env actor eventId db event s current :
  reachable db ->
  findById eventId (events db) = Some event ->
  ev_entityType event = CARD ->
  ev_type event = card_moved \/ ev_type event = card_updated ->
  find (fun u => bool_decide (revertsEvent event u)) (events db) = None ->
  d_before (ev_data event) = Some s ->
  is_Some (beforePatchOf (Some s)) ->
  findById (ev_entityId event) (cards db) = Some current ->
  (forall l, s_listId s = Some l -> l <> "" ->
             is_Some (findById l (lists db))) ->
  findById (newId env 0) (events db) = None ->
  exists card' db',
    undo env actor eventId db = (jsonOk (UndoneReverted card') 200, db').
Proof.
  intros (Hfe & _ & Hfc)%reachable_FkInv He Hty Het Hnot Hs [patch Hp] Hc
    Hlist Hfresh.
  destruct (Hfe event (proj1 (findById_Some _ _ _ He))) as [b Hb].
  destruct (Hfc current (proj1 (findById_Some _ _ _ Hc))) as [_ Hcl].
  pose proof (beforePatchOf_fields _ _ Hp) as (Hl & _).
  assert (is_Some (findById
                     (card_listId
                        (applyCardUpdate (updateDataOf patch) (now env) current))
                     (lists db))) as [l Hfl].
  { unfold applyCardUpdate, updateDataOf. cbn. rewrite Hl.
    destruct (s_listId s) as [l|] eqn:El; [|done].
    case_bool_decide; [done|]. by apply Hlist. }
  eexists _, _. eapply undo_revert_runs; try done. by rewrite Hs.
Qed.



End UndoReverted.
(** ** The realtime notifier *)

Section RealtimeFacts.
Import Store Realtime.
Context {Payload World : Type}.

Abbreviation Subscriber := (Subscriber Payload World).
Abbreviation Global := (Global Payload World).

(** The loop over the subscribers, each call wrapped in the [try] that
    ignores what it throws, runs to its end: it returns, and the world is
    the one after every call. *)
Lemma forOf_tryCatchIgnore (subs : list Subscriber) event (w : World) :
  forOf subs (fun cb => tryCatchIgnore (sub_call cb event)) w
  = (Returns, afterAllCalls event subs w).
Proof.
  revert w. induction subs as [|cb subs IH]; intros w; [done|].
  simpl. unfold tryCatchIgnore at 1.
  destruct (sub_call cb event w) as [[] w']; simpl; apply IH.
Qed.

(** Without the [try], the first callback that throws ends the loop: the
    callbacks after it are not called. *)
Lemma forOf_throw_stops (cb : Subscriber) (subs : list Subscriber) event
    (w : World) :
  (sub_call cb event w).1 = Throws ->
  forOf (cb :: subs) (fun cb => sub_call cb event) w
  = (Throws, (sub_call cb event w).2).
Proof. simpl. by destruct (sub_call cb event w) as [[] w']; intros. Qed.

(** C9.  [publishBoardEvent] returns normally whatever the callbacks do,
    the world it leaves is the one after calling every callback subscribed
    to the board, each once and in the order of subscription, those after
    a throwing one included, and the entries of the registry are the ones
    it started with. *)
Theorem publish_reaches_every_subscriber (boardId type : string)
    (payload : option Payload) (now : Date) (g : Global) (w : World) :
  let result := publishBoardEvent boardId type payload now g w in
  let subs := default [] (subscribersByBoard g !! boardId) in
  result.1.1 = Returns
  /\ subscribersByBoard result.1.2 = subscribersByBoard g
  /\ result.2
     = afterAllCalls (mkBoardEvent boardId type now payload) subs w.
Proof.
  unfold publishBoardEvent, subscribersByBoard, store.
  destruct g as [s|]; simpl.
  - destruct (s !! boardId) as [subs|] eqn:Es; simpl; [|done].
    case_bool_decide as Hlen; simpl.
    + apply nil_length_inv in Hlen. by subst.
    + rewrite forOf_tryCatchIgnore. done.
  - by rewrite lookup_empty.
Qed.

End RealtimeFacts.

Section RealtimeExample.
Import Store Realtime Examples.

(** All three callbacks run, the one after the throwing one too, and the
    publisher returns. *)
Lemma publish_reaches_every_subscriber_witness :
  let result :=
    publishBoardEvent "a0" "board.changed" None 100 threeSubscribers [] in
  result.1.1 = Returns /\ result.2 = [1; 2; 3]%nat
  /\ sub_ref <$> default [] (subscribersByBoard result.1.2 !! "a0")
     = [1; 2; 3]%nat.
Proof.
  destruct (publish_reaches_every_subscriber "a0" "board.changed" None 100
              threeSubscribers []) as (Hret & Hreg & Hworld).
  split; [exact Hret|]. split.
  - rewrite Hworld. vm_compute. reflexivity.
  - rewrite Hreg. vm_compute. reflexivity.
Defined.

(** After the second connection is closed its callback is not called
    any more. *)
Lemma unsubscribe_example :
  (publishBoardEvent "a0" "board.changed" None 100
     (unsubscribe "a0" (recorder 2 Throws) threeSubscribers) []).2
  = [1; 3]%nat.
Proof. vm_compute. done. Qed.

End RealtimeExample.
(** ** What the routes answer when there is nothing to act on *)

Section RouteErrors.
Import Store Routes Position Undo System Spec Examples.

Lemma list_findFirst_missing listId boardId db :
  (forall l, findById listId (lists db) = Some l ->
             list_boardId l <> boardId) ->
  list_findFirst_onBoard listId boardId db = Some (None, db).
Proof.
  intros Hl. unfold list_findFirst_onBoard, tx_read.
  destruct (findById listId (lists db)) as [l|] eqn:E; [|done].
  destruct (decide _) as [Hb|]; [|done]. by destruct (Hl l).
Qed.

(** An event no [card.undone] event of the log reverts is not found by the
    idempotency query of the undo route. *)
Lemma findUndoOf_None event (evs : list ActivityEvent) :
  (forall u, u ∈ evs -> ~ revertsEvent event u) ->
  find (fun u => bool_decide (revertsEvent event u)) evs = None.
Proof.
  intros Hno. destruct (find _ evs) as [u|] eqn:E; [|done].
  apply find_some in E as [Hin Hu]. apply bool_decide_eq_true in Hu.
  destruct (Hno u); [by apply list_elem_of_In|done].
Qed.

(** X1.  A request whose body the schema of its route admits, addressed
    to a row that does not exist, is answered 404 and changes nothing:
    renaming or deleting a board, clearing the activity of a board,
    renaming or deleting a list (also when the list exists on another
    board than the one of the URL), updating, moving or deleting a card,
    undoing an event.  The body is checked before the row is looked up: a
    body the schema refuses is answered 400, whether the row exists or
    not. *)
Theorem missing_target_is_404 env actor db :
  (forall boardId name,
     is_Some (PatchBoardSchema name) ->
     findById boardId (boards db) = None ->
     renameBoard env actor boardId name db
     = (jsonError "Board not found" 404, db))
  /\ (forall boardId,
        findById boardId (boards db) = None ->
        deleteBoard env actor boardId db
        = (jsonError "Board not found" 404, db))
  /\ (forall boardId listId title,
        is_Some (PatchListSchema title) ->
        (forall l, findById listId (lists db) = Some l ->
                   list_boardId l <> boardId) ->
        renameList env actor boardId listId title db
        = (jsonError "List not found" 404, db))
  /\ (forall boardId listId,
        (forall l, findById listId (lists db) = Some l ->
                   list_boardId l <> boardId) ->
        deleteList env actor boardId listId db
        = (jsonError "List not found" 404, db))
  /\ (forall cardId title description dueAt,
        is_Some (PatchCardSchema title description dueAt) ->
        findById cardId (cards db) = None ->
        updateCard env actor cardId title description dueAt db
        = (jsonError "Card not found" 404, db))
  /\ (forall cardId toListId beforeCardId afterCardId,
        MoveCardSchema toListId beforeCardId afterCardId = true ->
        findById cardId (cards db) = None ->
        moveCard env actor cardId toListId beforeCardId afterCardId db
        = (jsonError "Card not found" 404, db))
  /\ (forall cardId,
        findById cardId (cards db) = None ->
        deleteCard env actor cardId db
        = (jsonError "Card not found" 404, db))
  /\ (forall boardId,
        findById boardId (boards db) = None ->
        clearActivity env actor boardId db
        = (jsonError "Board not found" 404, db))
  /\ (forall eventId,
        findById eventId (events db) = None ->
        undo env actor eventId db = (jsonError "Event not found" 404, db))
  /\ (forall boardId name,
        PatchBoardSchema name = None ->
        renameBoard env actor boardId name db
        = (jsonError "Invalid request body" 400, db))
  /\ (forall boardId listId title,
        PatchListSchema title = None ->
        renameList env actor boardId listId title db
        = (jsonError "Invalid request body" 400, db))
  /\ (forall cardId title description dueAt,
        PatchCardSchema title description dueAt = None ->
        updateCard env actor cardId title description dueAt db
        = (jsonError "Invalid request body" 400, db))
  /\ (forall cardId toListId beforeCardId afterCardId,
        MoveCardSchema toListId beforeCardId afterCardId = false ->
        moveCard env actor cardId toListId beforeCardId afterCardId db
        = (jsonError "Invalid request body" 400, db)).
Proof.
  repeat split.
  - intros boardId name [name' Hs] H. unfold renameBoard, renameBoard_tx.
    rewrite Hs. tx_unfold. by tx_eval.
  - intros boardId H. unfold deleteBoard, deleteBoard_tx. tx_unfold. by tx_eval.
  - intros boardId listId title [title' Hs] H.
    unfold renameList, renameList_tx. rewrite Hs.
    unfold transaction, tx_bind. by rewrite list_findFirst_missing.
  - intros boardId listId H. unfold deleteList, deleteList_tx.
    unfold transaction, tx_bind. by rewrite list_findFirst_missing.
  - intros cardId title description dueAt [[title' description'] Hs] H.
    unfold updateCard, updateCard_tx. rewrite Hs. tx_unfold. by tx_eval.
  - intros cardId toListId b a Hs H. unfold moveCard, moveCard_tx.
    rewrite Hs. tx_unfold. by tx_eval.
  - intros cardId H. unfold deleteCard, deleteCard_tx. tx_unfold. by tx_eval.
  - intros boardId H. unfold clearActivity, clearActivity_tx.
    tx_unfold. by tx_eval.
  - intros eventId H. unfold undo, undo_tx. tx_unfold. by tx_eval.
  - intros boardId name Hs. unfold renameBoard. by rewrite Hs.
  - intros boardId listId title Hs. unfold renameList. by rewrite Hs.
  - intros cardId title description dueAt Hs. unfold updateCard.
    by rewrite Hs.
  - intros cardId toListId b a Hs. unfold moveCard. by rewrite Hs.
Qed.

(** On the example board: the list Todo addressed through another board,
    a card id that names nothing, and that same card id with a blank
    title. *)
Lemma missing_target_is_404_witness :
  renameList (envAt 30 "c") alice "zz" "a1" (Some "Backlog") withCard
  = (jsonError "List not found" 404, withCard)
  /\ deleteCard (envAt 30 "c") alice "b9" withCard
     = (jsonError "Card not found" 404, withCard)
  /\ updateCard (envAt 30 "c") alice "b9" (Some "   ") None None withCard
     = (jsonError "Invalid request body" 400, withCard).
Proof.
  destruct (missing_target_is_404 (envAt 30 "c") alice withCard)
    as (_ & _ & Hlist & _ & _ & _ & Hcard & _ & _ & _ & _ & Hbody & _).
  split; [|split].
  - apply Hlist; [eexists; vm_compute; reflexivity|].
    intros l Hl. vm_compute in Hl. injection Hl as <-.
    vm_compute. discriminate.
  - apply Hcard. vm_compute. reflexivity.
  - apply Hbody. vm_compute. reflexivity.
Defined.

(** X2.  A move whose [beforeCardId] or [afterCardId] names a card of
    another list than the destination is refused with 409, and nothing
    changes; the card to move may be any card that exists.  (The body is
    one the schema admits: no id in it is the empty text.) *)
Theorem moveCard_neighbor_of_another_list env actor cardId toListId
    beforeCardId afterCardId db card neighbor n :
  MoveCardSchema toListId beforeCardId afterCardId = true ->
  findById cardId (cards db) = Some card ->
  beforeCardId = Some neighbor \/ afterCardId = Some neighbor ->
  findById neighbor (cards db) = Some n ->
  card_listId n <> toListId ->
  moveCard env actor cardId toListId beforeCardId afterCardId db
  = (jsonError "beforeCardId/afterCardId must be in the destination list" 409,
     db).
Proof.
  intros Hs Hc Hwhich Hn Hlist.
  assert (neighbor <> "") as Hne.
  { apply MoveCardSchema_true in Hs as (_ & Hb & Ha).
    destruct Hwhich; [by apply Hb|by apply Ha]. }
  unfold moveCard. rewrite Hs. cbn [negb].
  unfold moveCard_tx, findNeighbor. tx_unfold. cbn. rewrite Hc.
  destruct Hwhich as [-> | ->].
  - rewrite bool_decide_eq_false_2 by done. cbn. rewrite Hn. cbn.
    destruct afterCardId as [a|]; [case_bool_decide|]; cbn;
      by rewrite bool_decide_eq_true_2.
  - destruct beforeCardId as [b|]; [case_bool_decide|]; cbn;
      rewrite ?bool_decide_eq_false_2 by done; cbn; rewrite ?Hn; cbn;
      rewrite ?(bool_decide_eq_true_2 (card_listId n <> toListId)) by done;
      rewrite ?orb_true_r; try done.
    destruct (findById b (cards db)) as [nb|]; cbn;
      [case_bool_decide; cbn|]; rewrite ?Hn; cbn;
      by rewrite ?(bool_decide_eq_true_2 (card_listId n <> toListId)).
Qed.

(** On the example board after the move, "Fix bug" is in Doing: a move to
    Done that names it as the neighbor is refused, here the move of the
    card itself. *)
Lemma moveCard_neighbor_of_another_list_witness :
  moveCard (envAt 35 "m") bob "b0" "a3" None (Some "b0") moved
  = (jsonError "beforeCardId/afterCardId must be in the destination list" 409,
     moved).
Proof.
  eapply (moveCard_neighbor_of_another_list (envAt 35 "m") bob "b0" "a3"
            None (Some "b0") moved _ "b0");
    [reflexivity|vm_compute; reflexivity|by right|vm_compute; reflexivity
    |vm_compute; discriminate].
Defined.

End RouteErrors.
(** ** More on moving a card *)

(** The id of a row that was found is the id it was looked up by. *)
Ltac tx_ids :=
  repeat match goal with
    | H : Store.findById ?i ?t = Some ?r |- _ =>
        lazymatch goal with
        | _ : Store.rowId r = i |- _ => fail
        | _ => pose proof (proj2 (findById_Some _ _ _ H))
        end
    end;
  unfold Store.rowId, Store.BoardRow_id, Store.ListRow_id, Store.CardRow_id,
    Store.ActivityEvent_id in *;
  simplify_eq.

Section MoveMore.
Import Store Routes Position Undo System Spec Examples Scenes.

Lemma reachable_twoBoards : reachable twoBoards.
Proof. apply reachable_step, reachable_withCard. Qed.

Lemma reachable_twoCards : reachable twoCards.
Proof. apply reachable_step, reachable_withCard. Qed.

(** A move that finds the card and neighbors in the destination list,
    step by step: the response and the database it leaves. *)
Lemma moveCard_runs env actor cardId toListId beforeCardId afterCardId db
    card l b nb na :
  MoveCardSchema toListId beforeCardId afterCardId = true ->
  findById cardId (cards db) = Some card ->
  findById toListId (lists db) = Some l ->
  findById (card_boardId card) (boards db) = Some b ->
  findById (newId env 0) (events db) = None ->
  findNeighbor beforeCardId db = Some (nb, db) ->
  findNeighbor afterCardId db = Some (na, db) ->
  wrongList nb toListId = false -> wrongList na toListId = false ->
  let p :=
    match nb, na with
    | None, None =>
        positionBetween
          (maxPosition (card_position <$> cardsOfList toListId db)) None
    | _, _ => positionBetween (card_position <$> nb) (card_position <$> na)
    end in
  let u := mkCardUpdate (Some toListId) (Some p) None None None in
  let card' := applyCardUpdate u (now env) card in
  moveCard env actor cardId toListId beforeCardId afterCardId db
  = (jsonOk (CardBody card') 200,
     mkDb (updateById (card_boardId card) (updatedBoard None (now env))
             (boards db))
       (lists db)
       (updateById cardId (applyCardUpdate u (now env)) (cards db))
       (events db
        ++ [mkActivity env 0 actor (card_boardId card) CARD cardId card_moved
              (mkData (Some (snapMove (card_listId card) (card_position card)))
                 (Some (snapMove toListId p)) None)])).
Proof.
  intros Hs Hc Hl Hb He Hnb Hna Hwb Hwa p u card'.
  pose proof (findById_Some _ _ _ Hc) as [_ Hid].
  unfold rowId, CardRow_id in Hid.
  unfold moveCard. rewrite Hs. cbn [negb].
  unfold moveCard_tx, transaction.
  unfold tx_bind at 1. unfold card_findUnique at 1, tx_read at 1. rewrite Hc.
  unfold tx_bind at 1. rewrite Hnb.
  unfold tx_bind at 1. rewrite Hna.
  rewrite Hwb, Hwa. subst p u card'.
  destruct nb as [nb|], na as [na|]; tx_unfold; tx_eval; rewrite ?Hid; done.
Qed.

Lemma findNeighbor_found id n db :
  id <> "" -> findById id (cards db) = Some n ->
  findNeighbor (Some id) db = Some (Some n, db).
Proof.
  intros Hne Hn. unfold findNeighbor, card_findUnique, tx_read.
  by rewrite bool_decide_eq_false_2, Hn.
Qed.

Lemma findNeighbor_unresolvable neighbor db :
  unresolvable db neighbor -> findNeighbor neighbor db = Some (None, db).
Proof.
  intros Hun. unfold findNeighbor, card_findUnique, tx_read, tx_ret.
  destruct neighbor as [id|]; [|done]. case_bool_decide; [done|].
  by rewrite (proj2 (Hun id eq_refl)).
Qed.

Lemma card_found_after_update db cardId card f :
  (forall c, card_id (f c) = card_id c) ->
  findById cardId (cards db) = Some card ->
  findById cardId (updateById cardId f (cards db)) = Some (f card).
Proof.
  intros Hf Hc. rewrite findById_update by exact Hf.
  by rewrite bool_decide_eq_true_2, Hc.
Qed.

(** X3.  A move that names neighbors in the destination list puts the card
    next to them.  With both neighbors the position is
    [positionBetween(before.position, after.position)], the midpoint
    unless it collapses on an endpoint; with [beforeCardId] alone it is
    that card's position plus 1; with [afterCardId] alone it is that
    card's position minus 1.  The move succeeds and the card is stored in
    the destination list at that position.  (The ids of the body have at
    least one character, as its schema asks.) *)
Theorem moveCard_next_to_neighbors env actor cardId toListId db card l :
  reachable db ->
  toListId <> "" ->
  findById cardId (cards db) = Some card ->
  findById toListId (lists db) = Some l ->
  findById (newId env 0) (events db) = None ->
  let placed beforeCardId afterCardId p :=
    exists card' db',
      moveCard env actor cardId toListId beforeCardId afterCardId db
      = (jsonOk (CardBody card') 200, db')
      /\ findById cardId (cards db') = Some card'
      /\ card_listId card' = toListId
      /\ card_position card' = p in
  (forall b nb a na,
     b <> "" -> findById b (cards db) = Some nb -> card_listId nb = toListId ->
     a <> "" -> findById a (cards db) = Some na -> card_listId na = toListId ->
     placed (Some b) (Some a)
       (positionBetween (Some (card_position nb)) (Some (card_position na))))
  /\ (forall b nb afterCardId,
        b <> "" -> findById b (cards db) = Some nb ->
        card_listId nb = toListId -> unresolvable db afterCardId ->
        placed (Some b) afterCardId (card_position nb + 1)%float)
  /\ (forall a na beforeCardId,
        a <> "" -> findById a (cards db) = Some na ->
        card_listId na = toListId -> unresolvable db beforeCardId ->
        placed beforeCardId (Some a) (card_position na - 1)%float).
Proof.
  intros Hreach Hto Hc Hl He placed.
  destruct (card_board_exists db cardId card Hreach Hc) as [bd Hb].
  assert (forall beforeCardId afterCardId nb na,
            MoveCardSchema toListId beforeCardId afterCardId = true ->
            findNeighbor beforeCardId db = Some (nb, db) ->
            findNeighbor afterCardId db = Some (na, db) ->
            wrongList nb toListId = false -> wrongList na toListId = false ->
            is_Some nb \/ is_Some na ->
            placed beforeCardId afterCardId
              (positionBetween (card_position <$> nb) (card_position <$> na)))
    as Hrun.
  { intros beforeCardId afterCardId nb na Hs Hnb Hna Hwb Hwa Hsome.
    eexists _, _. split; [by eapply moveCard_runs|]. cbn [cards].
    split; [by apply card_found_after_update|].
    split; [done|]. simpl.
    destruct nb, na; try done. by destruct Hsome as [[]|[]]. }
  assert (forall n, card_listId n = toListId ->
                    wrongList (Some n) toListId = false) as Hin.
  { intros n Hn. simpl. by rewrite bool_decide_eq_false_2 by auto. }
  split; [|split].
  - intros b nb a na Hb0 Hnb Hlb Ha0 Hna Hla.
    apply (Hrun (Some b) (Some a) (Some nb) (Some na));
      auto using findNeighbor_found.
    apply MoveCardSchema_true. split; [done|]. split; by intros id [= <-].
  - intros b nb afterCardId Hb0 Hnb Hlb Hun.
    apply (Hrun (Some b) afterCardId (Some nb) None);
      auto using findNeighbor_found, findNeighbor_unresolvable.
    apply MoveCardSchema_true. split; [done|].
    split; [by intros id [= <-]|]. intros id ->. by destruct (Hun id eq_refl).
  - intros a na beforeCardId Ha0 Hna Hla Hun.
    apply (Hrun beforeCardId (Some a) None (Some na));
      auto using findNeighbor_found, findNeighbor_unresolvable.
    apply MoveCardSchema_true. split; [done|].
    split; [|by intros id [= <-]]. intros id ->. by destruct (Hun id eq_refl).
Qed.

(** With "Fix bug" (position 1) and "Write docs" (position 2) in Todo,
    "Write docs" moved before "Fix bug" gets position 0, and moved behind
    it gets position 2. *)
Lemma moveCard_next_to_neighbors_witness :
  (exists card' db',
     moveCard (envAt 40 "m") alice "q0" "a1" None (Some "b0") twoCards
     = (jsonOk (CardBody card') 200, db')
     /\ findById "q0" (cards db') = Some card'
     /\ card_listId card' = "a1"
     /\ card_position card' = 0%float)
  /\ (exists card' db',
        moveCard (envAt 40 "m") alice "q0" "a1" (Some "b0") None twoCards
        = (jsonOk (CardBody card') 200, db')
        /\ findById "q0" (cards db') = Some card'
        /\ card_listId card' = "a1"
        /\ card_position card' = 2%float).
Proof.
  destruct (moveCard_next_to_neighbors (envAt 40 "m") alice "q0" "a1" twoCards
              _ _ reachable_twoCards ltac:(discriminate)
              ltac:(vm_compute; reflexivity) ltac:(vm_compute; reflexivity)
              ltac:(vm_compute; reflexivity))
    as (_ & Hbefore & Hafter).
  split.
  - apply (Hafter "b0" (mkCard "b0" "a0" "a1" "Fix bug" "" None 1%float 20 20)
             None); [done|vm_compute; reflexivity|reflexivity|done].
  - apply (Hbefore "b0"
             (mkCard "b0" "a0" "a1" "Fix bug" "" None 1%float 20 20) None);
      [done|vm_compute; reflexivity|reflexivity|done].
Defined.

(** What a move that succeeds did. *)
Lemma moveCard_inv env actor cardId toListId beforeCardId afterCardId db
    card' db' :
  moveCard env actor cardId toListId beforeCardId afterCardId db
  = (jsonOk (CardBody card') 200, db') ->
  exists card p,
    findById cardId (cards db) = Some card
    /\ card' = applyCardUpdate
                 (mkCardUpdate (Some toListId) (Some p) None None None)
                 (now env) card
    /\ db' = mkDb (updateById (card_boardId card) (updatedBoard None (now env))
                     (boards db))
               (lists db)
               (updateById cardId
                  (applyCardUpdate
                     (mkCardUpdate (Some toListId) (Some p) None None None)
                     (now env)) (cards db))
               (events db
                ++ [mkActivity env 0 actor (card_boardId card) CARD cardId
                      card_moved
                      (mkData
                         (Some (snapMove (card_listId card)
                                  (card_position card)))
                         (Some (snapMove toListId p)) None)])
    /\ findById (newId env 0) (events db) = None
    /\ is_Some (findById (card_boardId card) (boards db))
    /\ is_Some (findById toListId (lists db)).
Proof.
  unfold moveCard, invalidBody. destruct (negb _); [done|].
  destruct (transaction _ _) as [r db1] eqn:Ht.
  unfold moveCard_tx in Ht.
  tx_open Ht; simpl; intros [= <- <-]; tx_ids.
  all: eexists _, _; split; [reflexivity|]; split; [reflexivity|].
  all: split; [reflexivity|].
  all: repeat split; first [assumption | by eexists].
Qed.

(** X4.  A move that succeeds writes the list, the position and the
    update stamp of the moved card and nothing else of the cards and
    lists: the card keeps its id, board, title, description, due date and
    creation time, every other card is as it was, and so is every list. *)
Theorem moveCard_frame env actor cardId toListId beforeCardId afterCardId db
    card' db' :
  moveCard env actor cardId toListId beforeCardId afterCardId db
  = (jsonOk (CardBody card') 200, db') ->
  exists card,
    findById cardId (cards db) = Some card
    /\ findById cardId (cards db') = Some card'
    /\ card_listId card' = toListId
    /\ card_updatedAt card' = now env
    /\ card_id card' = card_id card
    /\ card_boardId card' = card_boardId card
    /\ card_title card' = card_title card
    /\ card_description card' = card_description card
    /\ card_dueAt card' = card_dueAt card
    /\ card_createdAt card' = card_createdAt card
    /\ (forall id, id <> cardId ->
                   findById id (cards db') = findById id (cards db))
    /\ lists db' = lists db.
Proof.
  intros (card & p & Hc & -> & -> & _)%moveCard_inv.
  exists card. split; [done|]. cbn [cards lists]. split.
  { by apply card_found_after_update. }
  do 8 (split; [reflexivity|]). split; [|done].
  intros id Hid. rewrite findById_update by done.
  by rewrite bool_decide_eq_false_2.
Qed.

(** The move of "Write docs" behind "Fix bug" leaves "Fix bug" alone. *)
Lemma moveCard_frame_witness :
  findById "b0"
    (cards (moveCard (envAt 40 "m") alice "q0" "a1" (Some "b0") None
              twoCards).2)
  = findById "b0" (cards twoCards).
Proof.
  destruct (moveCard_frame (envAt 40 "m") alice "q0" "a1" (Some "b0") None
              twoCards _ _ ltac:(vm_compute; reflexivity))
    as (card & _ & _ & _ & _ & _ & _ & _ & _ & _ & _ & Hothers & _).
  by apply Hothers.
Defined.

(** X5.  The move route does not ask whether the destination list is on
    the board of the card: a move to a list of another board succeeds, the
    card keeps its [boardId], and afterwards the board of the card is not
    the board of its list. *)
Theorem moveCard_to_a_list_of_another_board env actor cardId toListId db
    card l :
  reachable db ->
  toListId <> "" ->
  findById cardId (cards db) = Some card ->
  findById toListId (lists db) = Some l ->
  list_boardId l <> card_boardId card ->
  findById (newId env 0) (events db) = None ->
  exists card' db',
    moveCard env actor cardId toListId None None db
    = (jsonOk (CardBody card') 200, db')
    /\ findById cardId (cards db') = Some card'
    /\ findById (card_listId card') (lists db') = Some l
    /\ card_boardId card' = card_boardId card
    /\ list_boardId l <> card_boardId card'.
Proof.
  intros Hreach Hto Hc Hl Hother He.
  destruct (card_board_exists db cardId card Hreach Hc) as [bd Hb].
  eexists _, _. split.
  { eapply (moveCard_runs _ _ _ _ None None); try done.
    by apply MoveCardSchema_true. }
  cbn [cards lists]. split; [by apply card_found_after_update|].
  done.
Qed.

(** "Fix bug" of the board Sprint is moved to the first list of the board
    Personal. *)
Lemma moveCard_to_a_list_of_another_board_witness :
  exists card' db',
    moveCard (envAt 40 "m") alice "b0" "p1" None None twoBoards
    = (jsonOk (CardBody card') 200, db')
    /\ card_boardId card' = "a0" /\ card_listId card' = "p1"
    /\ (list_boardId <$> findById "p1" (lists db')) = Some "p0".
Proof.
  destruct (moveCard_to_a_list_of_another_board (envAt 40 "m") alice "b0" "p1"
              twoBoards
              (mkCard "b0" "a0" "a1" "Fix bug" "" None 1%float 20 20)
              (mkList "p1" "p0" "Todo" 1%float 25 25)
              reachable_twoBoards ltac:(discriminate)
              ltac:(vm_compute; reflexivity) ltac:(vm_compute; reflexivity)
              ltac:(vm_compute; discriminate) ltac:(vm_compute; reflexivity))
    as (card' & db' & Hmove & Hfind & Hlist & Hboard & _).
  exists card', db'. split; [exact Hmove|]. split; [exact Hboard|].
  assert (card' = mkCard "b0" "a0" "p1" "Fix bug" "" None 0%float 20 40)
    as -> by (vm_compute in Hmove; congruence).
  split; [reflexivity|]. simpl in Hlist. by rewrite Hlist.
Defined.

End MoveMore.
(** ** Creating boards, lists and cards; updating a card *)

Section TablesMore.
Import Store.
Context {R : Type} `{HasId R}.

Lemma findById_singleton id (x : R) :
  findById id [x] = if bool_decide (rowId x = id) then Some x else None.
Proof. reflexivity. Qed.

Lemma filter_none (P : R -> Prop) `{forall r, Decision (P r)} (t : list R) :
  (forall r, r ∈ t -> ~ P r) -> filter P t = [].
Proof.
  induction t as [|x t IH]; intros Hno; [done|].
  rewrite filter_cons_False by (apply Hno; left).
  apply IH. intros r Hr. apply Hno. by right.
Qed.

End TablesMore.

(** Run a handler forward through the rows it has created itself. *)
Ltac tx_fresh :=
  repeat first
    [ progress cbn -[Store.findById Store.maxPosition
                     Position.positionBetween Store.cardsOfList
                     Store.listsOfBoard find]
    | rewrite findById_app
    | rewrite findById_singleton
    | rewrite bool_decide_eq_true_2 by reflexivity
    | rewrite bool_decide_eq_false_2 by (cbn; congruence)
    | match goal with
      | H : Store.findById _ _ = _ |- _ => rewrite H
      end ].

Section CreateRoutes.
Import Store Routes Position Undo System Spec Examples Scenes Text.

Lemma createCard_runs env actor boardId listId title description dueAt db b l
    title' description' :
  CreateCardSchema title description = Some (title', description') ->
  findById boardId (boards db) = Some b ->
  findById listId (lists db) = Some l ->
  findById (newId env 0) (cards db) = None ->
  findById (newId env 1) (events db) = None ->
  let last := maxPosition (card_position <$> cardsOfList listId db) in
  let card := mkCard (newId env 0) boardId listId title'
                (default "" description') dueAt (positionAfter last) (now env)
                (now env) in
  createCard env actor boardId listId title description dueAt db
  = (jsonOk (CardBody card) 201,
     mkDb (updateById boardId (updatedBoard None (now env)) (boards db))
       (lists db) (cards db ++ [card])
       (events db
        ++ [mkActivity env 1 actor boardId CARD (newId env 0) card_created
              (mkData None (Some (snapCard card)) None)])).
Proof.
  intros Hs Hb Hl Hc He last card.
  unfold createCard. rewrite Hs.
  unfold createCard_tx. tx_unfold. tx_eval. done.
Qed.

Lemma createList_runs env actor boardId title db b title' :
  CreateListSchema title = Some title' ->
  findById boardId (boards db) = Some b ->
  findById (newId env 0) (lists db) = None ->
  findById (newId env 1) (events db) = None ->
  let last := maxPosition (list_position <$> listsOfBoard boardId db) in
  let l := mkList (newId env 0) boardId title' (positionAfter last) (now env)
             (now env) in
  createList env actor boardId title db
  = (jsonOk (ListBody l) 201,
     mkDb (updateById boardId (updatedBoard None (now env)) (boards db))
       (lists db ++ [l]) (cards db)
       (events db
        ++ [mkActivity env 1 actor boardId LIST (newId env 0) list_created
              (mkData None (Some (snapList l)) None)])).
Proof.
  intros Hs Hb Hl He last l.
  unfold createList. rewrite Hs.
  unfold createList_tx. tx_unfold. tx_eval. done.
Qed.

Lemma createBoard_runs env actor name db name' :
  CreateBoardSchema name = Some name' ->
  findById (newId env 0) (boards db) = None ->
  NoDup (newId env <$> [1; 2; 3]%nat) ->
  Forall (fun k => findById (newId env k) (lists db) = None) [1; 2; 3]%nat ->
  NoDup (newId env <$> [4; 5; 6; 7]%nat) ->
  Forall (fun k => findById (newId env k) (events db) = None)
    [4; 5; 6; 7]%nat ->
  let board := mkBoard (newId env 0) (default "My Board" name') (now env)
                 (now env) in
  let ls := imap (fun i '(title, position) =>
                    mkList (newId env (1 + i)) (newId env 0) title position
                      (now env) (now env)) defaultLists in
  createBoard env actor name db
  = (jsonOk (BoardAndLists board ls) 201,
     mkDb (boards db ++ [board]) (lists db ++ ls) (cards db)
       (events db
        ++ mkActivity env 4 actor (newId env 0) BOARD (newId env 0)
             board_created (mkData None (Some (snapBoard board)) None)
           :: listCreatedEvents env 5 actor (newId env 0) ls)).
Proof.
  intros Hs Hb Hnl Hl Hne He board ls.
  apply NoDup_cons in Hnl as [[H12 H13]%not_elem_of_cons Hnl].
  apply NoDup_cons in Hnl as [H23%not_elem_of_cons _].
  apply not_elem_of_cons in H13 as [H13 _]. destruct H23 as [H23 _].
  apply NoDup_cons in Hne
    as [[H45 [H46 [H47 _]%not_elem_of_cons]%not_elem_of_cons]%not_elem_of_cons
        Hne].
  apply NoDup_cons in Hne
    as [[H56 [H57 _]%not_elem_of_cons]%not_elem_of_cons Hne].
  apply NoDup_cons in Hne as [[H67 _]%not_elem_of_cons _].
  apply Forall_cons in Hl as [Hl1 [Hl2 [Hl3 _]%Forall_cons]%Forall_cons].
  apply Forall_cons in He
    as [He4 [He5 [He6 [He7 _]%Forall_cons]%Forall_cons]%Forall_cons].
  unfold createBoard. rewrite Hs. unfold createBoard_tx, defaultLists.
  cbn [createDefaultLists]. unfold listCreatedEvents.
  tx_unfold. tx_fresh. tx_unfold. tx_fresh.
  subst board ls. cbn.
  unfold set_events, set_lists, set_boards; cbn.
  by rewrite <- !app_assoc.
Qed.

(** The last list of a board, as the list creation route selects it. *)
Lemma list_lastPosition_last boardId db m :
  maxPosition (list_position <$> listsOfBoard boardId db) = Some m ->
  (exists l, l ∈ listsOfBoard boardId db /\ list_position l = m)
  /\ (forall l, l ∈ listsOfBoard boardId db ->
                (m <? list_position l)%float = false).
Proof.
  intros Hm. split.
  - apply maxPosition_elem_of, list_elem_of_fmap in Hm as (l & -> & Hin).
    eauto.
  - intros l Hin. apply (maxPosition_greatest _ _ Hm).
    apply list_elem_of_fmap. eauto.
Qed.

(** X6.  Creating a card.  The body is checked first: the title is
    trimmed and has to have 1 to 120 characters then, a description has to
    have at most 10000; a body that fails is answered 400 and nothing
    changes.  A body that passes, for a list that exists and a board that
    exists, appends the card to the list: the new card is the last row of
    the cards, it has the trimmed title and the given due date, the
    description "" when none is given, and its position is 1 when the list
    holds no card and otherwise the greatest position of the list plus 1.
    The route does not ask whether the list is on the board it is
    given. *)
Theorem createCard_appends env actor boardId listId title description dueAt
    db :
  (is_Some (CreateCardSchema title description)
   <-> (1 <= String.length (trim title) <= 120)%nat
       /\ forall d, description = Some d -> (String.length d <= 10000)%nat)
  /\ (CreateCardSchema title description = None ->
      createCard env actor boardId listId title description dueAt db
      = (jsonError "Invalid request body" 400, db))
  /\ (is_Some (CreateCardSchema title description) ->
      is_Some (findById boardId (boards db)) ->
      is_Some (findById listId (lists db)) ->
      findById (newId env 0) (cards db) = None ->
      findById (newId env 1) (events db) = None ->
      exists card db',
        createCard env actor boardId listId title description dueAt db
        = (jsonOk (CardBody card) 201, db')
        /\ cards db' = cards db ++ [card]
        /\ lists db' = lists db
        /\ card_id card = newId env 0
        /\ card_boardId card = boardId
        /\ card_listId card = listId
        /\ card_title card = trim title
        /\ card_description card = default "" description
        /\ card_dueAt card = dueAt
        /\ (cardsOfList listId db = [] -> card_position card = 1%float)
        /\ (forall m,
              maxPosition (card_position <$> cardsOfList listId db) = Some m ->
              card_position card = (m + 1)%float
              /\ (exists c, c ∈ cardsOfList listId db /\ card_position c = m)
              /\ (forall c, c ∈ cardsOfList listId db ->
                            (m <? card_position c)%float = false))).
Proof.
  split; [|split].
  - split.
    + intros [[t d] (_ & _ & Hs)%CreateCardSchema_Some]. exact Hs.
    + intros [Ht Hd]. exists (trim title, description).
      by apply CreateCardSchema_Some.
  - intros Hs. unfold createCard. by rewrite Hs.
  - intros [[t d] Hs] [b Hb] [l Hl] Hc He.
    pose proof (proj1 (CreateCardSchema_Some _ _ _ _) Hs) as (-> & -> & _).
    eexists _, _. split; [by eapply createCard_runs|]. cbn.
    do 8 (split; [reflexivity|]). split.
    + by intros ->.
    + intros m Hm. rewrite Hm. split; [done|].
      by apply card_lastPosition_last.
Qed.

(** "Write docs", typed with a space before and after, is created in Todo
    of the example board, behind "Fix bug" at position 1: it gets the
    trimmed title and position 2. *)
Lemma createCard_appends_witness :
  exists card db',
    createCard (envAt 26 "q") bob "a0" "a1" " Write docs " None (Some 900)
      withCard
    = (jsonOk (CardBody card) 201, db')
    /\ card_title card = "Write docs"
    /\ card_description card = ""
    /\ card_position card = 2%float.
Proof.
  destruct (proj2 (proj2 (createCard_appends (envAt 26 "q") bob "a0" "a1"
                            " Write docs " None (Some 900) withCard)))
    as (card & db' & Hcreate & _ & _ & _ & _ & _ & Htitle & Hdesc & _ & _
        & Hpos);
    [eexists; vm_compute; reflexivity|eexists; vm_compute; reflexivity
    |eexists; vm_compute; reflexivity
    |vm_compute; reflexivity|vm_compute; reflexivity|].
  exists card, db'. split; [exact Hcreate|]. split; [exact Htitle|].
  split; [exact Hdesc|]. apply (Hpos 1%float). vm_compute. reflexivity.
Defined.

(** X7.  Creating a list.  The title is trimmed and has to have 1 to 80
    characters then; otherwise the answer is 400 and nothing changes.
    With such a title, on a board that exists, the list is appended to the
    board under the trimmed title: its position is 1 when the board has no
    list and otherwise the greatest position among the lists of the board
    plus 1; the lists that exist and the cards are left as they are. *)
Theorem createList_appends env actor boardId title db :
  (is_Some (CreateListSchema title)
   <-> (1 <= String.length (trim title) <= 80)%nat)
  /\ (CreateListSchema title = None ->
      createList env actor boardId title db
      = (jsonError "Invalid request body" 400, db))
  /\ (is_Some (CreateListSchema title) ->
      is_Some (findById boardId (boards db)) ->
      findById (newId env 0) (lists db) = None ->
      findById (newId env 1) (events db) = None ->
      exists l db',
        createList env actor boardId title db = (jsonOk (ListBody l) 201, db')
        /\ lists db' = lists db ++ [l]
        /\ cards db' = cards db
        /\ list_id l = newId env 0
        /\ list_boardId l = boardId
        /\ list_title l = trim title
        /\ (listsOfBoard boardId db = [] -> list_position l = 1%float)
        /\ (forall m,
              maxPosition (list_position <$> listsOfBoard boardId db)
              = Some m ->
              list_position l = (m + 1)%float
              /\ (exists l0, l0 ∈ listsOfBoard boardId db
                              /\ list_position l0 = m)
              /\ (forall l0, l0 ∈ listsOfBoard boardId db ->
                             (m <? list_position l0)%float = false))).
Proof.
  unfold CreateListSchema. split; [|split].
  - split.
    + by intros [t [_ Hs]%trimmedText_Some].
    + intros Ht. exists (trim title). by apply trimmedText_Some.
  - intros Hs. unfold createList, CreateListSchema. by rewrite Hs.
  - intros [t Hs] [b Hb] Hl He.
    pose proof (proj1 (trimmedText_Some _ _ _) Hs) as [-> _].
    eexists _, _. split; [by eapply createList_runs|]. cbn.
    do 5 (split; [reflexivity|]). split.
    + by intros ->.
    + intros m Hm. rewrite Hm. split; [done|].
      by apply list_lastPosition_last.
Qed.

(** A fourth list on the example board, behind Done at position 3; a
    title of spaces is refused. *)
Lemma createList_appends_witness :
  (exists l db',
     createList (envAt 27 "r") bob "a0" "Review" withCard
     = (jsonOk (ListBody l) 201, db')
     /\ list_position l = 4%float)
  /\ createList (envAt 27 "r") bob "a0" "   " withCard
     = (jsonError "Invalid request body" 400, withCard).
Proof.
  split.
  - destruct (proj2 (proj2 (createList_appends (envAt 27 "r") bob "a0"
                              "Review" withCard)))
      as (l & db' & Hcreate & _ & _ & _ & _ & _ & _ & Hpos);
      [eexists; vm_compute; reflexivity|eexists; vm_compute; reflexivity
      |vm_compute; reflexivity|vm_compute; reflexivity|].
    exists l, db'. split; [exact Hcreate|].
    apply (Hpos 3%float). vm_compute. reflexivity.
  - apply (proj1 (proj2 (createList_appends (envAt 27 "r") bob "a0" "   "
                           withCard))).
    vm_compute. reflexivity.
Defined.

(** X8.  Creating a board.  A name, when one is given, is trimmed and has
    to have 1 to 80 characters then; otherwise the answer is 400 and
    nothing changes.  With such a name or with none, on a database the
    routes can produce and with ids that are not in use, the creation
    succeeds with status 201: the board has the trimmed name, or "My
    Board" when none is given; the lists of the new board are exactly
    Todo, Doing and Done, at the positions 1, 2 and 3; it has no card; the
    boards, lists and cards that exist are left as they are. *)
Theorem createBoard_default_lists env actor name db :
  (is_Some (CreateBoardSchema name)
   <-> forall n, name = Some n -> (1 <= String.length (trim n) <= 80)%nat)
  /\ (CreateBoardSchema name = None ->
      createBoard env actor name db
      = (jsonError "Invalid request body" 400, db))
  /\ (is_Some (CreateBoardSchema name) ->
      reachable db ->
      findById (newId env 0) (boards db) = None ->
      NoDup (newId env <$> [1; 2; 3]%nat) ->
      Forall (fun k => findById (newId env k) (lists db) = None)
        [1; 2; 3]%nat ->
      NoDup (newId env <$> [4; 5; 6; 7]%nat) ->
      Forall (fun k => findById (newId env k) (events db) = None)
        [4; 5; 6; 7]%nat ->
      exists board todo doing done' db',
        createBoard env actor name db
        = (jsonOk (BoardAndLists board [todo; doing; done']) 201, db')
        /\ board_name board = default "My Board" (trim <$> name)
        /\ boards db' = boards db ++ [board]
        /\ lists db' = lists db ++ [todo; doing; done']
        /\ cards db' = cards db
        /\ listsOfBoard (board_id board) db' = [todo; doing; done']
        /\ (list_title todo, list_position todo) = ("Todo", 1%float)
        /\ (list_title doing, list_position doing) = ("Doing", 2%float)
        /\ (list_title done', list_position done') = ("Done", 3%float)
        /\ (forall c, c ∈ cards db' -> card_boardId c <> board_id board)).
Proof.
  split; [|split].
  - split.
    + by intros [n [_ Hs]%CreateBoardSchema_Some].
    + intros Hn. exists (trim <$> name). by apply CreateBoardSchema_Some.
  - intros Hs. unfold createBoard. by rewrite Hs.
  - intros [n Hs] Hreach Hb Hnl Hl Hne He.
    pose proof (proj1 (CreateBoardSchema_Some _ _) Hs) as [-> _].
    apply reachable_FkInv in Hreach as (_ & Hfl & Hfc).
    eexists _, _, _, _, _. split; [by eapply createBoard_runs|]. cbn.
    do 4 (split; [reflexivity|]). split; [|split; [done|]; split; [done|]].
    + unfold listsOfBoard. cbn. rewrite filter_app.
      rewrite (filter_none _ (lists db));
        [by rewrite !filter_cons_True by done|].
      intros l Hin Hlb. destruct (Hfl l Hin) as [b' Hb'].
      rewrite Hlb in Hb'. congruence.
    + split; [done|]. intros c Hin Hcb. destruct (Hfc c Hin) as [[b' Hb'] _].
      rewrite Hcb in Hb'. congruence.
Qed.

(** The board "Personal" beside the example board. *)
Lemma createBoard_default_lists_witness :
  (list_title <$> listsOfBoard "p0" twoBoards) = ["Todo"; "Doing"; "Done"].
Proof.
  destruct (proj2 (proj2 (createBoard_default_lists (envAt 25 "p") bob
                            (Some "Personal") withCard))
              ltac:(eexists; vm_compute; reflexivity) reachable_withCard)
    as (board & todo & doing & done' & db' & Hcreate & _ & _ & _ & _ & Hlists
        & Ht & Hd & Hn & _).
  - vm_compute. reflexivity.
  - apply (bool_decide_unpack _). vm_compute. reflexivity.
  - apply (bool_decide_unpack _). vm_compute. reflexivity.
  - apply (bool_decide_unpack _). vm_compute. reflexivity.
  - apply (bool_decide_unpack _). vm_compute. reflexivity.
  - assert (db' = twoBoards) as ->.
    { change twoBoards
        with (createBoard (envAt 25 "p") bob (Some "Personal") withCard).2.
      by rewrite Hcreate. }
    assert (board_id board = "p0") as Hid.
    { vm_compute in Hcreate. injection Hcreate. intros. by subst. }
    rewrite Hid in Hlists. rewrite Hlists. simpl.
    injection Ht as -> _. injection Hd as -> _. by injection Hn as -> _.
Defined.

End CreateRoutes.

Section UpdateCard.
Import Store Routes Position Undo System Spec Examples Scenes Text.

Lemma updateCard_runs env actor cardId title description dueAt db card b
    title' description' :
  PatchCardSchema title description dueAt = Some (title', description') ->
  findById cardId (cards db) = Some card ->
  is_Some (findById (card_listId card) (lists db)) ->
  findById (card_boardId card) (boards db) = Some b ->
  findById (newId env 0) (events db) = None ->
  let u := mkCardUpdate None None title' description' dueAt in
  let card' := applyCardUpdate u (now env) card in
  updateCard env actor cardId title description dueAt db
  = (jsonOk (CardBody card') 200,
     mkDb (updateById (card_boardId card) (updatedBoard None (now env))
             (boards db))
       (lists db)
       (updateById cardId (applyCardUpdate u (now env)) (cards db))
       (events db
        ++ [mkActivity env 0 actor (card_boardId card) CARD (card_id card)
              card_updated
              (mkData (Some (snapCardNoStamps card)) (Some (snapCard card'))
                 None)])).
Proof.
  intros Hs Hc [l Hl] Hb He u card'. unfold updateCard. rewrite Hs.
  unfold updateCard_tx. tx_unfold. tx_eval. done.
Qed.

Lemma updateCard_inv env actor cardId title description dueAt db card' db' :
  updateCard env actor cardId title description dueAt db
  = (jsonOk (CardBody card') 200, db') ->
  exists card,
    PatchCardSchema title description dueAt
    = Some (trim <$> title, description)
    /\ findById cardId (cards db) = Some card
    /\ card' = applyCardUpdate
                 (mkCardUpdate None None (trim <$> title) description dueAt)
                 (now env) card
    /\ cards db'
       = updateById cardId
           (applyCardUpdate
              (mkCardUpdate None None (trim <$> title) description dueAt)
              (now env)) (cards db)
    /\ lists db' = lists db.
Proof.
  unfold updateCard, invalidBody.
  destruct (PatchCardSchema _ _ _) as [[t d]|] eqn:Hs; [|done].
  pose proof (proj1 (PatchCardSchema_Some _ _ _ _ _) Hs) as (-> & -> & _).
  destruct (transaction _ _) as [r db1] eqn:Ht.
  unfold updateCard_tx in Ht.
  tx_open Ht; simpl; intros [= <- <-]; tx_ids.
  eexists. split; [reflexivity|]. split; [reflexivity|]. by repeat split.
Qed.

(** X9.  The card PATCH route writes the keys of its body and nothing
    else.  The body is checked first: it has to have at least one of
    [title], [description], [dueAt]; a title is trimmed and has to have 1
    to 120 characters then; a description has to have at most 10000.  A
    body that fails is refused with 400 and nothing changes.  On a
    database the routes can produce, a body that passes, for a card that
    exists, succeeds.  After a success the card has the given values in
    the fields that were given (the title trimmed; [dueAt] given as [null]
    clears the due date), and its other fields are as before: the list,
    the position, the id, the board and the creation time are never
    written; every other card and every list is as it was. *)
Theorem updateCard_patch env actor cardId title description dueAt db :
  (is_Some (PatchCardSchema title description dueAt)
   <-> (title <> None \/ description <> None \/ dueAt <> None)
       /\ (forall t, title = Some t ->
                     (1 <= String.length (trim t) <= 120)%nat)
       /\ forall d, description = Some d -> (String.length d <= 10000)%nat)
  /\ (PatchCardSchema title description dueAt = None ->
      updateCard env actor cardId title description dueAt db
      = (jsonError "Invalid request body" 400, db))
  /\ (forall card,
        reachable db ->
        is_Some (PatchCardSchema title description dueAt) ->
        findById cardId (cards db) = Some card ->
        findById (newId env 0) (events db) = None ->
        exists card' db',
          updateCard env actor cardId title description dueAt db
          = (jsonOk (CardBody card') 200, db'))
  /\ (forall card' db',
        updateCard env actor cardId title description dueAt db
        = (jsonOk (CardBody card') 200, db') ->
        exists card,
          findById cardId (cards db) = Some card
          /\ findById cardId (cards db') = Some card'
          /\ card_title card' = default (card_title card) (trim <$> title)
          /\ card_description card'
             = default (card_description card) description
          /\ card_dueAt card' = default (card_dueAt card) dueAt
          /\ card_listId card' = card_listId card
          /\ card_position card' = card_position card
          /\ card_id card' = card_id card
          /\ card_boardId card' = card_boardId card
          /\ card_createdAt card' = card_createdAt card
          /\ card_updatedAt card' = now env
          /\ (forall id, id <> cardId ->
                         findById id (cards db') = findById id (cards db))
          /\ lists db' = lists db).
Proof.
  split; [|split; [|split]].
  - split.
    + intros [[t d] (_ & _ & Hs)%PatchCardSchema_Some]. exact Hs.
    + intros Hs. exists (trim <$> title, description).
      by apply PatchCardSchema_Some.
  - intros Hs. unfold updateCard. by rewrite Hs.
  - intros card Hreach [[t d] Hs] Hc He.
    destruct (card_board_exists db cardId card Hreach Hc) as [b Hb].
    apply reachable_FkInv in Hreach as (_ & _ & Hfc).
    destruct (Hfc card (proj1 (findById_Some _ _ _ Hc))) as [_ Hl].
    eexists _, _. by eapply updateCard_runs.
  - intros card' db' (card & _ & Hc & -> & Hcards & Hlists)%updateCard_inv.
    exists card. split; [done|]. rewrite Hcards. split.
    { by apply card_found_after_update. }
    do 9 (split; [reflexivity|]). split; [|done].
    intros id Hid. rewrite findById_update by done.
    by rewrite bool_decide_eq_false_2.
Qed.

(** Bob retitles "Fix bug" after it was moved to Doing, with a space
    typed after the title: the card gets the trimmed title and stays in
    Doing at position 0. *)
Lemma updateCard_patch_witness :
  exists card',
    (updateCard (envAt 60 "f") bob "b0" (Some "Fix the bug ") None None
       moved).1 = jsonOk (CardBody card') 200
    /\ card_title card' = "Fix the bug"
    /\ card_listId card' = "a2" /\ card_position card' = 0%float.
Proof.
  destruct (updateCard_patch (envAt 60 "f") bob "b0" (Some "Fix the bug ")
              None None moved) as (_ & _ & Hruns & Hframe).
  destruct (Hruns (mkCard "b0" "a0" "a2" "Fix bug" "" None 0%float 20 30)
              reachable_moved ltac:(eexists; vm_compute; reflexivity)
              ltac:(vm_compute; reflexivity)
              ltac:(vm_compute; reflexivity)) as (card' & db' & Hupdate).
  destruct (Hframe _ _ Hupdate)
    as (card & Hc & _ & Htitle & _ & _ & Hlist & Hpos & _).
  assert (card = mkCard "b0" "a0" "a2" "Fix bug" "" None 0%float 20 30) as ->
    by (vm_compute in Hc; congruence).
  exists card'. rewrite Hupdate. by repeat split.
Defined.

End UpdateCard.
(** ** Renaming a list and a board *)

Section Rename.
Import Store Routes Position Undo System Spec Examples Scenes Text.

Lemma renameList_runs env actor boardId listId title db l b title' :
  PatchListSchema title = Some title' ->
  findById listId (lists db) = Some l ->
  list_boardId l = boardId ->
  findById boardId (boards db) = Some b ->
  findById (newId env 0) (events db) = None ->
  let l' := updatedList title' (now env) l in
  renameList env actor boardId listId title db
  = (jsonOk (ListBody l') 200,
     mkDb (updateById boardId (updatedBoard None (now env)) (boards db))
       (updateById listId (updatedList title' (now env)) (lists db))
       (cards db)
       (events db
        ++ [mkActivity env 0 actor boardId LIST listId list_renamed
              (mkData (Some (snapList l)) (Some (snapList l')) None)])).
Proof.
  intros Hs Hl Hb Hboard He l'. unfold renameList. rewrite Hs.
  unfold renameList_tx.
  pose proof (proj2 (findById_Some _ _ _ Hl)) as Hid.
  change (list_id l = listId) in Hid.
  tx_unfold. tx_eval. rewrite decide_True by done. tx_eval.
  rewrite Hid. tx_eval. done.
Qed.

Lemma renameList_inv env actor boardId listId title db l' db' :
  renameList env actor boardId listId title db
  = (jsonOk (ListBody l') 200, db') ->
  exists l t,
    title = Some t
    /\ (1 <= String.length (trim t) <= 80)%nat
    /\ findById listId (lists db) = Some l
    /\ list_boardId l = boardId
    /\ l' = updatedList (Some (trim t)) (now env) l
    /\ lists db'
       = updateById listId (updatedList (Some (trim t)) (now env)) (lists db)
    /\ cards db' = cards db
    /\ events db'
       = events db
         ++ [mkActivity env 0 actor boardId LIST listId list_renamed
               (mkData (Some (snapList l)) (Some (snapList l')) None)].
Proof.
  unfold renameList, invalidBody.
  destruct (PatchListSchema _) as [parsed|] eqn:Hs; [|done].
  apply PatchListSchema_Some in Hs as (t & -> & -> & Hlen).
  destruct (transaction _ _) as [r db1] eqn:Ht.
  unfold renameList_tx in Ht.
  tx_open Ht; simpl; intros [= <- <-];
    repeat match goal with
      | H : (match findById ?i ?t with _ => _ end) = _ |- _ =>
          destruct (findById i t) eqn:?; [|discriminate H]
      | H : (if decide ?P then _ else _) = _ |- _ =>
          destruct (decide P); [|discriminate H]
      end; tx_ids.
  eexists _, t. split; [reflexivity|]. split; [exact Hlen|].
  split; [reflexivity|]. by repeat split.
Qed.

(** X30.  Renaming a list writes its title and nothing else of it.  The
    body is checked first: it has to have a title, and the title, trimmed,
    has to have 1 to 80 characters; a body that fails is refused with 400
    and nothing changes.  On a database the routes can produce, a body
    that passes, for a list of the board of the URL, succeeds.  After a
    success the list has the trimmed title and its id, board, position and
    creation time as before; every other list and every card is as it
    was; and the log has one more event, [list.renamed], with the list
    before and after the change. *)
Theorem renameList_patch env actor boardId listId title db :
  (is_Some (PatchListSchema title)
   <-> exists t, title = Some t /\ (1 <= String.length (trim t) <= 80)%nat)
  /\ (PatchListSchema title = None ->
      renameList env actor boardId listId title db
      = (jsonError "Invalid request body" 400, db))
  /\ (forall l,
        reachable db ->
        is_Some (PatchListSchema title) ->
        findById listId (lists db) = Some l ->
        list_boardId l = boardId ->
        findById (newId env 0) (events db) = None ->
        exists l' db',
          renameList env actor boardId listId title db
          = (jsonOk (ListBody l') 200, db'))
  /\ (forall l' db',
        renameList env actor boardId listId title db
        = (jsonOk (ListBody l') 200, db') ->
        exists l e,
          findById listId (lists db) = Some l
          /\ findById listId (lists db') = Some l'
          /\ Some (list_title l') = trim <$> title
          /\ list_id l' = list_id l
          /\ list_boardId l' = list_boardId l
          /\ list_position l' = list_position l
          /\ list_createdAt l' = list_createdAt l
          /\ list_updatedAt l' = now env
          /\ (forall id, id <> listId ->
                         findById id (lists db') = findById id (lists db))
          /\ cards db' = cards db
          /\ events db' = events db ++ [e]
          /\ ev_type e = list_renamed
          /\ ev_entityId e = listId
          /\ d_before (ev_data e) = Some (snapList l)
          /\ d_after (ev_data e) = Some (snapList l')).
Proof.
  split; [|split; [|split]].
  - split.
    + intros [parsed (t & -> & _ & Hlen)%PatchListSchema_Some]. by exists t.
    + intros (t & -> & Hlen). exists (Some (trim t)).
      apply PatchListSchema_Some. by exists t.
  - intros Hs. unfold renameList. by rewrite Hs.
  - intros l Hreach [parsed Hs] Hl Hb He.
    apply reachable_FkInv in Hreach as (_ & Hfl & _).
    destruct (Hfl l (proj1 (findById_Some _ _ _ Hl))) as [b Hboard].
    rewrite Hb in Hboard. eexists _, _. by eapply renameList_runs.
  - intros l' db'
      (l & t & -> & _ & Hl & Hb & -> & Hlists & Hcards & Hevents)%renameList_inv.
    exists l. eexists. split; [done|]. rewrite Hlists. split.
    { rewrite findById_update by done.
      by rewrite bool_decide_eq_true_2, Hl. }
    do 6 (split; [reflexivity|]). split.
    { intros id Hid. rewrite findById_update by done.
      by rewrite bool_decide_eq_false_2. }
    split; [done|]. split; [exact Hevents|]. by repeat split.
Qed.

(** The list Doing of the example board, renamed, with a space typed
    before the title; a title of spaces is refused. *)
Lemma renameList_patch_witness :
  (exists l' db',
     renameList (envAt 90 "z") bob "a0" "a2" (Some " In progress") restored
     = (jsonOk (ListBody l') 200, db')
     /\ list_title l' = "In progress")
  /\ renameList (envAt 90 "z") bob "a0" "a2" (Some "  ") restored
     = (jsonError "Invalid request body" 400, restored).
Proof.
  pose proof (renameList_patch (envAt 90 "z") bob "a0" "a2"
                (Some " In progress") restored) as (_ & _ & Hruns & Hframe).
  split.
  - destruct (Hruns (mkList "a2" "a0" "Doing" 2%float 10 10)
                reachable_restored ltac:(eexists; vm_compute; reflexivity)
                ltac:(vm_compute; reflexivity) eq_refl
                ltac:(vm_compute; reflexivity)) as (l' & db' & Hrename).
    exists l', db'. split; [exact Hrename|].
    destruct (Hframe _ _ Hrename) as (_ & _ & _ & _ & Htitle & _).
    by injection Htitle.
  - apply (proj1 (proj2 (renameList_patch (envAt 90 "z") bob "a0" "a2"
                           (Some "  ") restored))).
    vm_compute. reflexivity.
Defined.

End Rename.
(** ** Undo after the request it undoes *)

Section UndoMore.
Import Store Routes Position Undo System Spec Examples Scenes.

Lemma reachable_strayed : reachable strayed.
Proof. apply reachable_step, reachable_step, reachable_withCard. Qed.

(** On a database the routes can produce, no [card.undone] event names an
    id that is not in the log. *)
Lemma fresh_event_not_undone db id event :
  reachable db -> findById id (events db) = None -> ev_id event = id ->
  forall u, u ∈ events db -> ~ revertsEvent event u.
Proof.
  intros [_ Hlink]%reachable_LogInv Hfresh Hid u Hu (_ & Hty & Hr).
  destruct (Hlink u _ Hu Hty Hr) as (e & He & Heid & _).
  apply findById_None in Hfresh. apply Hfresh.
  apply list_elem_of_fmap. exists e. split; [|done].
  unfold rowId, ActivityEvent_id. congruence.
Qed.

(** Right after a request logged [d], no event of the log reverts [d]. *)
Lemma just_logged_no_marker db d :
  reachable db -> findById (ev_id d) (events db) = None ->
  ev_type d <> card_undone ->
  forall u, u ∈ events db ++ [d] -> ~ revertsEvent d u.
Proof.
  intros Hreach Hfresh Hty u [Hu| ->%list_elem_of_singleton]%elem_of_app.
  - by eapply fresh_event_not_undone.
  - by intros (_ & ? & _).
Qed.

Lemma just_logged_not_undone db d :
  reachable db -> findById (ev_id d) (events db) = None ->
  ev_type d <> card_undone ->
  find (fun u => bool_decide (revertsEvent d u)) (events db ++ [d]) = None.
Proof. intros. by apply findUndoOf_None, just_logged_no_marker. Qed.

Lemma just_logged_found db d :
  findById (ev_id d) (events db) = None ->
  findById (ev_id d) (events db ++ [d]) = Some d.
Proof.
  intros Hfresh. rewrite findById_app, Hfresh, findById_singleton.
  by rewrite bool_decide_eq_true_2.
Qed.

Lemma next_id_fresh db d id :
  findById id (events db) = None -> id <> ev_id d ->
  findById id (events db ++ [d]) = None.
Proof.
  intros Hfresh Hne. rewrite findById_app, Hfresh, findById_singleton.
  by rewrite bool_decide_eq_false_2.
Qed.

Lemma board_found_after_touch db boardId id t :
  is_Some (findById id (boards db)) ->
  is_Some (findById id (updateById boardId (updatedBoard None t) (boards db))).
Proof. by apply findById_update_is_Some. Qed.

Lemma undo_created_runs env actor eventId db event existing b :
  findById eventId (events db) = Some event ->
  ev_entityType event = CARD -> ev_type event = card_created ->
  find (fun u => bool_decide (revertsEvent event u)) (events db) = None ->
  findById (ev_entityId event) (cards db) = Some existing ->
  findById (ev_boardId event) (boards db) = Some b ->
  findById (newId env 0) (events db) = None ->
  undo env actor eventId db
  = (jsonOk (UndoneDeleted (ev_entityId event)) 200,
     mkDb (updateById (ev_boardId event) (updatedBoard None (now env))
             (boards db))
       (lists db) (deleteById (ev_entityId event) (cards db))
       (events db
        ++ [undoneEvent env actor event (Some (snapCard existing)) None])).
Proof.
  intros He Hty Het Hnot Hc Hb Hfresh.
  unfold undo, undo_tx. tx_unfold. tx_eval.
  rewrite bool_decide_eq_false_2 by (by intros []). tx_eval. done.
Qed.

Lemma deleteCard_runs env actor cardId db card b :
  findById cardId (cards db) = Some card ->
  findById (card_boardId card) (boards db) = Some b ->
  findById (newId env 0) (events db) = None ->
  deleteCard env actor cardId db
  = (jsonOk (CardDeleted cardId (card_boardId card)) 200,
     mkDb (updateById (card_boardId card) (updatedBoard None (now env))
             (boards db))
       (lists db) (deleteById cardId (cards db))
       (events db
        ++ [mkActivity env 0 actor (card_boardId card) CARD cardId card_deleted
              (mkData (Some (snapCard card)) None None)])).
Proof.
  intros Hc Hb He.
  pose proof (findById_Some _ _ _ Hc) as [_ Hid].
  unfold rowId, CardRow_id in Hid.
  unfold deleteCard, deleteCard_tx. tx_unfold. tx_eval. done.
Qed.

Lemma deleteById_fresh_snoc (t : list CardRow) c :
  findById (card_id c) t = None -> deleteById (card_id c) (t ++ [c]) = t.
Proof.
  intros Hfresh. unfold deleteById. rewrite filter_app.
  rewrite filter_cons_False by (by intros []).
  rewrite filter_nil, app_nil_r.
  apply findById_None in Hfresh.
  induction t as [|x t IH]; [done|].
  rewrite fmap_cons, not_elem_of_cons in Hfresh. destruct Hfresh as [Hx Ht].
  rewrite filter_cons_True by done. by rewrite IH.
Qed.

(** X10.  Deleting a card and then undoing the deletion.  On a database
    the routes can produce, the deletion of a card that exists succeeds
    and removes the card.  When the list of the card is on the board of
    the card, the undo of the event the deletion logged, by any actor,
    succeeds and stores a card with the id, board, list, title,
    description, due date and position the card had; its [createdAt] and
    [updatedAt] are the time of the undo, not the old ones; every other
    card and every list is as before the deletion.  When the list of the
    card is on another board (a move can put a card there), that undo is
    refused with 409 and the card stays deleted. *)
Theorem deleteCard_then_undo env1 actor1 env2 actor2 cardId db card :
  reachable db ->
  findById cardId (cards db) = Some card ->
  findById (newId env1 0) (events db) = None ->
  findById (newId env2 0) (events db) = None ->
  newId env2 0 <> newId env1 0 ->
  let restored :=
    mkCard (card_id card) (card_boardId card) (card_listId card)
      (card_title card) (card_description card) (card_dueAt card)
      (card_position card) (now env2) (now env2) in
  exists l db1,
    findById (card_listId card) (lists db) = Some l
    /\ deleteCard env1 actor1 cardId db
       = (jsonOk (CardDeleted cardId (card_boardId card)) 200, db1)
    /\ findById cardId (cards db1) = None
    /\ (list_boardId l = card_boardId card ->
        exists db2,
          undo env2 actor2 (newId env1 0) db1
          = (jsonOk (UndoneRestored restored) 200, db2)
          /\ findById cardId (cards db2) = Some restored
          /\ (forall id, id <> cardId ->
                         findById id (cards db2) = findById id (cards db))
          /\ lists db2 = lists db)
    /\ (list_boardId l <> card_boardId card ->
        undo env2 actor2 (newId env1 0) db1
        = (jsonError "Cannot restore: original list no longer exists" 409,
           db1)).
Proof.
  intros Hreach Hc He1 He2 Hne restored.
  destruct (card_board_exists db cardId card Hreach Hc) as [b Hb].
  pose proof (findById_Some _ _ _ Hc) as [Hin Hid].
  unfold rowId, CardRow_id in Hid.
  pose proof (reachable_FkInv _ Hreach) as (_ & _ & Hfc).
  destruct (Hfc card Hin) as [_ [l Hl]].
  set (d := mkActivity env1 0 actor1 (card_boardId card) CARD cardId
              card_deleted (mkData (Some (snapCard card)) None None)).
  exists l. eexists. split; [exact Hl|].
  split; [by eapply deleteCard_runs|]. cbn [cards].
  split; [by rewrite findById_delete, bool_decide_eq_true_2|].
  destruct (board_found_after_touch db (card_boardId card) (card_boardId card)
              (now env1)) as [b1 Hb1]; [by eexists|].
  set (st := mkCardState (card_id card) (card_boardId card) (card_listId card)
               (Some (card_title card)) (Some (card_description card))
               (coalesceDueAt (Some (card_dueAt card)))
               (Some (card_position card))).
  split.
  - intros Hlb. eexists. split.
    { erewrite (undo_deleted_restores env2 actor2 (newId env1 0) _ d st l b1
                  b1);
        cbn [events cards lists boards].
      - apply f_equal2; [|reflexivity].
        unfold restoredCard, restored, st. cbn. by destruct (card_dueAt card).
      - by apply (just_logged_found db d).
      - done.
      - done.
      - by apply (just_logged_not_undone db d).
      - apply asCardState_snapCard.
      - exact Hl.
      - exact Hlb.
      - cbn. by rewrite findById_delete, bool_decide_eq_true_2.
      - exact Hb1.
      - exact Hb1.
      - by apply (next_id_fresh db d). }
    cbn [cards lists]. split; [|split; [|done]].
    + rewrite findById_app, findById_delete, bool_decide_eq_true_2 by done.
      rewrite findById_singleton. unfold restoredCard, restored. cbn.
      rewrite bool_decide_eq_true_2 by done. by destruct (card_dueAt card).
    + intros id Hne'. rewrite findById_app, findById_delete.
      rewrite bool_decide_eq_false_2 by done.
      destruct (findById id (cards db)); [done|].
      rewrite findById_singleton. unfold restoredCard. cbn.
      by rewrite bool_decide_eq_false_2 by congruence.
  - intros Hlb.
    apply (undo_deleted_unsupported env2 actor2 (newId env1 0) _ d st);
      cbn [events cards lists boards].
    + by apply (just_logged_found db d).
    + done.
    + done.
    + by apply (just_logged_not_undone db d).
    + apply asCardState_snapCard.
    + intros l'. cbn. rewrite Hl. by intros [= <-].
Qed.

(** On the example board: "Fix bug" is deleted from Doing and restored.
    Beside the board Personal: "Fix bug", moved to a list of Personal, is
    deleted, and the undo is refused. *)
Lemma deleteCard_then_undo_witness :
  (exists db1 db2,
     deleteCard (envAt 40 "d") alice "b0" moved
     = (jsonOk (CardDeleted "b0" "a0") 200, db1)
     /\ undo (envAt 50 "e") bob "d0" db1
        = (jsonOk (UndoneRestored
                     (mkCard "b0" "a0" "a2" "Fix bug" "" None 0%float 50 50))
             200, db2))
  /\ (exists db1,
        deleteCard (envAt 45 "d") alice "b0" strayed
        = (jsonOk (CardDeleted "b0" "a0") 200, db1)
        /\ undo (envAt 50 "e") bob "d0" db1
           = (jsonError "Cannot restore: original list no longer exists" 409,
              db1)).
Proof.
  split.
  - destruct (deleteCard_then_undo (envAt 40 "d") alice (envAt 50 "e") bob
                "b0" moved
                (mkCard "b0" "a0" "a2" "Fix bug" "" None 0%float 20 30)
                reachable_moved)
      as (l & db1 & Hl & Hdelete & _ & Hundo & _);
      [vm_compute; reflexivity|vm_compute; reflexivity
      |vm_compute; reflexivity|vm_compute; discriminate|].
    assert (l = mkList "a2" "a0" "Doing" 2%float 10 10) as ->
      by (vm_compute in Hl; congruence).
    destruct (Hundo eq_refl) as (db2 & Hu & _).
    exists db1, db2. split; [exact Hdelete|exact Hu].
  - destruct (deleteCard_then_undo (envAt 45 "d") alice (envAt 50 "e") bob
                "b0" strayed
                (mkCard "b0" "a0" "p1" "Fix bug" "" None 0%float 20 40)
                reachable_strayed)
      as (l & db1 & Hl & Hdelete & _ & _ & Hundo);
      [vm_compute; reflexivity|vm_compute; reflexivity
      |vm_compute; reflexivity|vm_compute; discriminate|].
    assert (l = mkList "p1" "p0" "Todo" 1%float 25 25) as ->
      by (vm_compute in Hl; congruence).
    exists db1. split; [exact Hdelete|]. apply Hundo. discriminate.
Defined.

(** X11.  Undoing a move puts the card back: after any move that
    succeeded on a database the routes can produce, the undo of the event
    it logged, by any actor, succeeds and the card is again in the list
    and at the position it had before the move, with its other fields as
    they are; every other card is as before the move. *)
Theorem moveCard_then_undo env1 actor1 env2 actor2 cardId toListId
    beforeCardId afterCardId db moved' db1 :
  reachable db ->
  moveCard env1 actor1 cardId toListId beforeCardId afterCardId db
  = (jsonOk (CardBody moved') 200, db1) ->
  findById (newId env2 0) (events db) = None ->
  newId env2 0 <> newId env1 0 ->
  exists card,
    findById cardId (cards db) = Some card
    /\ (card_listId card <> "" ->
        let back :=
          mkCard (card_id card) (card_boardId card) (card_listId card)
            (card_title card) (card_description card) (card_dueAt card)
            (card_position card) (card_createdAt card) (now env2) in
        exists db2,
          undo env2 actor2 (newId env1 0) db1
          = (jsonOk (UndoneReverted back) 200, db2)
          /\ findById cardId (cards db2) = Some back
          /\ (forall id, id <> cardId ->
                         findById id (cards db2) = findById id (cards db))
          /\ lists db2 = lists db).
Proof.
  intros Hreach (card & p & Hc & -> & -> & He1 & [b Hb] & Hto)%moveCard_inv
    He2 Hne.
  exists card. split; [done|]. intros Hlist back.
  pose proof (findById_Some _ _ _ Hc) as [Hin Hid].
  unfold rowId, CardRow_id in Hid.
  pose proof (reachable_FkInv _ Hreach) as (_ & _ & Hfc).
  destruct (Hfc card Hin) as [_ [l Hl]].
  set (u := mkCardUpdate (Some toListId) (Some p) None None None).
  set (d := mkActivity env1 0 actor1 (card_boardId card) CARD cardId
              card_moved
              (mkData (Some (snapMove (card_listId card) (card_position card)))
                 (Some (snapMove toListId p)) None)).
  destruct (board_found_after_touch db (card_boardId card) (card_boardId card)
              (now env1)) as [b1 Hb1]; [by eexists|].
  assert (applyCardUpdate
            (updateDataOf
               (mkCardPatch (Some (card_listId card)) None None None
                  (Some (card_position card))))
            (now env2) (applyCardUpdate u (now env1) card) = back) as Hback.
  { unfold applyCardUpdate, updateDataOf, back. cbn.
    by rewrite bool_decide_eq_false_2. }
  eexists. split.
  { erewrite (undo_revert_runs env2 actor2 (newId env1 0) _ d
                (mkCardPatch (Some (card_listId card)) None None None
                   (Some (card_position card)))
                (applyCardUpdate u (now env1) card) l b1);
      cbn [events cards lists boards].
    - rewrite Hback. reflexivity.
    - by apply (just_logged_found db d).
    - done.
    - by left.
    - by apply (just_logged_not_undone db d).
    - reflexivity.
    - by apply card_found_after_update.
    - rewrite Hback. exact Hl.
    - exact Hb1.
    - by apply (next_id_fresh db d). }
  cbn [cards lists]. change (ev_entityId d) with cardId.
  split; [|split; [|done]].
  - rewrite findById_update by done. rewrite bool_decide_eq_true_2 by done.
    rewrite (card_found_after_update db cardId card) by done.
    cbn [fmap option_fmap option_map]. by rewrite Hback.
  - intros id Hne'. rewrite !findById_update by done.
    by rewrite bool_decide_eq_false_2.
Qed.

(** On the example board: the move of "Fix bug" to Doing is undone, and
    the card is back in Todo at position 1. *)
Lemma moveCard_then_undo_witness :
  exists db2,
    undo (envAt 50 "e") bob "c0" moved
    = (jsonOk (UndoneReverted
                 (mkCard "b0" "a0" "a1" "Fix bug" "" None 1%float 20 50))
         200, db2).
Proof.
  destruct (moveCard_then_undo (envAt 30 "c") alice (envAt 50 "e") bob "b0"
              "a2" None None withCard _ moved reachable_withCard
              ltac:(vm_compute; reflexivity) ltac:(vm_compute; reflexivity)
              ltac:(vm_compute; discriminate))
    as (card & Hc & Hundo).
  assert (card = mkCard "b0" "a0" "a1" "Fix bug" "" None 1%float 20 20) as ->
    by (vm_compute in Hc; congruence).
  destruct (Hundo ltac:(vm_compute; discriminate)) as (db2 & Hu & _).
  exists db2. exact Hu.
Defined.

(** X12.  Undoing the creation of a card deletes it: after a card was
    created, with a body the route accepts, on a database the routes can
    produce, the undo of the event the creation logged, by any actor,
    succeeds, and the cards are exactly the ones before the creation; the
    lists are untouched. *)
Theorem createCard_then_undo env1 actor1 env2 actor2 boardId listId title
    description dueAt db :
  reachable db ->
  is_Some (CreateCardSchema title description) ->
  is_Some (findById boardId (boards db)) ->
  is_Some (findById listId (lists db)) ->
  findById (newId env1 0) (cards db) = None ->
  findById (newId env1 1) (events db) = None ->
  findById (newId env2 0) (events db) = None ->
  newId env2 0 <> newId env1 1 ->
  exists card db1 db2,
    createCard env1 actor1 boardId listId title description dueAt db
    = (jsonOk (CardBody card) 201, db1)
    /\ findById (card_id card) (cards db1) = Some card
    /\ undo env2 actor2 (newId env1 1) db1
       = (jsonOk (UndoneDeleted (card_id card)) 200, db2)
    /\ cards db2 = cards db
    /\ lists db2 = lists db.
Proof.
  intros Hreach [[title' description'] Hs] [b Hb] [l Hl] Hc He1 He2 Hne.
  set (last := maxPosition (card_position <$> cardsOfList listId db)).
  set (card := mkCard (newId env1 0) boardId listId title'
                 (default "" description') dueAt (positionAfter last)
                 (now env1) (now env1)).
  set (d := mkActivity env1 1 actor1 boardId CARD (newId env1 0) card_created
              (mkData None (Some (snapCard card)) None)).
  destruct (board_found_after_touch db boardId boardId (now env1))
    as [b1 Hb1]; [by eexists|].
  exists card. eexists _, _. split; [by eapply createCard_runs|].
  cbn [cards]. change (card_id card) with (newId env1 0). split.
  { rewrite findById_app, Hc, findById_singleton.
    by rewrite bool_decide_eq_true_2. }
  split.
  { erewrite (undo_created_runs env2 actor2 (newId env1 1) _ d card b1);
      cbn [events cards lists boards].
    - reflexivity.
    - by apply (just_logged_found db d).
    - done.
    - done.
    - by apply (just_logged_not_undone db d).
    - cbn. rewrite findById_app, Hc, findById_singleton.
      by rewrite bool_decide_eq_true_2.
    - exact Hb1.
    - by apply (next_id_fresh db d). }
  cbn [cards lists]. split; [|done].
  by apply (deleteById_fresh_snoc (cards db) card).
Qed.

(** The creation of "Fix bug" on the example board is undone: no card is
    left. *)
Lemma createCard_then_undo_witness :
  exists db2,
    undo (envAt 50 "e") bob "b1" withCard
    = (jsonOk (UndoneDeleted "b0") 200, db2)
    /\ cards db2 = [].
Proof.
  destruct (createCard_then_undo (envAt 20 "b") alice (envAt 50 "e") bob "a0"
              "a1" "Fix bug" None None sprint reachable_sprint)
    as (card & db1 & db2 & Hcreate & _ & Hundo & Hcards & _);
    [eexists; vm_compute; reflexivity|eexists; vm_compute; reflexivity
    |eexists; vm_compute; reflexivity
    |vm_compute; reflexivity|vm_compute; reflexivity|vm_compute; reflexivity
    |vm_compute; discriminate|].
  assert (db1 = withCard /\ card_id card = "b0") as [-> Hid].
  { change withCard
      with (createCard (envAt 20 "b") alice "a0" "a1" "Fix bug" None None
              sprint).2.
    rewrite Hcreate. split; [done|].
    vm_compute in Hcreate. injection Hcreate. intros. by subst. }
  rewrite Hid in Hundo. exists db2. split; [exact Hundo|].
  rewrite Hcards. reflexivity.
Defined.

End UndoMore.
(** ** Undo of an update, and the undo requests that are refused *)

Section UndoEdges.
Import Store Routes Position Undo System Spec Examples Scenes Text.

Lemma reachable_dated : reachable dated.
Proof. apply reachable_step, reachable_withCard. Qed.

Lemma reachable_datedMoved : reachable datedMoved.
Proof. apply reachable_step, reachable_dated. Qed.

(** The patch the undo route reads from the [before] snapshot the card
    PATCH route logs: every column but a due date that was null. *)
Lemma beforePatchOf_snapCardNoStamps c0 :
  beforePatchOf (Some (snapCardNoStamps c0))
  = Some (mkCardPatch (Some (card_listId c0)) (Some (card_title c0))
            (Some (card_description c0))
            (coalesceDueAt (Some (card_dueAt c0)))
            (Some (card_position c0))).
Proof. reflexivity. Qed.

(** The undo of an update the card PATCH route logged, step by step. *)
Lemma undo_update_runs env actor eventId db event c0 current :
  reachable db ->
  findById eventId (events db) = Some event ->
  ev_entityType event = CARD -> ev_type event = card_updated ->
  d_before (ev_data event) = Some (snapCardNoStamps c0) ->
  (forall u, u ∈ events db -> ~ revertsEvent event u) ->
  findById (ev_entityId event) (cards db) = Some current ->
  card_listId c0 <> "" ->
  is_Some (findById (card_listId c0) (lists db)) ->
  findById (newId env 0) (events db) = None ->
  let card' :=
    mkCard (card_id current) (card_boardId current) (card_listId c0)
      (card_title c0) (card_description c0)
      (match card_dueAt c0 with
       | Some d => Some d
       | None => card_dueAt current
       end)
      (card_position c0) (card_createdAt current) (now env) in
  exists db',
    undo env actor eventId db = (jsonOk (UndoneReverted card') 200, db')
    /\ findById (ev_entityId event) (cards db') = Some card'.
Proof.
  intros Hreach He Hty Het Hs Hnot Hc Hl0 [l Hl] Hfresh card'.
  pose proof (reachable_FkInv _ Hreach) as (Hfe & _ & _).
  destruct (Hfe event (proj1 (findById_Some _ _ _ He))) as [b Hb].
  set (patch := mkCardPatch (Some (card_listId c0)) (Some (card_title c0))
                  (Some (card_description c0))
                  (coalesceDueAt (Some (card_dueAt c0)))
                  (Some (card_position c0))).
  assert (applyCardUpdate (updateDataOf patch) (now env) current = card')
    as Hcard.
  { unfold applyCardUpdate, updateDataOf, patch, card'. cbn.
    rewrite bool_decide_eq_false_2 by done. by destruct (card_dueAt c0). }
  eexists. split.
  - erewrite (undo_revert_runs env actor eventId db event patch current l b);
      [by rewrite Hcard|done|done|by right|by apply findUndoOf_None
      |by rewrite Hs|done|by rewrite Hcard|done|done].
  - cbn [cards]. rewrite (card_found_after_update db _ current) by done.
    by rewrite Hcard.
Qed.

(** X13.  Undoing an update of a card puts back more than the update
    changed.  The card PATCH route logs the whole card as [before], its
    list and position included, and the undo writes all of it: after the
    undo of a [card.updated] event the card has the title and the
    description it had before the update, and it is in the list and at the
    position it had then, wherever it was moved since. *)
Theorem undo_update_restores_snapshot env actor eventId db event c0 current :
  reachable db ->
  findById eventId (events db) = Some event ->
  ev_entityType event = CARD -> ev_type event = card_updated ->
  d_before (ev_data event) = Some (snapCardNoStamps c0) ->
  (forall u, u ∈ events db -> ~ revertsEvent event u) ->
  findById (ev_entityId event) (cards db) = Some current ->
  card_listId c0 <> "" ->
  is_Some (findById (card_listId c0) (lists db)) ->
  findById (newId env 0) (events db) = None ->
  exists card' db',
    undo env actor eventId db = (jsonOk (UndoneReverted card') 200, db')
    /\ findById (ev_entityId event) (cards db') = Some card'
    /\ card_title card' = card_title c0
    /\ card_description card' = card_description c0
    /\ card_listId card' = card_listId c0
    /\ card_position card' = card_position c0.
Proof.
  intros Hreach He Hty Het Hs Hnot Hc Hl0 Hl Hfresh.
  destruct (undo_update_runs env actor eventId db event c0 current)
    as (db' & Hundo & Hfind); try done.
  eexists _, db'. split; [exact Hundo|]. split; [exact Hfind|]. done.
Qed.

(** "Fix bug" was retitled in Todo at position 1, then moved to Doing.
    The undo of the retitling gives the old title back, and the card is in
    Todo at position 1 again. *)
Lemma undo_update_restores_snapshot_witness :
  exists card' db',
    undo (envAt 50 "e") alice "u0" datedMoved
    = (jsonOk (UndoneReverted card') 200, db')
    /\ (card_listId <$> findById "b0" (cards datedMoved)) = Some "a2"
    /\ card_title card' = "Fix bug"
    /\ card_listId card' = "a1"
    /\ card_position card' = 1%float.
Proof.
  destruct (undo_update_restores_snapshot (envAt 50 "e") alice "u0" datedMoved
              _ (mkCard "b0" "a0" "a1" "Fix bug" "" None 1%float 20 20)
              (mkCard "b0" "a0" "a2" "Fix the bug" "" (Some 500) 0%float 20 35)
              reachable_datedMoved
              ltac:(vm_compute; reflexivity) ltac:(vm_compute; reflexivity)
              ltac:(vm_compute; reflexivity) ltac:(vm_compute; reflexivity))
    as (card' & db' & Hundo & _ & Htitle & _ & Hlist & Hpos).
  - intros u Hu. apply (bool_decide_unpack _). revert u Hu.
    apply Forall_forall. apply (bool_decide_unpack _).
    vm_compute. reflexivity.
  - vm_compute. reflexivity.
  - vm_compute. discriminate.
  - eexists. vm_compute. reflexivity.
  - vm_compute. reflexivity.
  - exists card', db'. split; [exact Hundo|].
    split; [vm_compute; reflexivity|]. by repeat split.
Defined.

Lemma updateCard_runs_log env actor cardId title description dueAt db card :
  reachable db ->
  is_Some (PatchCardSchema title description dueAt) ->
  findById cardId (cards db) = Some card ->
  findById (newId env 0) (events db) = None ->
  let u := mkCardUpdate None None (trim <$> title) description dueAt in
  let card' := applyCardUpdate u (now env) card in
  updateCard env actor cardId title description dueAt db
  = (jsonOk (CardBody card') 200,
     mkDb (updateById (card_boardId card) (updatedBoard None (now env))
             (boards db))
       (lists db)
       (updateById cardId (applyCardUpdate u (now env)) (cards db))
       (events db
        ++ [mkActivity env 0 actor (card_boardId card) CARD (card_id card)
              card_updated
              (mkData (Some (snapCardNoStamps card)) (Some (snapCard card'))
                 None)])).
Proof.
  intros Hreach [[t d] Hs] Hc He.
  pose proof (proj1 (PatchCardSchema_Some _ _ _ _ _) Hs) as (-> & -> & _).
  destruct (card_board_exists db cardId card Hreach Hc) as [b Hb].
  apply reachable_FkInv in Hreach as (_ & _ & Hfc).
  destruct (Hfc card (proj1 (findById_Some _ _ _ Hc))) as [_ Hl].
  by eapply updateCard_runs.
Qed.

(** X14.  Undoing an update does not clear a due date the update set.
    When a card without a due date is given one by the card PATCH route,
    with a body the route accepts, the undo of that update, by any actor,
    succeeds and puts back the title and the description, but the card
    keeps the new due date: the undo route reads the [null] of the
    snapshot as "no [dueAt] key". *)
Theorem updateCard_dueAt_survives_undo env1 actor1 env2 actor2 cardId title
    description due db card :
  reachable db ->
  is_Some (PatchCardSchema title description (Some (Some due))) ->
  findById cardId (cards db) = Some card ->
  card_dueAt card = None ->
  card_listId card <> "" ->
  findById (newId env1 0) (events db) = None ->
  findById (newId env2 0) (events db) = None ->
  newId env2 0 <> newId env1 0 ->
  exists updated db1 undone db2,
    updateCard env1 actor1 cardId title description (Some (Some due)) db
    = (jsonOk (CardBody updated) 200, db1)
    /\ card_dueAt updated = Some due
    /\ undo env2 actor2 (newId env1 0) db1
       = (jsonOk (UndoneReverted undone) 200, db2)
    /\ findById cardId (cards db2) = Some undone
    /\ card_title undone = card_title card
    /\ card_description undone = card_description card
    /\ card_dueAt undone = Some due.
Proof.
  intros Hreach Hbody Hc Hdue Hl0 He1 He2 Hne.
  pose proof (findById_Some _ _ _ Hc) as [Hin Hid].
  unfold rowId, CardRow_id in Hid.
  pose proof (reachable_FkInv _ Hreach) as (_ & _ & Hfc).
  destruct (Hfc card Hin) as [_ Hl].
  set (u := mkCardUpdate None None (trim <$> title) description
              (Some (Some due))).
  set (d := mkActivity env1 0 actor1 (card_boardId card) CARD (card_id card)
              card_updated
              (mkData (Some (snapCardNoStamps card))
                 (Some (snapCard (applyCardUpdate u (now env1) card))) None)).
  pose proof (updateCard_runs_log env1 actor1 cardId title description
                (Some (Some due)) db card Hreach Hbody Hc He1) as Hupdate.
  cbv zeta in Hupdate. fold u in Hupdate. fold d in Hupdate.
  assert (reachable
            (updateCard env1 actor1 cardId title description (Some (Some due))
               db).2) as Hreach1
    by apply (reachable_step env1 actor1
                (UpdateCard cardId title description (Some (Some due))) db
                Hreach).
  rewrite Hupdate in Hreach1. cbn [snd] in Hreach1.
  destruct (undo_update_runs env2 actor2 (newId env1 0) _ d card
              (applyCardUpdate u (now env1) card) Hreach1)
    as (db2 & Hundo & Hfind); cbn [events cards lists boards].
  - by apply (just_logged_found db d).
  - done.
  - done.
  - done.
  - by apply (just_logged_no_marker db d).
  - change (ev_entityId d) with (card_id card). rewrite Hid.
    by apply card_found_after_update.
  - done.
  - done.
  - by apply (next_id_fresh db d).
  - eexists _, _, _, db2. split; [exact Hupdate|]. split; [done|].
    split; [exact Hundo|]. cbn [cards] in Hfind.
    change (ev_entityId d) with (card_id card) in Hfind.
    rewrite Hid in Hfind. split; [exact Hfind|]. cbn. by rewrite Hdue.
Qed.

(** On the example board: "Fix bug" has no due date; Bob retitles it and
    sets one; the undo gives the title back and leaves the due date. *)
Lemma updateCard_dueAt_survives_undo_witness :
  exists undone db2,
    undo (envAt 50 "e") alice "u0" dated
    = (jsonOk (UndoneReverted undone) 200, db2)
    /\ card_title undone = "Fix bug"
    /\ card_dueAt undone = Some 500.
Proof.
  destruct (updateCard_dueAt_survives_undo (envAt 30 "u") bob (envAt 50 "e")
              alice "b0" (Some "Fix the bug") None 500 withCard
              (mkCard "b0" "a0" "a1" "Fix bug" "" None 1%float 20 20)
              reachable_withCard)
    as (updated & db1 & undone & db2 & Hupdate & _ & Hundo & _ & Htitle & _
        & Hdue);
    [eexists; vm_compute; reflexivity|vm_compute; reflexivity|reflexivity|vm_compute; discriminate
    |vm_compute; reflexivity|vm_compute; reflexivity|vm_compute; discriminate
    |].
  assert (db1 = dated) as ->.
  { change dated
      with (updateCard (envAt 30 "u") bob "b0" (Some "Fix the bug") None
              (Some (Some 500)) withCard).2.
    by rewrite Hupdate. }
  exists undone, db2. split; [exact Hundo|]. split; [exact Htitle|exact Hdue].
Defined.

(** X15.  The undo route refuses what it has no branch for, with 409 and
    without a change: an event of a board or of a list ("Only card events
    can be undone right now"), and a card event of another type than
    created, updated, moved and deleted ("Undo not implemented for event
    type: ...").  An undo is such an event: it cannot be undone. *)
Theorem undo_unsupported env actor eventId db event :
  findById eventId (events db) = Some event ->
  (forall u, u ∈ events db -> ~ revertsEvent event u) ->
  (ev_entityType event <> CARD ->
   undo env actor eventId db
   = (jsonError "Only card events can be undone right now" 409, db))
  /\ (ev_entityType event = CARD ->
      ev_type event ∉ [card_created; card_updated; card_moved; card_deleted] ->
      undo env actor eventId db
      = (jsonError ("Undo not implemented for event type: "
                    +:+ typeName (ev_type event)) 409, db)).
Proof.
  intros He Hnot%findUndoOf_None. split.
  - intros Hty. unfold undo, undo_tx. tx_unfold. tx_eval.
    by rewrite bool_decide_eq_true_2.
  - intros Hty Het. unfold undo, undo_tx. tx_unfold. tx_eval.
    rewrite bool_decide_eq_false_2 by (by intros []).
    destruct (ev_type event); try done; destruct Het; set_solver.
Qed.

(** On the example board: the creation of the board cannot be undone, and
    neither can the undo [e0] of the deletion of "Fix bug". *)
Lemma undo_unsupported_witness :
  undo (envAt 90 "z") bob "a4" restored
  = (jsonError "Only card events can be undone right now" 409, restored)
  /\ undo (envAt 90 "z") bob "e0" restored
     = (jsonError "Undo not implemented for event type: card.undone" 409,
        restored).
Proof.
  split.
  - eapply (proj1 (undo_unsupported (envAt 90 "z") bob "a4" restored _
                     ltac:(vm_compute; reflexivity)
                     ltac:(intros u Hu; apply (bool_decide_unpack _);
                           revert u Hu; apply Forall_forall;
                           apply (bool_decide_unpack _);
                           vm_compute; reflexivity))).
    vm_compute. discriminate.
  - eapply (proj2 (undo_unsupported (envAt 90 "z") bob "e0" restored _
                     ltac:(vm_compute; reflexivity)
                     ltac:(intros u Hu; apply (bool_decide_unpack _);
                           revert u Hu; apply Forall_forall;
                           apply (bool_decide_unpack _);
                           vm_compute; reflexivity))).
    + vm_compute. reflexivity.
    + apply (bool_decide_unpack _). vm_compute. reflexivity.
Defined.

(** X16.  What the undo route answers when the card of the event is gone
    or the payload cannot be read, each time without a change: for a
    creation, a move or an update whose card no longer exists, 404 with
    the message "Event not found"; for a move or an update whose [before]
    snapshot holds none of the patch fields, and for a deletion whose
    [before] snapshot is not a card state, 422. *)
Theorem undo_card_gone_or_payload_unreadable env actor eventId db event :
  findById eventId (events db) = Some event ->
  (forall u, u ∈ events db -> ~ revertsEvent event u) ->
  ev_entityType event = CARD ->
  (ev_type event = card_created ->
   findById (ev_entityId event) (cards db) = None ->
   undo env actor eventId db = (jsonError "Event not found" 404, db))
  /\ (ev_type event = card_moved \/ ev_type event = card_updated ->
      is_Some (beforePatchOf (d_before (ev_data event))) ->
      findById (ev_entityId event) (cards db) = None ->
      undo env actor eventId db = (jsonError "Event not found" 404, db))
  /\ (ev_type event = card_moved \/ ev_type event = card_updated ->
      beforePatchOf (d_before (ev_data event)) = None ->
      undo env actor eventId db
      = (jsonError "Event payload is missing before/after" 422, db))
  /\ (ev_type event = card_deleted ->
      asCardState (d_before (ev_data event)) = None ->
      undo env actor eventId db
      = (jsonError "Event payload is missing before/after" 422, db)).
Proof.
  intros He Hnot%findUndoOf_None Hty.
  repeat split.
  - intros Het Hc. unfold undo, undo_tx. tx_unfold. tx_eval.
    rewrite ?bool_decide_eq_false_2 by (by intros []). by tx_eval.
  - intros Het [patch Hp] Hc. unfold beforePatchOf in Hp.
    unfold undo, undo_tx. tx_unfold. tx_eval.
    rewrite ?bool_decide_eq_false_2 by (by intros []).
    destruct Het as [Het|Het]; rewrite Het, Hp; by tx_eval.
  - intros Het Hp. unfold beforePatchOf in Hp.
    unfold undo, undo_tx. tx_unfold. tx_eval.
    rewrite ?bool_decide_eq_false_2 by (by intros []).
    destruct Het as [Het|Het]; by rewrite Het, Hp.
  - intros Het Hst. unfold undo, undo_tx. tx_unfold. tx_eval.
    rewrite ?bool_decide_eq_false_2 by (by intros []).
    by rewrite ?Het, Hst.
Qed.

(** After "Fix bug" was deleted, its move [c0] cannot be undone. *)
Lemma undo_card_gone_or_payload_unreadable_witness :
  undo (envAt 90 "z") bob "c0" deleted
  = (jsonError "Event not found" 404, deleted).
Proof.
  destruct (undo_card_gone_or_payload_unreadable (envAt 90 "z") bob "c0"
              deleted _ ltac:(vm_compute; reflexivity)
              ltac:(intros u Hu; apply (bool_decide_unpack _);
                    revert u Hu; apply Forall_forall;
                    apply (bool_decide_unpack _); vm_compute; reflexivity)
              ltac:(vm_compute; reflexivity))
    as (_ & Hgone & _).
  apply Hgone; [left; vm_compute; reflexivity|eexists; vm_compute; reflexivity
               |vm_compute; reflexivity].
Defined.

End UndoEdges.
(** ** The activity log over any sequence of requests *)

Section LogMore.
Import Store Routes Position Undo System Spec Examples Scenes.

(** X17.  The activity log is append-only for every request but the
    deletion of a board: whatever the request and its outcome, the events
    of the log before it are the first events of the log after it, in the
    same order and unchanged; clearing the activity deletes nothing.  A
    board deletion that succeeds removes exactly the events of that board
    and leaves the events of the other boards in their order. *)
Theorem activity_log_is_append_only env actor req db :
  ((forall boardId, req <> DeleteBoard boardId) ->
   events db `prefix_of` events (step env actor req db).2)
  /\ (forall boardId,
        req = DeleteBoard boardId ->
        isOk (step env actor req db).1 = true ->
        events (step env actor req db).2
        = filter (fun e => ev_boardId e <> boardId) (events db)).
Proof.
  destruct (step env actor req db) as [resp db'] eqn:Hstep.
  apply step_log in Hstep. cbn [fst snd].
  assert (OneEvent env actor db resp db' -> events db `prefix_of` events db')
    as Hone.
  { intros [[-> _]|(_ & _ & e & -> & _)]; [done|]. by apply prefix_app_r. }
  split.
  - intros Hreq. destruct req; auto.
    + destruct Hstep as [[-> _]|(_ & e0 & e1 & e2 & e3 & -> & _)]; [done|].
      by apply prefix_app_r.
    + by destruct (Hreq boardId).
  - intros boardId -> Hok.
    destruct Hstep as [[_ Hno]|[_ ->]]; [congruence|done].
Qed.

(** Clearing the activity of the example board keeps its eight events and
    adds the marker. *)
Lemma activity_log_is_append_only_witness :
  events restored `prefix_of` events cleared
  /\ length (events restored) = 8%nat /\ length (events cleared) = 9%nat.
Proof.
  split; [|by vm_compute].
  apply (proj1 (activity_log_is_append_only (envAt 80 "h") alice
                  (ClearActivity "a0") restored)).
  discriminate.
Defined.

(** X18.  Every log the routes can produce is well linked: no two events
    have the same id, and every [card.undone] event names, in
    [revertedEventId], an event that is in the log and is on the same
    board. *)
Theorem reachable_log_is_linked db :
  reachable db ->
  NoDup (ev_id <$> events db)
  /\ forall u r,
       u ∈ events db -> ev_type u = card_undone ->
       d_revertedEventId (ev_data u) = Some r ->
       exists e, e ∈ events db /\ ev_id e = r /\ ev_boardId e = ev_boardId u.
Proof. intros [Hids Hlink]%reachable_LogInv. by split. Qed.

(** In the log of the example board the undo [e0] names the deletion
    [d0]. *)
Lemma reachable_log_is_linked_witness :
  exists u e,
    u ∈ events restored /\ ev_id u = "e0"
    /\ e ∈ events restored /\ ev_id e = "d0"
    /\ ev_boardId e = ev_boardId u.
Proof.
  destruct (reachable_log_is_linked restored reachable_restored) as [_ Hlink].
  assert (exists u, events restored !! 7%nat = Some u /\ ev_id u = "e0"
                    /\ ev_type u = card_undone
                    /\ d_revertedEventId (ev_data u) = Some "d0")
    as (u & Hu & Hid & Hty & Hr) by (eexists; by vm_compute).
  apply list_elem_of_lookup_2 in Hu.
  destruct (Hlink u "d0" Hu Hty Hr) as (e & He & Heid & Hb).
  by exists u, e.
Defined.

End LogMore.
(** ** Subscribing and unsubscribing *)

Section RealtimeMore.
Import Store Realtime Registry.
Context {Payload World : Type}.

Abbreviation Subscriber := (Subscriber Payload World).
Abbreviation SubscriberSet := (SubscriberSet Payload World).
Abbreviation Global := (Global Payload World).

(** The registry as the map it holds. *)
Ltac registry g :=
  let s := fresh "s" in
  destruct g as [s|];
  unfold wellFormed, subscribersOf, unsubscribe, subscribeToBoard,
    subscribersByBoard, store, Realtime.SubscriberSet, Realtime.Global in *;
  cbn [from_option id] in *.

Lemma set_delete_absent (cb : Subscriber) (set : list Subscriber) :
  sub_ref cb ∉ sub_ref <$> set -> set_delete cb set = set.
Proof.
  intros Hno. unfold set_delete, Realtime.SubscriberSet in *.
  induction set as [|s set IH]; [done|].
  rewrite fmap_cons, not_elem_of_cons in Hno. destruct Hno as [Hs Hset].
  rewrite filter_cons_True by done. by rewrite IH.
Qed.

Lemma set_delete_add (cb : Subscriber) (set : list Subscriber) :
  sub_ref cb ∉ sub_ref <$> set -> set_delete cb (set_add cb set) = set.
Proof.
  intros Hno. unfold set_add, set_has.
  rewrite bool_decide_eq_false_2 by done.
  rewrite <- (set_delete_absent cb set) at 2 by done.
  unfold set_delete, Realtime.SubscriberSet in *.
  rewrite filter_app, filter_cons_False by (by intros []).
  by rewrite filter_nil, app_nil_r.
Qed.

Lemma set_delete_refs (cb : Subscriber) (set : list Subscriber) :
  sub_ref cb ∉ sub_ref <$> set_delete cb set.
Proof.
  unfold set_delete, Realtime.SubscriberSet in *.
  intros (s & Hs & [Hne _]%list_elem_of_filter)%list_elem_of_fmap. congruence.
Qed.

Lemma set_add_NoDup (cb : Subscriber) (set : list Subscriber) :
  NoDup (sub_ref <$> set) -> NoDup (sub_ref <$> set_add cb set).
Proof.
  intros Hnd. unfold set_add, set_has, Realtime.SubscriberSet in *.
  case_bool_decide as Hin; [done|].
  rewrite fmap_app. apply NoDup_app. split; [done|]. split.
  - intros r Hr ->%list_elem_of_singleton. done.
  - apply NoDup_singleton.
Qed.

Lemma set_delete_NoDup (cb : Subscriber) (set : list Subscriber) :
  NoDup (sub_ref <$> set) -> NoDup (sub_ref <$> set_delete cb set).
Proof.
  unfold set_delete, Realtime.SubscriberSet in *.
  induction set as [|s set IH]; [done|].
  rewrite fmap_cons, NoDup_cons. intros [Hs Hnd].
  destruct (decide (sub_ref s <> sub_ref cb)).
  - rewrite filter_cons_True by done. rewrite fmap_cons. apply NoDup_cons.
    split; [|by apply IH].
    intros (s' & Hs' & [_ Hin]%list_elem_of_filter)%list_elem_of_fmap.
    apply Hs, list_elem_of_fmap. eauto.
  - rewrite filter_cons_False by done. by apply IH.
Qed.

Lemma set_add_nonempty (cb : Subscriber) (set : list Subscriber) :
  set_add cb set <> [].
Proof.
  unfold set_add, set_has, Realtime.SubscriberSet in *.
  case_bool_decide as Hin.
  - intros ->. by apply elem_of_nil in Hin.
  - by destruct set.
Qed.

Lemma set_add_add (cb : Subscriber) (set : list Subscriber) :
  set_add cb (set_add cb set) = set_add cb set.
Proof.
  unfold set_add at 1. unfold set_has.
  rewrite bool_decide_eq_true_2; [done|].
  unfold set_add, set_has, Realtime.SubscriberSet in *.
  case_bool_decide; [done|].
  rewrite fmap_app. apply elem_of_app. right. by left.
Qed.

Lemma subscribersOf_unsubscribe boardId b (cb : Subscriber) (g : Global) :
  subscribersOf b (unsubscribe boardId cb g)
  = if bool_decide (b = boardId) then set_delete cb (subscribersOf b g)
    else subscribersOf b g.
Proof.
  destruct (decide (b = boardId)) as [->|Hb];
    [rewrite bool_decide_eq_true_2 by done
    |rewrite bool_decide_eq_false_2 by done]; registry g.
  - destruct (s !! boardId) as [current|] eqn:E; cbn [from_option id].
    + case_bool_decide as Hlen; cbn [from_option id].
      * rewrite lookup_delete_eq. apply nil_length_inv in Hlen.
        by rewrite Hlen.
      * by rewrite lookup_insert_eq.
    + by rewrite E.
  - by rewrite lookup_empty.
  - destruct (s !! boardId) as [current|] eqn:E; cbn [from_option id];
      [|done].
    case_bool_decide; cbn [from_option id].
    + by rewrite lookup_delete_ne.
    + by rewrite lookup_insert_ne.
  - by rewrite lookup_empty.
Qed.

Lemma subscribersOf_subscribe boardId b (cb : Subscriber) (g : Global) :
  subscribersOf b (subscribeToBoard boardId cb g)
  = if bool_decide (b = boardId) then set_add cb (subscribersOf b g)
    else subscribersOf b g.
Proof.
  registry g; case_bool_decide; subst;
    by rewrite ?lookup_insert_eq, ?lookup_insert_ne by done.
Qed.

(** The callbacks [publishBoardEvent] calls are the subscribers of the
    board, in the order they subscribed. *)
Lemma publish_world boardId type payload now (g : Global) (w : World) :
  (publishBoardEvent boardId type payload now g w).2
  = afterAllCalls (mkBoardEvent boardId type now payload)
      (subscribersOf boardId g) w.
Proof.
  unfold publishBoardEvent, subscribersOf, subscribersByBoard, store.
  destruct g as [s|]; simpl.
  - destruct (s !! boardId) as [subs|] eqn:Es; simpl; [|done].
    case_bool_decide as Hlen; simpl.
    + apply nil_length_inv in Hlen. by subst.
    + by rewrite forOf_tryCatchIgnore.
  - by rewrite lookup_empty.
Qed.

Lemma publish_registry boardId type payload now (g : Global) (w : World) :
  subscribersByBoard (publishBoardEvent boardId type payload now g w).1.2
  = subscribersByBoard g.
Proof.
  unfold publishBoardEvent, subscribersByBoard, store.
  destruct g as [s|]; simpl.
  - destruct (s !! boardId) as [subs|]; simpl; [|done].
    case_bool_decide; simpl; [done|]. by destruct (forOf _ _ _).
  - by rewrite lookup_empty.
Qed.

Lemma wellFormed_NoDup (g : Global) b :
  wellFormed g -> NoDup (sub_ref <$> subscribersOf b g).
Proof.
  intros Hwf. unfold subscribersOf.
  destruct (subscribersByBoard g !! b) as [set|] eqn:E; simpl.
  - by destruct (Hwf _ _ E).
  - apply NoDup_nil_2.
Qed.

Lemma wellFormed_undefined : wellFormed (None : Global).
Proof.
  intros b set Hb. unfold subscribersByBoard in Hb. simpl in Hb.
  by rewrite lookup_empty in Hb.
Qed.

Lemma wellFormed_subscribe boardId cb (g : Global) :
  wellFormed g -> wellFormed (subscribeToBoard boardId cb g).
Proof.
  intros Hwf b set Hb. split.
  - revert Hb. registry g.
    + destruct (decide (b = boardId)) as [->|Hne].
      * rewrite lookup_insert_eq. intros [= <-]. apply set_add_nonempty.
      * rewrite lookup_insert_ne by done. intros Hb. by eapply Hwf.
    + destruct (decide (b = boardId)) as [->|Hne].
      * rewrite lookup_insert_eq. intros [= <-]. apply set_add_nonempty.
      * rewrite lookup_insert_ne, lookup_empty by done. done.
  - pose proof (subscribersOf_subscribe boardId b cb g) as Hsub.
    unfold subscribersOf in Hsub at 1. rewrite Hb in Hsub. simpl in Hsub.
    rewrite Hsub.
    case_bool_decide; [apply set_add_NoDup|]; by apply wellFormed_NoDup.
Qed.

Lemma wellFormed_unsubscribe boardId cb (g : Global) :
  wellFormed g -> wellFormed (unsubscribe boardId cb g).
Proof.
  intros Hwf b set Hb. split.
  - revert Hb. registry g.
    + destruct (s !! boardId) as [current|] eqn:E; cbn [from_option id];
        [|intros Hb; by eapply Hwf].
      case_bool_decide as Hlen; cbn [from_option id].
      * destruct (decide (b = boardId)) as [->|Hne].
        -- by rewrite lookup_delete_eq.
        -- rewrite lookup_delete_ne by done. intros Hb. by eapply Hwf.
      * destruct (decide (b = boardId)) as [->|Hne].
        -- rewrite lookup_insert_eq. intros [= <-] Hnil.
           by rewrite Hnil in Hlen.
        -- rewrite lookup_insert_ne by done. intros Hb. by eapply Hwf.
    + by rewrite !lookup_empty.
  - pose proof (subscribersOf_unsubscribe boardId b cb g) as Hsub.
    unfold subscribersOf in Hsub at 1. rewrite Hb in Hsub. simpl in Hsub.
    rewrite Hsub.
    case_bool_decide; [apply set_delete_NoDup|]; by apply wellFormed_NoDup.
Qed.

(** X19.  The registry keeps its shape: started undefined and changed by
    [subscribeToBoard], by the unsubscribe functions it returns and by
    [publishBoardEvent] only, it never keeps a board with an empty set of
    subscribers (the entry of a board goes when its last subscriber does)
    and never holds a callback twice in a set. *)
Theorem registry_keeps_its_shape (g : Global) :
  registryOf g ->
  forall boardId set,
    subscribersByBoard g !! boardId = Some set ->
    set <> [] /\ NoDup (sub_ref <$> set).
Proof.
  intros Hg. change (wellFormed g).
  induction Hg as [|boardId cb g _ IH|boardId cb g _ IH
                   |boardId type payload now g w _ IH].
  - apply wellFormed_undefined.
  - by apply wellFormed_subscribe.
  - by apply wellFormed_unsubscribe.
  - intros b set. rewrite publish_registry. apply IH.
Qed.

(** X20.  Unsubscribing takes back what subscribing did: when the
    callback was not subscribed to the board before, the entries of the
    registry after [subscribeToBoard] and the call of the function it
    returned are the entries before. *)
Theorem subscribe_then_unsubscribe boardId (cb : Subscriber) (g : Global) :
  wellFormed g ->
  sub_ref cb ∉ sub_ref <$> subscribersOf boardId g ->
  subscribersByBoard (unsubscribe boardId cb (subscribeToBoard boardId cb g))
  = subscribersByBoard g.
Proof.
  intros Hwf Hno. registry g.
  - rewrite lookup_insert_eq, set_delete_add by done.
    destruct (s !! boardId) as [set|] eqn:E; cbn [from_option id] in *.
    + destruct (Hwf _ _ E) as [Hne _].
      rewrite bool_decide_eq_false_2 by (by destruct set).
      cbn [from_option id]. by rewrite insert_insert_eq, insert_id.
    + rewrite bool_decide_eq_true_2 by done. cbn [from_option id].
      by rewrite delete_insert_id.
  - rewrite lookup_insert_eq, lookup_empty. cbn [from_option id].
    rewrite set_delete_add by (rewrite fmap_nil; apply not_elem_of_nil).
    rewrite bool_decide_eq_true_2 by done. cbn [from_option id].
    by rewrite delete_insert_id.
Qed.

(** X21.  After a callback unsubscribed from a board, an event published
    on that board is delivered to the other subscribers of the board, in
    their order, and not to that callback. *)
Theorem unsubscribed_is_not_called boardId type payload now (cb : Subscriber)
    (g : Global) (w : World) :
  let remaining := set_delete cb (subscribersOf boardId g) in
  (publishBoardEvent boardId type payload now (unsubscribe boardId cb g) w).2
  = afterAllCalls (mkBoardEvent boardId type now payload) remaining w
  /\ (sub_ref cb ∉ sub_ref <$> remaining)
  /\ (forall s, s ∈ subscribersOf boardId g -> sub_ref s <> sub_ref cb ->
                s ∈ remaining).
Proof.
  intros remaining. split; [|split].
  - rewrite publish_world, subscribersOf_unsubscribe.
    by rewrite bool_decide_eq_true_2.
  - apply set_delete_refs.
  - intros s Hs Hne. unfold remaining, set_delete.
    unfold Realtime.SubscriberSet in *. by apply list_elem_of_filter.
Qed.

(** X22.  Boards are apart: subscribing to or unsubscribing from one board
    does not change who is called for an event of another board, and an
    event of a board nobody subscribed to calls nobody. *)
Theorem other_boards_are_not_called boardId other type payload now
    (cb : Subscriber) (g : Global) (w : World) :
  other <> boardId ->
  (publishBoardEvent boardId type payload now (subscribeToBoard other cb g)
     w).2
  = (publishBoardEvent boardId type payload now g w).2
  /\ (publishBoardEvent boardId type payload now (unsubscribe other cb g) w).2
     = (publishBoardEvent boardId type payload now g w).2
  /\ (subscribersByBoard g !! boardId = None ->
      (publishBoardEvent boardId type payload now g w).2 = w).
Proof.
  intros Hne. rewrite !publish_world.
  rewrite subscribersOf_subscribe, subscribersOf_unsubscribe.
  rewrite !bool_decide_eq_false_2 by done. split; [done|]. split; [done|].
  intros Hnone. unfold subscribersOf, Realtime.SubscriberSet in *.
  by rewrite Hnone.
Qed.

(** X23.  The subscribers of a board are a set: subscribing a callback
    that is subscribed already changes nothing, so the callback is called
    once per event; a new callback is called after the ones that
    subscribed before it. *)
Theorem subscribe_twice_is_once boardId (cb : Subscriber) (g : Global) :
  subscribeToBoard boardId cb (subscribeToBoard boardId cb g)
  = subscribeToBoard boardId cb g
  /\ (sub_ref cb ∉ sub_ref <$> subscribersOf boardId g ->
      subscribersOf boardId (subscribeToBoard boardId cb g)
      = subscribersOf boardId g ++ [cb]).
Proof.
  split.
  - registry g; rewrite lookup_insert_eq; cbn [from_option id];
      by rewrite set_add_add, insert_insert_eq.
  - intros Hno. rewrite subscribersOf_subscribe.
    rewrite bool_decide_eq_true_2 by done. unfold set_add, set_has.
    by rewrite bool_decide_eq_false_2.
Qed.

End RealtimeMore.

Section RealtimeMoreExamples.
Import Store Realtime Registry Examples.

Lemma threeSubscribers_wellFormed : wellFormed threeSubscribers.
Proof.
  repeat apply wellFormed_subscribe. apply wellFormed_undefined.
Qed.

(** The three connections of the example board are three different
    callbacks. *)
Lemma registry_keeps_its_shape_witness :
  exists set,
    subscribersByBoard threeSubscribers !! "a0" = Some set
    /\ set <> [] /\ NoDup (sub_ref <$> set).
Proof.
  eexists. split; [vm_compute; reflexivity|].
  apply (registry_keeps_its_shape threeSubscribers
           ltac:(repeat apply registry_subscribe; apply registry_undefined)
           "a0").
  vm_compute. reflexivity.
Defined.

(** A fourth connection, on another board, opened and closed again. *)
Lemma subscribe_then_unsubscribe_witness :
  subscribersByBoard
    (unsubscribe "b9" (recorder 4 Returns)
       (subscribeToBoard "b9" (recorder 4 Returns) threeSubscribers))
  = subscribersByBoard threeSubscribers.
Proof.
  apply (subscribe_then_unsubscribe "b9" (recorder 4 Returns)
           threeSubscribers threeSubscribers_wellFormed).
  vm_compute. apply not_elem_of_nil.
Defined.

(** A subscriber of board [b9] is not called for an event of [a0]. *)
Lemma other_boards_are_not_called_witness :
  (publishBoardEvent "a0" "board.changed" None 100
     (subscribeToBoard "b9" (recorder 4 Returns) threeSubscribers) []).2
  = [1; 2; 3]%nat.
Proof.
  rewrite (proj1 (other_boards_are_not_called "a0" "b9" "board.changed" None
                    100 (recorder 4 Returns) threeSubscribers []
                    ltac:(discriminate))).
  vm_compute. reflexivity.
Defined.

End RealtimeMoreExamples.
(** ** The frames of the event stream *)

Section SseFacts.
Import Text Sse.

Lemma append_cons c (s t : string) : String c s +:+ t = String c (s +:+ t).
Proof. reflexivity. Qed.

Lemma append_empty (t : string) : "" +:+ t = t.
Proof. reflexivity. Qed.

Lemma split_nonempty data : split data <> [].
Proof.
  destruct data as [|c rest]; simpl; [done|].
  case_bool_decide; [done|]. by destruct (split rest).
Qed.

Lemma join_cons line rest :
  rest <> [] -> join (line :: rest) = line +:+ String LF (join rest).
Proof. by destruct rest. Qed.

Lemma join_split data : join (split data) = data.
Proof.
  induction data as [|c rest IH]; [done|]. cbn [split].
  case_bool_decide as Hc.
  - rewrite join_cons by apply split_nonempty. cbn. by rewrite IH, Hc.
  - pose proof (split_nonempty rest) as Hne.
    destruct (split rest) as [|line lines]; [done|].
    rewrite <- IH. by destruct lines.
Qed.

Lemma split_pieces data line : line ∈ split data -> LF ∉ chars line.
Proof.
  revert line. induction data as [|c rest IH]; intros line; cbn [split].
  - intros ->%list_elem_of_singleton. apply not_elem_of_nil.
  - case_bool_decide as Hc.
    + intros [->|Hin]%elem_of_cons; [apply not_elem_of_nil|by apply IH].
    + destruct (split rest) as [|l ls].
      * intros ->%list_elem_of_singleton. cbn.
        intros [?|?%elem_of_nil]%elem_of_cons; [congruence|done].
      * intros [->|Hin]%elem_of_cons.
        -- cbn. intros [?|Hl]%elem_of_cons; [congruence|].
           by apply (IH l); [left|].
        -- apply IH. by right.
Qed.

Lemma split_line line : LF ∉ chars line -> split line = [line].
Proof.
  induction line as [|c rest IH]; [done|]. cbn.
  intros [Hc Hrest]%not_elem_of_cons.
  rewrite bool_decide_eq_false_2 by done. by rewrite IH.
Qed.

Lemma split_line_then line rest :
  LF ∉ chars line -> split (line +:+ String LF rest) = line :: split rest.
Proof.
  induction line as [|c line IH].
  - intros _. rewrite append_empty. cbn [split].
    by rewrite bool_decide_eq_true_2.
  - cbn [chars]. intros [Hc Hline]%not_elem_of_cons.
    rewrite append_cons. cbn [split].
    rewrite bool_decide_eq_false_2 by done. by rewrite IH.
Qed.

Lemma split_join lines :
  lines <> [] -> Forall (fun line => LF ∉ chars line) lines ->
  split (join lines) = lines.
Proof.
  induction lines as [|line rest IH]; [done|]. intros _ Hall.
  apply Forall_cons in Hall as [Hline Hrest].
  destruct rest as [|line' rest].
  - by apply split_line.
  - rewrite join_cons by done. rewrite split_line_then by done.
    by rewrite IH.
Qed.

Lemma append_assoc (s t u : string) : (s +:+ t) +:+ u = s +:+ (t +:+ u).
Proof.
  induction s as [|c s IH]; [done|]. by rewrite !append_cons, IH.
Qed.

Lemma join_snoc_empty lines :
  lines <> [] -> join (lines ++ [""]) = join lines +:+ String LF "".
Proof.
  induction lines as [|line rest IH]; [done|]. intros _.
  destruct rest as [|line' rest]; [done|].
  change ((line :: line' :: rest) ++ [""])
    with (line :: (line' :: rest) ++ [""]).
  rewrite (join_cons line ((line' :: rest) ++ [""])) by done.
  rewrite IH by done. rewrite (join_cons line (line' :: rest)) by done.
  by rewrite append_assoc, append_cons.
Qed.

Lemma chars_app s t : chars (s +:+ t) = chars s ++ chars t.
Proof.
  induction s as [|c s IH]; [done|]. rewrite append_cons. cbn [chars].
  by rewrite IH.
Qed.

Lemma foldl_push (f : string -> string) lines pieces :
  foldl (fun lines line => push lines (f line)) lines pieces
  = lines ++ (f <$> pieces).
Proof.
  revert lines. induction pieces as [|p pieces IH]; intros lines; cbn.
  - by rewrite app_nil_r.
  - rewrite IH. unfold push. by rewrite <- app_assoc.
Qed.

(** The lines [sse] joins, but for the last, empty one. *)
Lemma sse_joined data event :
  sse data event
  = join ((match event with
           | Some (String _ _ as e) => ["event: " +:+ e]
           | _ => []
           end ++ (String.append "data: " <$> split data)) ++ [""]).
Proof.
  unfold sse. rewrite foldl_push. unfold push.
  by destruct event as [[|c e]|].
Qed.

(** X24.  The lines of a frame: for an event name without a line feed,
    the text [sse] returns is, line by line, the [event: ] line when there
    is a name, one [data: ] line for each line of the data, and nothing
    after the last line feed; the data is read back by joining what
    follows the [data: ] prefixes.  The frame ends with one line feed,
    and none of the lines before it is empty. *)
Theorem sse_frame_lines data event :
  (forall e, event = Some e -> LF ∉ chars e) ->
  let head :=
    match event with
    | Some (String _ _ as e) => ["event: " +:+ e]
    | _ => []
    end in
  split (sse data event)
  = head ++ (String.append "data: " <$> split data) ++ [""]
  /\ join (split data) = data
  /\ exists body,
       sse data event = body +:+ String LF ""
       /\ forall line, line ∈ split body -> line <> "".
Proof.
  intros Hevent head.
  assert (Forall (fun line => (LF ∉ chars line) /\ line <> "")
            (head ++ (String.append "data: " <$> split data))) as Hlines.
  { apply Forall_app. split.
    - subst head. destruct event as [[|c e]|]; try apply Forall_nil_2.
      apply Forall_singleton. split; [|done].
      change (LF ∉ chars ("event: " +:+ String c e)).
      rewrite chars_app. intros [Hin|Hin]%elem_of_app.
      + revert Hin. apply (bool_decide_unpack _). by vm_compute.
      + by apply (Hevent (String c e)).
    - apply Forall_fmap, Forall_forall. intros piece Hpiece. split; [|done].
      change (LF ∉ chars ("data: " +:+ piece)). rewrite chars_app.
      intros [Hin|Hin]%elem_of_app.
      + revert Hin. apply (bool_decide_unpack _). by vm_compute.
      + by apply (split_pieces data piece). }
  assert (head ++ (String.append "data: " <$> split data) <> []) as Hne.
  { pose proof (split_nonempty data) as Hd.
    destruct (split data); [done|]. by destruct head. }
  rewrite sse_joined. fold head. split; [|split].
  - rewrite split_join;
      [by rewrite <- app_assoc|by intros [_ ?]%app_eq_nil|].
    apply Forall_app. split.
    + eapply Forall_impl; [exact Hlines|]. by intros line [? _].
    + apply Forall_singleton, not_elem_of_nil.
  - apply join_split.
  - eexists. split; [by apply join_snoc_empty|].
    intros line Hline. rewrite split_join in Hline; [|done|].
    + by apply (proj1 (Forall_forall _ _) Hlines line).
    + eapply Forall_impl; [exact Hlines|]. by intros l [? _].
Qed.

(** The frame of a two-line text under the name [board]. *)
Lemma sse_frame_lines_witness :
  split (sse ("one" +:+ String LF "two") (Some "board"))
  = ["event: board"; "data: one"; "data: two"; ""].
Proof.
  apply (proj1 (sse_frame_lines ("one" +:+ String LF "two") (Some "board")
                  ltac:(intros e [= <-]; apply (bool_decide_unpack _);
                        by vm_compute))).
Defined.

End SseFacts.
(** ** The undo buttons of the panel and the undo route *)

Section PanelFacts.
Import Store Routes Activity Undo System Spec Examples Panel.

Lemma typeName_undone t : typeName t = "card.undone" <-> t = card_undone.
Proof. split; [by destruct t|by intros ->]. Qed.

(** An event of a log without repeated ids is the one its id finds. *)
Lemma found_in_log db e :
  LogInv db -> e ∈ events db -> findById (ev_id e) (events db) = Some e.
Proof.
  intros [Hnd _] He.
  destruct (findById_elem_of (events db) e He) as [e' He'].
  pose proof (findById_Some _ _ _ He') as [Hin Hid].
  assert (e' = e) as ->
    by (by eapply (findById_unique (ev_id e) (events db))).
  done.
Qed.

(** The ids the panel collects are the ones the undo events it shows
    name. *)
Lemma elem_of_undoneIds evs r :
  r ∈ undoneIds evs
  <-> r <> ""
      /\ exists u, u ∈ evs /\ ev_type u = card_undone
                   /\ d_revertedEventId (ev_data u) = Some r.
Proof.
  unfold undoneIds.
  assert (forall ids : gset string,
            r ∈ foldl
                  (fun ids evt =>
                     if bool_decide (typeName (ev_type evt) <> "card.undone")
                     then ids
                     else
                       match getRevertedEventId (ev_data evt) with
                       | Some (String _ _ as reverted) => {[reverted]} ∪ ids
                       | _ => ids
                       end) ids evs
            <-> r ∈ ids
                \/ (r <> ""
                    /\ exists u, u ∈ evs /\ ev_type u = card_undone
                                 /\ d_revertedEventId (ev_data u) = Some r))
    as Hgen.
  { induction evs as [|evt evs IH]; intros ids; cbn [foldl].
    - split; [by left|]. intros [?|(_ & u & []%elem_of_nil & _)]. done.
    - rewrite IH. unfold getRevertedEventId. split.
      + intros [Hin|(Hr & u & Hu & Hty & Hrev)].
        * case_bool_decide as Hevt; [by left|].
          apply typeName_undone in Hevt.
          destruct (d_revertedEventId (ev_data evt)) as [[|c reverted]|] eqn:E;
            [by left| |by left].
          apply elem_of_union in Hin as [->%elem_of_singleton|Hin];
            [|by left].
          right. split; [done|]. exists evt. split; [by left|done].
        * right. split; [done|]. exists u. split; [by right|done].
      + intros [Hin|(Hr & u & [->|Hu]%elem_of_cons & Hty & Hrev)].
        * left. case_bool_decide; [done|].
          destruct (d_revertedEventId (ev_data evt)) as [[|c reverted]|];
            [done| |done].
          apply elem_of_union. by right.
        * left. rewrite bool_decide_eq_false_2
            by (intros Hne; by apply Hne, typeName_undone).
          rewrite Hrev. destruct r as [|c r]; [done|].
          apply elem_of_union. left. by apply elem_of_singleton.
        * right. split; [done|]. by exists u. }
  rewrite Hgen. split; [|by right].
  by intros [[]%elem_of_empty|?].
Qed.

(** X25.  The label Undone is true of the server: when the panel, showing
    the events the activity route returned, sets the button of an event to
    disabled with the label Undone, an undo request for that event is the
    no-op, whoever sends it, and changes nothing. *)
Theorem undone_label_is_a_noop env viewer actor boardId limit undoingId db e :
  reachable db ->
  e ∈ activityEvents viewer boardId limit db ->
  undoButton undoingId (activityEvents viewer boardId limit db) e
  = button true "Undone" ->
  undo env actor (ev_id e) db = (jsonOk UndoneNoop 200, db).
Proof.
  intros Hinv%reachable_LogInv [He _]%activityEvents_visible.
  unfold undoButton. destruct (canUndo _); [|done].
  destruct (bool_decide (ev_id e ∈ undoneIds _)) eqn:Hundone;
    [intros _|intros Hlabel; by simplify_eq].
  apply bool_decide_eq_true in Hundone.
  apply elem_of_undoneIds in Hundone as (_ & u & Hu & Hty & Hrev).
  apply activityEvents_visible in Hu as [Hu _].
  pose proof (found_in_log db e Hinv He) as Hfound.
  destruct (marker_found db (ev_id e) e u Hinv Hfound Hu Hty Hrev)
    as [m Hm].
  by eapply undo_marker_found.
Qed.

(** On the example board the panel of Alice labels the deletion [d0]
    Undone. *)
Lemma undone_label_is_a_noop_witness :
  undo (envAt 90 "z") bob "d0" restored = (jsonOk UndoneNoop 200, restored).
Proof.
  assert (exists e,
            e ∈ activityEvents alice "a0" (Some "50") restored
            /\ undoButton None (activityEvents alice "a0" (Some "50") restored)
                 e = button true "Undone"
            /\ ev_id e = "d0") as (e & Hin & Hbutton & Hid).
  { eexists. split; [|split].
    - apply (list_elem_of_lookup_2 _ 1%nat). vm_compute. reflexivity.
    - vm_compute. reflexivity.
    - reflexivity. }
  rewrite <- Hid.
  exact (undone_label_is_a_noop (envAt 90 "z") alice bob "a0" (Some "50")
           None restored e reachable_restored Hin Hbutton).
Defined.

(** X26.  The panel leaves out the button where the server has no undo:
    for an event of the log the panel shows without a button (any type
    but card.created, card.updated, card.moved and card.deleted), the undo
    route answers the no-op or refuses with 409, and changes nothing. *)
Theorem no_button_is_refused env actor undoingId shown db e :
  reachable db ->
  e ∈ events db ->
  undoButton undoingId shown e = noButton ->
  undo env actor (ev_id e) db = (jsonOk UndoneNoop 200, db)
  \/ exists reason, undo env actor (ev_id e) db = (jsonError reason 409, db).
Proof.
  intros Hinv%reachable_LogInv He Hbutton.
  pose proof (found_in_log db e Hinv He) as Hfound.
  destruct (find (fun u => bool_decide (revertsEvent e u)) (events db))
    as [m|] eqn:Hm.
  { left. by eapply undo_marker_found. }
  right. unfold undoButton in Hbutton.
  destruct (canUndo (typeName (ev_type e))) eqn:Hcan; [done|].
  unfold undo, undo_tx. tx_unfold. tx_eval.
  case_bool_decide as Hentity; [by eexists|].
  destruct (ev_type e); try done; by eexists.
Qed.

(** The creation of the example board has no button, and its undo is
    refused. *)
Lemma no_button_is_refused_witness :
  exists reason,
    undo (envAt 90 "z") bob "a4" restored = (jsonError reason 409, restored).
Proof.
  assert (exists e,
            e ∈ events restored
            /\ undoButton None (activityEvents alice "a0" (Some "50") restored)
                 e = noButton
            /\ ev_id e = "a4") as (e & Hin & Hbutton & Hid).
  { eexists. split; [|split].
    - apply (list_elem_of_lookup_2 _ 0%nat). vm_compute. reflexivity.
    - vm_compute. reflexivity.
    - reflexivity. }
  rewrite <- Hid.
  destruct (no_button_is_refused (envAt 90 "z") bob None _ restored e
              reachable_restored Hin Hbutton) as [Hnoop|Href]; [|exact Href].
  rewrite Hid in Hnoop. vm_compute in Hnoop. discriminate.
Defined.

End PanelFacts.
(** ** The name and the client id of the actor *)

Section IdentityFacts.
Import Store Text Identity.

Lemma slice0_length n s :
  String.length (slice0 n s) = Nat.min n (String.length s).
Proof.
  unfold slice0. revert s.
  induction n as [|n IH]; intros [|c s]; simpl; [done..|]. by rewrite IH.
Qed.

Lemma slice0_prefix n s : exists rest, s = slice0 n s +:+ rest.
Proof.
  unfold slice0. revert s. induction n as [|n IH]; intros [|c s].
  - by exists "".
  - by exists (String c s).
  - by exists "".
  - destruct (IH s) as [rest Hrest]. exists rest. simpl.
    change (String c s = String c (substring 0 n s +:+ rest)).
    by rewrite <- Hrest.
Qed.

Lemma slice0_short n s : (String.length s <= n)%nat -> slice0 n s = s.
Proof.
  unfold slice0. revert s. induction n as [|n IH]; intros [|c s]; simpl;
    [done|lia|done|].
  intros Hlen. rewrite IH; [done|lia].
Qed.

Lemma slice0_twice n s : slice0 n (slice0 n s) = slice0 n s.
Proof. apply slice0_short. rewrite slice0_length. lia. Qed.

Lemma length_chars s : String.length s = length (chars s).
Proof. induction s as [|c s IH]; simpl; [done|]. by rewrite IH. Qed.

Lemma chars_rev s : chars (String.rev s) = reverse (chars s).
Proof.
  unfold String.rev.
  assert (forall t, chars (String.rev_app s t) = reverse (chars s) ++ chars t)
    as Hgen.
  { induction s as [|c s IH]; intros t; simpl; [done|].
    rewrite IH, reverse_cons. simpl. by rewrite <- app_assoc. }
  rewrite Hgen. simpl. by rewrite app_nil_r.
Qed.

(** [trimStart] removes everything from a text that holds only what it
    removes, and stops at the first character it keeps. *)
Lemma trimStart_blank s :
  (forall c, c ∈ chars s -> isTrimmed c = true) -> trimStart s = "".
Proof.
  induction s as [|c s IH]; simpl; [done|]. intros Hall.
  rewrite (Hall c) by (by left). apply IH. intros c' Hc'. apply Hall.
  by right.
Qed.

Lemma trimStart_kept s c :
  c ∈ chars s -> isTrimmed c = false ->
  exists c' rest, trimStart s = String c' rest /\ isTrimmed c' = false.
Proof.
  induction s as [|c0 s IH]; simpl; [by intros ?%elem_of_nil|].
  intros Hin Hc. destruct (isTrimmed c0) eqn:E0; [|by eauto].
  apply elem_of_cons in Hin as [->|Hin]; [congruence|]. by apply IH.
Qed.

(** What [trim] leaves is not empty exactly when the text holds a
    character that [trim] does not remove. *)
Lemma trim_length id :
  (0 < String.length (trim id))%nat
  <-> exists c, c ∈ chars id /\ isTrimmed c = false.
Proof.
  unfold trim, trimEnd. split.
  - intros Hlen.
    destruct (decide (Exists (fun c => isTrimmed c = false) (chars id)))
      as [Hex|Hno].
    + apply Exists_exists in Hex. exact Hex.
    + rewrite (trimStart_blank id) in Hlen; [simpl in Hlen; lia|].
      intros c Hc. destruct (isTrimmed c) eqn:E; [done|].
      destruct Hno. apply Exists_exists. exists c. split; assumption.
  - intros (c & Hc & Hkept).
    destruct (trimStart_kept id c Hc Hkept) as (c1 & r1 & -> & Hc1).
    destruct (trimStart_kept (String.rev (String c1 r1)) c1)
      as (c2 & r2 & -> & _); [|done|].
    + rewrite chars_rev. apply elem_of_reverse. by left.
    + rewrite length_chars, chars_rev, length_reverse. simpl. lia.
Qed.

Lemma getActor_actorName req nanoid :
  actorName (getActor req nanoid).1
  = slice0 80 (default "Anonymous" (x_actor_name req)).
Proof.
  unfold getActor. destruct (x_client_id req) as [id|]; [|done].
  by destruct (_ && _).
Qed.

(** X27.  The name of the actor is capped: [getActor] gives the first 80
    characters of the [x-actor-name] header, the whole header when it
    has at most 80, and Anonymous when the header is not sent; an empty
    header gives the empty name, not Anonymous. *)
Theorem getActor_name_is_capped req nanoid :
  let header := x_actor_name req in
  let name := actorName (getActor req nanoid).1 in
  (String.length name <= 80)%nat
  /\ (exists rest, default "Anonymous" header = name +:+ rest)
  /\ (forall sent,
        header = Some sent -> (String.length sent <= 80)%nat -> name = sent)
  /\ (header = None -> name = "Anonymous")
  /\ (header = Some "" -> name = "").
Proof.
  intros header name. subst name. rewrite getActor_actorName. fold header.
  split; [rewrite slice0_length; lia|]. split; [apply slice0_prefix|].
  split; [|split].
  - intros sent -> Hlen. by apply slice0_short.
  - by intros ->.
  - by intros ->.
Qed.

(** X28.  Which client id [getActor] uses.  An [x-client-id] header that
    holds a character other than white space is used as it is, with the
    white space around it, and nothing is echoed.  When the header is
    not sent, is empty or is white space only, the id is a new one from
    [nanoid()], and it is echoed in [setClientIdHeader].  The user id is
    the [x-actor-user-id] header in both cases. *)
Theorem getActor_client_id req nanoid :
  (forall id,
     x_client_id req = Some id ->
     (exists c, c ∈ chars id /\ isTrimmed c = false) ->
     actorClientId (getActor req nanoid).1 = id
     /\ (getActor req nanoid).2 = None)
  /\ ((forall id c,
         x_client_id req = Some id -> c ∈ chars id -> isTrimmed c = true) ->
      actorClientId (getActor req nanoid).1 = nanoid
      /\ (getActor req nanoid).2 = Some nanoid)
  /\ actorUserId (getActor req nanoid).1 = x_actor_user_id req.
Proof.
  unfold getActor. split; [|split].
  - intros id -> Hkept.
    assert (truthy (Some id) = true) as ->.
    { destruct Hkept as (c & Hc & _). destruct id; [|done].
      by apply elem_of_nil in Hc. }
    by rewrite bool_decide_eq_true_2 by (by apply trim_length).
  - intros Hblank. destruct (x_client_id req) as [id|]; [|done].
    rewrite bool_decide_eq_false_2, andb_false_r; [done|].
    intros (c & Hc & Hkept)%trim_length.
    rewrite (Hblank id c) in Hkept; done.
  - destruct (x_client_id req) as [id|]; [|done]. by destruct (_ && _).
Qed.

Lemma stripStart_length s :
  (String.length (stripStart s) <= String.length s)%nat.
Proof.
  induction s as [|c s IH]; simpl; [done|].
  destruct (isHttpWhitespace c); simpl; lia.
Qed.

Lemma rev_length s : String.length (String.rev s) = String.length s.
Proof. by rewrite !length_chars, chars_rev, length_reverse. Qed.

Lemma normalize_length s :
  (String.length (normalize s) <= String.length s)%nat.
Proof.
  unfold normalize. rewrite rev_length.
  etrans; [apply stripStart_length|]. rewrite rev_length.
  apply stripStart_length.
Qed.

Lemma headerValue_length value sent :
  headerValue value = Some sent ->
  (String.length sent <= String.length value)%nat.
Proof.
  unfold headerValue. destruct (existsb _ _); [done|].
  intros [= <-]. apply normalize_length.
Qed.

Lemma getActorName_length window :
  (String.length (getActorName window) <= 80)%nat.
Proof.
  destruct window as [localStorage|]; simpl; [|lia].
  rewrite slice0_length. lia.
Qed.

Lemma getActorName_setClientId id localStorage :
  getActorName (Some (<[CLIENT_ID_KEY := id]> localStorage))
  = getActorName (Some localStorage).
Proof. unfold getActorName. by rewrite lookup_insert_ne. Qed.



End IdentityFacts.
